(** * pytopo.rf.alazar_acquisition: acquisition controllers for the Alazar card

    A shallow embedding of [src/pytopo/rf/alazar_acquisition.py] and the
    properties of it that the specification states, followed by
    [_DataExtractor.__getitem__] of [src/pytopo/sweep/convenience.py] and
    by further properties of both.

    Conventions of the embedding.
    - Python [int] is [Z]; a fixed-width numpy unsigned integer is a [Z]
      with its wrap-around [mod 2^w] written out where numpy wraps.
    - Python [float] and numpy [float32]/[float64] are the exact rationals
      [Q] in the controllers: there the rounding of the binary formats is
      not part of the model.  The sample values that the theorems below
      compute at concrete inputs are dyadic rationals with short
      mantissas, which both binary formats hold exactly.  The two
      expressions whose value depends on rounding, the sample count of
      [time2samples] and the period of the demodulation, are given a
      second time with the rounding of binary64 ([time2samples_binary64],
      [period_binary64]); what the file proves about those two values is
      proved of these.
    - A numpy array is its shape and its elements in row-major (C) order.
    - A Python exception is the [Raise] case of [result]; what a method
      had assigned before it raised is not kept. *)

From Stdlib Require Import Ascii String ZArith QArith Qround List Bool Arith Lia Lqa.
From Stdlib Require Import Floats.SpecFloat Permutation Qpower.
From Stdlib Require OrderedTypeEx.
Import ListNotations.

Open Scope Z_scope.

(* ================================================================== *)
(** ** Exceptions *)

Inductive exn : Set :=
| ValueError
| TypeError
| IndexError
| AttributeError
| ZeroDivisionError
| OverflowError
| NanValue.  (* not an exception of numpy: a mean over an empty axis is
                nan there, which [Q] cannot hold; the model stops *)

Inductive result (A : Type) : Type :=
| Ok (a : A)
| Raise (e : exn).
Arguments Ok {A} a.
Arguments Raise {A} e.

Definition bind {A B : Type} (r : result A) (k : A -> result B) : result B :=
  match r with
  | Ok a => k a
  | Raise e => Raise e
  end.

Notation "x <- r ;; k" := (bind r (fun x => k))
  (at level 61, r at next level, right associativity).

Definition of_option {A : Type} (e : exn) (o : option A) : result A :=
  match o with
  | Some a => Ok a
  | None => Raise e
  end.

(* ================================================================== *)
(** ** Python numbers *)

(** [int(x)] of a float: truncation toward zero. *)
Definition py_int (x : Q) : Z :=
  if Qle_bool 0 x then Qfloor x else Qceiling x.

Definition Qlt_bool (x y : Q) : bool := negb (Qle_bool y x).

(** [a // b] on ints. *)
Definition py_floordiv (a b : Z) : result Z :=
  if b =? 0 then Raise ZeroDivisionError else Ok (a / b).

(** [x // y] on floats, for a divisor that is not zero. *)
Definition float_floordiv (x y : Q) : Q := inject_Z (Qfloor (x / y)).

(* ================================================================== *)
(** ** numpy arrays *)

Inductive dtype : Set := uint8 | uint16 | uint32.

Definition width (t : dtype) : Z :=
  match t with
  | uint8 => 8
  | uint16 => 16
  | uint32 => 32
  end.

(** Conversion of an integer to an unsigned type keeps the low bits. *)
Definition wrap (t : dtype) (v : Z) : Z := v mod 2 ^ width t.

Record ndarray (A : Type) : Type := NdArray {
  shape : list nat;
  elems : list A
}.
Arguments NdArray {A} shape elems.
Arguments shape {A} n.
Arguments elems {A} n.

Definition size_of (shp : list nat) : nat := fold_right Nat.mul 1%nat shp.

Definition ndim {A : Type} (a : ndarray A) : nat := length (shape a).

Definition wf {A : Type} (a : ndarray A) : Prop :=
  length (elems a) = size_of (shape a).

Definition nd_map {A B : Type} (f : A -> B) (a : ndarray A) : ndarray B :=
  NdArray (shape a) (map f (elems a)).

Fixpoint zip_with {A B C : Type} (f : A -> B -> C) (xs : list A) (ys : list B)
  : list C :=
  match xs, ys with
  | x :: xs', y :: ys' => f x y :: zip_with f xs' ys'
  | _, _ => []
  end.

(** The elements of an array of shape [shp] whose element at flat index [i]
    is the element of [xs] at flat index [src i]. *)
Definition gather {A : Type} (d : A) (shp : list nat) (src : nat -> nat)
  (xs : list A) : list A :=
  map (fun i => nth (src i) xs d) (seq 0 (size_of shp)).

Definition shape_eqb (s t : list nat) : bool :=
  if list_eq_dec Nat.eq_dec s t then true else false.

(** [np.zeros(shp)]: a negative dimension is refused. *)
Definition np_zeros (shp : list Z) : result (ndarray Z) :=
  if forallb (fun d => 0 <=? d) shp
  then let s := map Z.to_nat shp in Ok (NdArray s (repeat 0 (size_of s)))
  else Raise ValueError.

(** [a.reshape(newshape)] and [a.shape = newshape].  A negative entry is the
    dimension to infer, and at most one is allowed; it is inferred by
    dividing the size by the product of the others, which numpy refuses
    when that product is zero or does not divide the size. *)
Definition np_reshape {A : Type} (a : ndarray A) (newshape : list Z)
  : result (ndarray A) :=
  let size := size_of (shape a) in
  let known := filter (fun d => 0 <=? d) newshape in
  let s_known := size_of (map Z.to_nat known) in
  match (length newshape - length known)%nat with
  | O =>
      if (s_known =? size)%nat
      then Ok (NdArray (map Z.to_nat newshape) (elems a))
      else Raise ValueError
  | 1%nat =>
      if (s_known =? 0)%nat || negb (size mod s_known =? 0)%nat
      then Raise ValueError
      else Ok (NdArray
                 (map (fun d => if 0 <=? d then Z.to_nat d
                                else (size / s_known)%nat) newshape)
                 (elems a))
  | _ => Raise ValueError
  end.

(** [a.transpose((1,2,0))]: the element at [(i,j,k)] of the result is the
    element at [(k,i,j)] of [a]. *)
Definition transpose_120 {A : Type} (d : A) (a : ndarray A)
  : result (ndarray A) :=
  match shape a with
  | [n0; n1; n2] =>
      Ok (NdArray [n1; n2; n0]
            (gather d [n1; n2; n0]
               (fun idx =>
                  let i := idx / (n2 * n0) in
                  let j := (idx / n0) mod n2 in
                  let k := idx mod n0 in
                  k * (n1 * n2) + i * n2 + j)%nat
               (elems a)))
  | _ => Raise ValueError
  end.

(** *** Broadcasting *)

(** The coordinates of flat index [idx] in an array of shape [shp]. *)
Fixpoint unravel (shp : list nat) (idx : nat) : list nat :=
  match shp with
  | [] => []
  | d :: rest => ((idx / size_of rest) mod d)%nat :: unravel rest idx
  end.

Fixpoint ravel (shp midx : list nat) : nat :=
  match shp, midx with
  | _ :: rest, i :: is' => (i * size_of rest + ravel rest is')%nat
  | _, _ => 0%nat
  end.

Definition pad_shape (n : nat) (s : list nat) : list nat :=
  repeat 1%nat (n - length s) ++ s.

Fixpoint broadcast_dims (s t : list nat) : result (list nat) :=
  match s, t with
  | [], [] => Ok []
  | d :: s', e :: t' =>
      r <- broadcast_dims s' t' ;;
      if (d =? e)%nat then Ok (d :: r)
      else if (d =? 1)%nat then Ok (e :: r)
      else if (e =? 1)%nat then Ok (d :: r)
      else Raise ValueError
  | _, _ => Raise ValueError
  end.

(** The shape two operands broadcast to: shapes are aligned at the right,
    and two dimensions agree when they are equal or one of them is 1. *)
Definition broadcast_shapes (s t : list nat) : result (list nat) :=
  let n := Nat.max (length s) (length t) in
  broadcast_dims (pad_shape n s) (pad_shape n t).

Fixpoint stretches (s t : list nat) : bool :=
  match s, t with
  | [], [] => true
  | d :: s', e :: t' => ((d =? e)%nat || (d =? 1)%nat) && stretches s' t'
  | _, _ => false
  end.

(** The elements of [a] seen as an array of shape [t]. *)
Definition broadcast_to {A : Type} (d : A) (t : list nat) (a : ndarray A)
  : result (list A) :=
  if shape_eqb (shape a) t then Ok (elems a)
  else if (length t <? ndim a)%nat then Raise ValueError
  else
    let s := pad_shape (length t) (shape a) in
    if stretches s t
    then Ok (gather d t
               (fun idx =>
                  ravel s (zip_with (fun sd c => if (sd =? 1)%nat then 0%nat else c)
                             s (unravel t idx)))
               (elems a))
    else Raise ValueError.

(** A binary ufunc [f(a, b)]. *)
Definition np_binop {A B C : Type} (da : A) (db : B) (f : A -> B -> C)
  (a : ndarray A) (b : ndarray B) : result (ndarray C) :=
  shp <- broadcast_shapes (shape a) (shape b) ;;
  xs <- broadcast_to da shp a ;;
  ys <- broadcast_to db shp b ;;
  Ok (NdArray shp (zip_with f xs ys)).

(** *** Indexing on the first axis *)

(** A Python index into a sequence of length [n]: a negative index counts
    from the end. *)
Definition py_index (n : nat) (k : Z) : result nat :=
  if (0 <=? k) && (k <? Z.of_nat n) then Ok (Z.to_nat k)
  else if (- Z.of_nat n <=? k) && (k <? 0) then Ok (Z.to_nat (Z.of_nat n + k))
  else Raise IndexError.

(** [a[i]] for an index [i] in range. *)
Definition slot {A : Type} (a : ndarray A) (i : nat) : ndarray A :=
  let m := size_of (tl (shape a)) in
  NdArray (tl (shape a)) (firstn m (skipn (i * m) (elems a))).

(** An assigned value with more dimensions than its target loses leading
    dimensions of length 1. *)
Fixpoint strip_ones (n : nat) (shp : list nat) : list nat :=
  match shp with
  | 1%nat :: rest => if (n <? length shp)%nat then strip_ones n rest else shp
  | _ => shp
  end.

(** [a[k] = x] with [x] already converted to the type of [a]. *)
Definition np_setitem {A : Type} (d : A) (a : ndarray A) (k : Z) (x : ndarray A)
  : result (ndarray A) :=
  match shape a with
  | [] => Raise IndexError
  | n :: rest =>
      i <- py_index n k ;;
      vs <- broadcast_to d rest
              (NdArray (strip_ones (length rest) (shape x)) (elems x)) ;;
      let m := size_of rest in
      Ok (NdArray (shape a)
            (firstn (i * m) (elems a) ++ vs ++ skipn ((i + 1) * m) (elems a)))
  end.

(** [a += x] on an unsigned array of type [t]: the sum wraps. *)
Definition np_iadd (t : dtype) (a x : ndarray Z) : result (ndarray Z) :=
  xs <- broadcast_to 0 (shape a) x ;;
  Ok (NdArray (shape a) (zip_with (fun u v => wrap t (u + v)) (elems a) xs)).

(** *** Operations along one axis

    For an axis [ax] of an array of shape [pre ++ n :: post], the element
    at [(o, j, i)], with [o] over [pre] and [i] over [post], has flat index
    [(o * n + j) * inner + i]. *)

Definition axis_of (shp : list nat) (ax : nat) : nat := nth ax shp 0%nat.
Definition inner_of (shp : list nat) (ax : nat) : nat := size_of (skipn (S ax) shp).

(** The stop of a slice [:stop] on an axis of length [n]. *)
Definition slice_stop (n : nat) (stop : Z) : nat :=
  if stop <? 0 then Z.to_nat (Z.max 0 (Z.of_nat n + stop))
  else Nat.min (Z.to_nat stop) n.

(** [a[:, ..., :stop, ...]] with [nidx] index positions, the slice [:stop]
    at position [ax] and full slices elsewhere. *)
Definition np_slice {A : Type} (d : A) (nidx ax : nat) (stop : Z) (a : ndarray A)
  : result (ndarray A) :=
  if (ndim a <? nidx)%nat then Raise IndexError
  else
    let n := axis_of (shape a) ax in
    let inner := inner_of (shape a) ax in
    let m := slice_stop n stop in
    let shp := firstn ax (shape a) ++ m :: skipn (S ax) (shape a) in
    Ok (NdArray shp
          (gather d shp
             (fun idx => (idx / (m * inner) * (n * inner) + idx mod (m * inner))%nat)
             (elems a))).

Definition Qsum (l : list Q) : Q := fold_right Qplus 0%Q l.

(** [a.mean(axis=ax)] on floats. *)
Definition np_mean (ax : nat) (a : ndarray Q) : result (ndarray Q) :=
  if (ndim a <=? ax)%nat then Raise ValueError
  else
    let n := axis_of (shape a) ax in
    let inner := inner_of (shape a) ax in
    let shp := firstn ax (shape a) ++ skipn (S ax) (shape a) in
    if (n =? 0)%nat && negb (size_of shp =? 0)%nat then Raise NanValue
    else
      Ok (NdArray shp
            (map (fun idx =>
                    let o := (idx / inner)%nat in
                    let i := (idx mod inner)%nat in
                    (Qsum (map (fun j => nth ((o * n + j) * inner + i) (elems a) 0%Q)
                             (seq 0 n))
                     / inject_Z (Z.of_nat n))%Q)
               (seq 0 (size_of shp)))).

(** A complex array, as numpy keeps it: real and imaginary parts. *)
Record carray : Type := CArray { re : ndarray Q; im : ndarray Q }.

(* ================================================================== *)
(** ** The controllers

    The model covers a controller bound to a card: the four acquisition
    parameters are what the card reports, and the bit depth and the model
    come from its identification.  [trigger_func] is a callback into the
    experiment that does not touch the controller; the wall-clock values of
    [handling_times] are not modelled, only the length of that array. *)

Inductive variant : Set :=
| RawAcqCtl
| DemodCtl
| AvgBufCtl
| AvgRecCtl
| AvgDemodCtl
| AvgRecDemodCtl
| AvgIQCtl
| AvgRecIQCtl.

Record ctl : Type := Ctl {
  cls : variant;
  sample_rate : Q;
  samples_per_record : Z;
  records_per_buffer : Z;
  buffers_per_acquisition : Z;
  acq_time : option Q;
  demod_frq : option Q;
  number_of_channels : Z;
  _average_buffers : bool;
  _nbits : Z;
  _model : string;
  _buffer_order : string;
  _datadtype : dtype;
  do_allocate_data : bool;
  data : option (ndarray Z);
  tvals : option (list Q);
  buffer_shape : option (list Z);
  handling_times : option nat;
  period : option Z;
  demod_samples : option Z;
  demod_tvals : option (list Q);
  cosarr : option (ndarray Q);
  sinarr : option (ndarray Q)
}.

Definition MINSAMPLES : Z := 384.

(** *** Assignments to the attributes of [self] *)

(** [self.data = ...] *)
Definition set_data (c : ctl) (data' : option (ndarray Z)) : ctl :=
  {| cls := cls c;
     sample_rate := sample_rate c;
     samples_per_record := samples_per_record c;
     records_per_buffer := records_per_buffer c;
     buffers_per_acquisition := buffers_per_acquisition c;
     acq_time := acq_time c;
     demod_frq := demod_frq c;
     number_of_channels := number_of_channels c;
     _average_buffers := _average_buffers c;
     _nbits := _nbits c;
     _model := _model c;
     _buffer_order := _buffer_order c;
     _datadtype := _datadtype c;
     do_allocate_data := do_allocate_data c;
     data := data';
     tvals := tvals c;
     buffer_shape := buffer_shape c;
     handling_times := handling_times c;
     period := period c;
     demod_samples := demod_samples c;
     demod_tvals := demod_tvals c;
     cosarr := cosarr c;
     sinarr := sinarr c |}.

(** [self.tvals = ...] *)
Definition set_tvals (c : ctl) (tvals' : option (list Q)) : ctl :=
  {| cls := cls c;
     sample_rate := sample_rate c;
     samples_per_record := samples_per_record c;
     records_per_buffer := records_per_buffer c;
     buffers_per_acquisition := buffers_per_acquisition c;
     acq_time := acq_time c;
     demod_frq := demod_frq c;
     number_of_channels := number_of_channels c;
     _average_buffers := _average_buffers c;
     _nbits := _nbits c;
     _model := _model c;
     _buffer_order := _buffer_order c;
     _datadtype := _datadtype c;
     do_allocate_data := do_allocate_data c;
     data := data c;
     tvals := tvals';
     buffer_shape := buffer_shape c;
     handling_times := handling_times c;
     period := period c;
     demod_samples := demod_samples c;
     demod_tvals := demod_tvals c;
     cosarr := cosarr c;
     sinarr := sinarr c |}.

(** [self.buffer_shape = ...] *)
Definition set_buffer_shape (c : ctl) (buffer_shape' : option (list Z)) : ctl :=
  {| cls := cls c;
     sample_rate := sample_rate c;
     samples_per_record := samples_per_record c;
     records_per_buffer := records_per_buffer c;
     buffers_per_acquisition := buffers_per_acquisition c;
     acq_time := acq_time c;
     demod_frq := demod_frq c;
     number_of_channels := number_of_channels c;
     _average_buffers := _average_buffers c;
     _nbits := _nbits c;
     _model := _model c;
     _buffer_order := _buffer_order c;
     _datadtype := _datadtype c;
     do_allocate_data := do_allocate_data c;
     data := data c;
     tvals := tvals c;
     buffer_shape := buffer_shape';
     handling_times := handling_times c;
     period := period c;
     demod_samples := demod_samples c;
     demod_tvals := demod_tvals c;
     cosarr := cosarr c;
     sinarr := sinarr c |}.

(** [self.handling_times = ...] *)
Definition set_handling_times (c : ctl) (handling_times' : option nat) : ctl :=
  {| cls := cls c;
     sample_rate := sample_rate c;
     samples_per_record := samples_per_record c;
     records_per_buffer := records_per_buffer c;
     buffers_per_acquisition := buffers_per_acquisition c;
     acq_time := acq_time c;
     demod_frq := demod_frq c;
     number_of_channels := number_of_channels c;
     _average_buffers := _average_buffers c;
     _nbits := _nbits c;
     _model := _model c;
     _buffer_order := _buffer_order c;
     _datadtype := _datadtype c;
     do_allocate_data := do_allocate_data c;
     data := data c;
     tvals := tvals c;
     buffer_shape := buffer_shape c;
     handling_times := handling_times';
     period := period c;
     demod_samples := demod_samples c;
     demod_tvals := demod_tvals c;
     cosarr := cosarr c;
     sinarr := sinarr c |}.

(** [self.demod_frq(f)] *)
Definition set_demod_frq (c : ctl) (demod_frq' : option Q) : ctl :=
  {| cls := cls c;
     sample_rate := sample_rate c;
     samples_per_record := samples_per_record c;
     records_per_buffer := records_per_buffer c;
     buffers_per_acquisition := buffers_per_acquisition c;
     acq_time := acq_time c;
     demod_frq := demod_frq';
     number_of_channels := number_of_channels c;
     _average_buffers := _average_buffers c;
     _nbits := _nbits c;
     _model := _model c;
     _buffer_order := _buffer_order c;
     _datadtype := _datadtype c;
     do_allocate_data := do_allocate_data c;
     data := data c;
     tvals := tvals c;
     buffer_shape := buffer_shape c;
     handling_times := handling_times c;
     period := period c;
     demod_samples := demod_samples c;
     demod_tvals := demod_tvals c;
     cosarr := cosarr c;
     sinarr := sinarr c |}.


(** The attributes that [data_shape] of a demodulating controller sets. *)
Definition set_demod (c : ctl) (p ds : Z) (dt : list Q) (ca sa : ndarray Q) : ctl :=
  {| cls := cls c;
     sample_rate := sample_rate c;
     samples_per_record := samples_per_record c;
     records_per_buffer := records_per_buffer c;
     buffers_per_acquisition := buffers_per_acquisition c;
     acq_time := acq_time c;
     demod_frq := demod_frq c;
     number_of_channels := number_of_channels c;
     _average_buffers := _average_buffers c;
     _nbits := _nbits c;
     _model := _model c;
     _buffer_order := _buffer_order c;
     _datadtype := _datadtype c;
     do_allocate_data := do_allocate_data c;
     data := data c;
     tvals := tvals c;
     buffer_shape := buffer_shape c;
     handling_times := handling_times c;
     period := Some p;
     demod_samples := Some ds;
     demod_tvals := Some dt;
     cosarr := Some ca;
     sinarr := Some sa |}.

(** *** Construction *)

(** What [alz.IDN()] reports. *)
Record idn : Type := Idn { bits_per_sample : Z; idn_model : string }.

Definition averages_buffers (v : variant) : bool :=
  match v with
  | AvgBufCtl | AvgDemodCtl | AvgIQCtl => true
  | _ => false
  end.

Definition averages_records (v : variant) : bool :=
  match v with
  | AvgRecCtl | AvgRecDemodCtl | AvgRecIQCtl => true
  | _ => false
  end.

Definition demodulates (v : variant) : bool :=
  match v with
  | DemodCtl | AvgDemodCtl | AvgRecDemodCtl | AvgIQCtl | AvgRecIQCtl => true
  | _ => false
  end.

(** [__init__] of [BaseAcqCtl], followed by what the constructors of
    [AvgBufCtl] and [AvgRecCtl] add; [sr], [spr], [rpb] and [bpa] are the
    values the card reports for the four acquisition parameters. *)
Definition init (v : variant) (card : idn) (sr : Q) (spr rpb bpa : Z)
  : result ctl :=
  let nbits := bits_per_sample card in
  let order := if String.eqb (idn_model card) "ATS9870" then "bcrs"%string
               else "brsc"%string in
  dt <- (if nbits =? 8 then Ok uint8
         else if nbits =? 12 then Ok uint16
         else Raise ValueError) ;;
  let wide := averages_buffers v || averages_records v in
  let dt' := if wide
             then (if nbits =? 8 then uint16
                   else if nbits =? 12 then uint32 else dt)
             else dt in
  Ok {| cls := v;
        sample_rate := sr;
        samples_per_record := spr;
        records_per_buffer := rpb;
        buffers_per_acquisition := bpa;
        acq_time := None;
        demod_frq := None;
        number_of_channels := 2;
        _average_buffers := averages_buffers v;
        _nbits := nbits;
        _model := idn_model card;
        _buffer_order := order;
        _datadtype := dt';
        do_allocate_data := true;
        data := None;
        tvals := None;
        buffer_shape := None;
        handling_times := None;
        period := None;
        demod_samples := None;
        demod_tvals := None;
        cosarr := None;
        sinarr := None |}.

(** *** [time2samples]

    In exact arithmetic; [time2samples_binary64] below is the same
    function with the product and the quotient rounded as Python rounds
    them. *)

Definition time2samples (c : ctl) (t : Q) : result Z :=
  let nsamples_ideal := (t * sample_rate c)%Q in
  let nsamples := py_int (float_floordiv nsamples_ideal 128 * 128)%Q in
  if Qeq_bool (sample_rate c) 0 then Raise ZeroDivisionError
  else
    let nsamples :=
      if Qlt_bool (inject_Z nsamples / sample_rate c)%Q t
      then nsamples + 128 else nsamples in
    Ok (Z.max MINSAMPLES nsamples).

(** [update_acquisitionkwargs] for the key it computes: the record length
    that ends up in [acquisitionkwargs], given the one the caller passed, if
    any.  [self.acq_time()] is tested for truth, so a time of zero counts
    as unset. *)
Definition update_samples_per_record (c : ctl) (given : option Z)
  : result (option Z) :=
  match acq_time c, given with
  | Some t, None =>
      if Qeq_bool t 0 then Ok None
      else n <- time2samples c t ;; Ok (Some n)
  | _, _ => Ok given
  end.

(** *** Shapes, allocation and the buffer callback *)

Fixpoint every_nth {A : Type} (k i : nat) (l : list A) : list A :=
  match l with
  | [] => []
  | x :: l' =>
      if (i mod k =? 0)%nat then x :: every_nth k (S i) l'
      else every_nth k (S i) l'
  end.

(** [l[::step]] for a step that is not zero. *)
Definition py_stride {A : Type} (l : list A) (step : Z) : list A :=
  if 0 <? step then every_nth (Z.to_nat step) 0 l
  else every_nth (Z.to_nat (- step)) 0 (rev l).

(** What [post_acquire] returns. *)
Inductive output : Type :=
| Real (a : ndarray Q)
| Complex (a : carray).

(** What [process_buffer] returns: the buffer as it came, or a float mean. *)
Inductive processed : Type :=
| PInt (a : ndarray Z)
| PFloat (a : ndarray Q).

Section Controllers.

(** The trigonometric functions are parameters of the model:
    [cos2pi x] stands for [cos (2 * pi * x)] and [sin2pi x] for
    [sin (2 * pi * x)]. *)
Variables cos2pi sin2pi : Q -> Q.

(** The first five lines of [data_shape] of [DemodCtl], [AvgDemodCtl] and
    [AvgRecDemodCtl]; [four] tells whether the basis is reshaped to four
    dimensions, as [DemodCtl] does, or to three.  The period is taken in
    exact arithmetic; [period_binary64] below is the same expression with
    the quotient and the sum rounded as Python rounds them, which for a
    ratio of at most [2 ^ 51] is this period or the next integer. *)
Definition demod_setup (four : bool) (c : ctl) : result ctl :=
  df <- of_option TypeError (demod_frq c) ;;
  if Qeq_bool df 0 then Raise ZeroDivisionError
  else
    let p := py_int (sample_rate c / df + (1 # 2))%Q in
    ds <- py_floordiv (samples_per_record c) p ;;
    tv <- of_option TypeError (tvals c) ;;
    let strided := py_stride tv p in
    let dtv := firstn (slice_stop (length strided) ds) strided in
    let shp := if four then [1; 1; length tv; 1]%nat else [1; length tv; 1]%nat in
    let ca := NdArray shp (map (fun t => cos2pi (df * t)%Q) tv) in
    let sa := NdArray shp (map (fun t => sin2pi (df * t)%Q) tv) in
    Ok (set_demod c p ds dtv ca sa).

Definition get_demod_samples (c : ctl) : result Z :=
  of_option AttributeError (demod_samples c).

(** [data_shape], with the controller as it leaves it. *)
Definition data_shape (c : ctl) : result (list Z * ctl) :=
  match cls c with
  | RawAcqCtl =>
      let shp := [buffers_per_acquisition c; records_per_buffer c;
                  samples_per_record c; number_of_channels c] in
      if negb (_average_buffers c) then Ok (shp, c) else Ok (tl shp, c)
  | DemodCtl =>
      c' <- demod_setup true c ;;
      ds <- get_demod_samples c' ;;
      Ok ([buffers_per_acquisition c'; records_per_buffer c'; ds;
           number_of_channels c'], c')
  | AvgBufCtl =>
      Ok ([records_per_buffer c; samples_per_record c; number_of_channels c], c)
  | AvgRecCtl =>
      Ok ([buffers_per_acquisition c; samples_per_record c;
           number_of_channels c], c)
  | AvgDemodCtl =>
      c' <- demod_setup false c ;;
      ds <- get_demod_samples c' ;;
      Ok ([records_per_buffer c'; ds; number_of_channels c'], c')
  | AvgRecDemodCtl =>
      c' <- demod_setup false c ;;
      ds <- get_demod_samples c' ;;
      Ok ([records_per_buffer c'; ds; number_of_channels c'], c')
  | AvgIQCtl =>
      c' <- demod_setup false c ;;
      Ok ([records_per_buffer c'; number_of_channels c'], c')
  | AvgRecIQCtl =>
      c' <- demod_setup false c ;;
      Ok ([buffers_per_acquisition c'; number_of_channels c'], c')
  end.

Definition data_dims (c : ctl) : list string :=
  match cls c with
  | RawAcqCtl =>
      let dims := ["buffers"; "records"; "samples"; "channels"]%string in
      if negb (_average_buffers c) then dims else tl dims
  | DemodCtl => ["buffers"; "records"; "IF_periods"; "channels"]%string
  | AvgBufCtl => ["records"; "samples"; "channels"]%string
  | AvgRecCtl => ["buffers"; "samples"; "channels"]%string
  | AvgDemodCtl => ["records"; "IF_periods"; "channels"]%string
  | AvgRecDemodCtl => ["buffers"; "IF_periods"; "channels"]%string
  | AvgIQCtl => ["records"; "channels"]%string
  | AvgRecIQCtl => ["buffers"; "channels"]%string
  end.

(** [np.arange(n, dtype=np.float32) / sr]. *)
Definition time_axis (n : Z) (sr : Q) : list Q :=
  map (fun i => (inject_Z (Z.of_nat i) / sr)%Q) (seq 0 (Z.to_nat n)).

(** [allocate_data].  At a sample rate of zero numpy fills [tvals] with inf
    and nan, which [Q] cannot hold. *)
Definition allocate_data (c : ctl) : result ctl :=
  if Qeq_bool (sample_rate c) 0 then Raise NanValue
  else
    let c1 := set_tvals c (Some (time_axis (samples_per_record c) (sample_rate c))) in
    sc <- data_shape c1 ;;
    d <- np_zeros (fst sc) ;;
    Ok (set_data (snd sc) (Some d)).

(** [pre_start_capture] of [BaseAcqCtl]. *)
Definition base_pre_start_capture (c : ctl) : result ctl :=
  bs <- (if String.eqb (_buffer_order c) "brsc"
         then Ok [records_per_buffer c; samples_per_record c; number_of_channels c]
         else if String.eqb (_buffer_order c) "bcrs"
         then Ok [number_of_channels c; records_per_buffer c; samples_per_record c]
         else Raise ValueError) ;;
  let c1 := set_buffer_shape c (Some bs) in
  c2 <- (if do_allocate_data c1 then allocate_data c1 else Ok c1) ;;
  if buffers_per_acquisition c2 <? 0 then Raise ValueError
  else Ok (set_handling_times c2 (Some (Z.to_nat (buffers_per_acquisition c2)))).

(** [pre_start_capture], with the overrides of the demodulating classes. *)
Definition pre_start_capture (c : ctl) : result ctl :=
  c1 <- base_pre_start_capture c ;;
  match cls c1 with
  | DemodCtl =>
      d <- np_zeros [buffers_per_acquisition c1; records_per_buffer c1;
                     samples_per_record c1; number_of_channels c1] ;;
      Ok (set_data c1 (Some d))
  | AvgDemodCtl | AvgIQCtl =>
      d <- np_zeros [records_per_buffer c1; samples_per_record c1;
                     number_of_channels c1] ;;
      Ok (set_data c1 (Some d))
  | AvgRecDemodCtl | AvgRecIQCtl =>
      d <- np_zeros [buffers_per_acquisition c1; samples_per_record c1;
                     number_of_channels c1] ;;
      Ok (set_data c1 (Some d))
  | _ => Ok c1
  end.

(** [pre_acquire] only calls the trigger callback. *)
Definition pre_acquire (c : ctl) : ctl := c.

Definition process_buffer (c : ctl) (buf : ndarray Z) : result processed :=
  if averages_records (cls c)
  then m <- np_mean 0 (nd_map inject_Z buf) ;; Ok (PFloat m)
  else Ok (PInt buf).

(** The lines of [handle_buffer] that reinterpret the flat buffer. *)
Definition buffer_view (c : ctl) (raw : list Z) : result (ndarray Z) :=
  bs <- of_option AttributeError (buffer_shape c) ;;
  v <- np_reshape (NdArray [length raw] raw) bs ;;
  if String.eqb (_buffer_order c) "bcrs" then transpose_120 0 v else Ok v.

(** The value of [p] as the accumulator's type stores it. *)
Definition store_as (t : dtype) (p : processed) : ndarray Z :=
  match p with
  | PInt a => nd_map (wrap t) a
  | PFloat a => nd_map (fun q => wrap t (py_int q)) a
  end.

(** [self.handling_times[i] = ...]. *)
Definition touch_handling_time (c : ctl) (i : Z) : result ctl :=
  n <- of_option AttributeError (handling_times c) ;;
  _ <- py_index n i ;;
  Ok c.

Definition handle_buffer (c : ctl) (raw : list Z) (buffer_number : option Z)
  : result ctl :=
  v <- buffer_view c raw ;;
  match buffer_number, _average_buffers c with
  | Some k, false =>
      p <- process_buffer c v ;;
      acc <- of_option TypeError (data c) ;;
      acc' <- np_setitem 0 acc k (store_as (_datadtype c) p) ;;
      touch_handling_time (set_data c (Some acc')) k
  | _, _ =>
      p <- process_buffer c v ;;
      acc <- of_option TypeError (data c) ;;
      acc' <- match p with
              | PInt x => np_iadd (_datadtype c) acc x
              | PFloat _ => Raise TypeError
              end ;;
      touch_handling_time (set_data c (Some acc')) 0
  end.

(** *** Finalisation *)

(** [post_acquire] of [BaseAcqCtl]. *)
Definition base_post_acquire (c : ctl) : option (ndarray Z) := data c.

(** One sample as [RawAcqCtl], [AvgBufCtl] and [AvgRecCtl] return it. *)
Definition normalize_sample (nbits : Z) (v : Z) : Q :=
  (inject_Z (if nbits =? 12 then Z.shiftr v 4 else v) / inject_Z (2 ^ nbits)
   - (1 # 2))%Q.

(** [post_acquire] of [RawAcqCtl], [AvgBufCtl] and [AvgRecCtl], and the
    first three lines of that of [DemodCtl]. *)
Definition normalized (c : ctl) : result (ndarray Q) :=
  d <- of_option (if _nbits c =? 12 then TypeError else AttributeError)
         (base_post_acquire c) ;;
  Ok (nd_map (normalize_sample (_nbits c)) d).

(** [(data * 2 * basis)[..., :ds*period, :].reshape(newshape).mean(axis=-2)];
    the index has [nidx] positions and the slice is the one before the
    last. *)
Definition demod_part (c : ctl) (nidx : nat) (newshape : list Z)
  (basis : ndarray Q) (x : ndarray Q) : result (ndarray Q) :=
  ds <- of_option AttributeError (demod_samples c) ;;
  p <- of_option AttributeError (period c) ;;
  pr <- np_binop 0%Q 0%Q Qmult (nd_map (fun v => (v * 2)%Q) x) basis ;;
  sl <- np_slice 0%Q nidx (nidx - 2) (ds * p) pr ;;
  r <- np_reshape sl newshape ;;
  if (ndim r <? 2)%nat then Raise ValueError
  else np_mean (ndim r - 2) r.

Definition demodulated (c : ctl) (nidx : nat) (lead : list Z) (x : ndarray Q)
  : result carray :=
  ca <- of_option AttributeError (cosarr c) ;;
  ds <- of_option AttributeError (demod_samples c) ;;
  p <- of_option AttributeError (period c) ;;
  let newshape := lead ++ [-1; ds; p; number_of_channels c] in
  real <- demod_part c nidx newshape ca x ;;
  sa <- of_option AttributeError (sinarr c) ;;
  imag <- demod_part c nidx newshape sa x ;;
  _ <- broadcast_shapes (shape real) (shape imag) ;;
  Ok (CArray real imag).

Definition cmean (ax : nat) (z : carray) : result carray :=
  r <- np_mean ax (re z) ;;
  i <- np_mean ax (im z) ;;
  Ok (CArray r i).

Definition post_acquire (c : ctl) : result output :=
  match cls c with
  | RawAcqCtl | AvgBufCtl | AvgRecCtl =>
      x <- normalized c ;; Ok (Real x)
  | DemodCtl =>
      x <- normalized c ;;
      z <- demodulated c 4 [buffers_per_acquisition c] x ;;
      Ok (Complex z)
  | AvgDemodCtl | AvgRecDemodCtl =>
      x <- normalized c ;;
      z <- demodulated c 3 [] x ;;
      Ok (Complex z)
  | AvgIQCtl | AvgRecIQCtl =>
      x <- normalized c ;;
      z <- demodulated c 3 [] x ;;
      m <- cmean 1 z ;;
      Ok (Complex m)
  end.

(** *** A whole acquisition *)

(** The driver's [acquire], which belongs to qcodes and not to this
    repository, as the specification describes its contract: it runs the
    hooks in order, pre-start, pre-acquire, the buffer callback once per
    completed buffer with the buffer's index, in increasing order, and
    post-acquire, whose value it returns. *)
Fixpoint deliver (c : ctl) (i : Z) (bufs : list (list Z)) : result ctl :=
  match bufs with
  | [] => Ok c
  | b :: rest => c' <- handle_buffer c b (Some i) ;; deliver c' (i + 1) rest
  end.

Definition acquire (c : ctl) (bufs : list (list Z)) : result output :=
  c1 <- pre_start_capture c ;;
  c2 <- deliver (pre_acquire c1) 0 bufs ;;
  post_acquire c2.

End Controllers.

(* ================================================================== *)
(** ** Definitions used to state the properties *)

(** The attributes and parameters that only the constructor and the user
    set. *)
Definition config (c : ctl) :=
  (cls c, sample_rate c, samples_per_record c, records_per_buffer c,
   buffers_per_acquisition c, demod_frq c, number_of_channels c,
   _average_buffers c, _nbits c, _buffer_order c, _datadtype c,
   do_allocate_data c).

(** The physical shape of a buffer for the ordering of [c], if the
    ordering is a known one. *)
Definition physical_shape (c : ctl) : option (list Z) :=
  if String.eqb (_buffer_order c) "brsc"
  then Some [records_per_buffer c; samples_per_record c; number_of_channels c]
  else if String.eqb (_buffer_order c) "bcrs"
  then Some [number_of_channels c; records_per_buffer c; samples_per_record c]
  else None.


(** What [data_shape] of a demodulating controller leaves in the
    controller, with the time axis it is computed from. *)
Definition demod_state (c : ctl) :=
  (period c, demod_samples c, cosarr c, sinarr c, tvals c).

(** The position of the IF_periods axis in [data_shape], for the classes
    whose output has one. *)
Definition if_axis (v : variant) : option nat :=
  match v with
  | DemodCtl => Some 2%nat
  | AvgDemodCtl | AvgRecDemodCtl => Some 1%nat
  | _ => None
  end.

(** The number of dimensions of the basis arrays of a demodulating class:
    [DemodCtl] keeps the buffer axis, the others do not. *)
Definition basis_ndim (v : variant) : nat :=
  match v with
  | DemodCtl => 4%nat
  | _ => 3%nat
  end.

Definition out_shape (o : output) : list nat :=
  match o with
  | Real a => shape a
  | Complex z => shape (re z)
  end.

(** The shapes of the arrays that make up an output: one for a real
    array, those of the real and of the imaginary part for a complex one. *)
Definition out_shapes (o : output) : list (list nat) :=
  match o with
  | Real a => [shape a]
  | Complex z => [shape (re z); shape (im z)]
  end.

(** *** The normalisation in binary32

    [RawAcqCtl.post_acquire] and its siblings compute in numpy's float32.
    The operations of that format, from the Standard Library's
    specification of IEEE 754 arithmetic with 24 bits of precision, serve
    to check the rational model above against the rounded computation. *)
Module Binary32.
Definition prec : Z := 24.
Definition emax : Z := 128.
Definition of_Z (v : Z) : spec_float := binary_normalize prec emax v 0 false.
Definition half : spec_float := binary_normalize prec emax 1 (-1) false.
Definition div : spec_float -> spec_float -> spec_float := SFdiv prec emax.
Definition sub : spec_float -> spec_float -> spec_float := SFsub prec emax.
Definition to_Q (x : spec_float) : option Q :=
  match x with
  | S754_zero _ => Some 0%Q
  | S754_finite s m e => Some (inject_Z (cond_Zopp s (Zpos m)) * 2 ^ e)%Q
  | _ => None
  end.
End Binary32.

(** [(w.astype(np.float32) / 2**nbits) - 0.5] on one sample [w], shifted
    already when the card has 12 bits. *)
Definition scaled_f32 (nbits w : Z) : spec_float :=
  Binary32.sub (Binary32.div (Binary32.of_Z w) (Binary32.of_Z (2 ^ nbits)))
    Binary32.half.

Definition normalize_sample_f32 (nbits v : Z) : spec_float :=
  scaled_f32 nbits (if nbits =? 12 then Z.shiftr v 4 else v).

(** Whether binary32 gives the value of the rational model on [w]. *)
Definition exact_on (nbits w : Z) : bool :=
  match Binary32.to_Q (scaled_f32 nbits w) with
  | Some q => Qeq_bool q (inject_Z w / inject_Z (2 ^ nbits) - (1 # 2))
  | None => false
  end.

Fixpoint exact_from (nbits : Z) (n : nat) (v : Z) : bool :=
  match n with
  | O => true
  | S n' => exact_on nbits v && exact_from nbits n' (v + 1)
  end.

(* ================================================================== *)
(** ** Concrete inputs *)

(** [cos (2 * pi * x)] and [sin (2 * pi * x)] at the quarter turns, where
    they are rational; any other argument is first rounded down to a
    quarter turn. *)
Definition cos2pi_quarter (x : Q) : Q :=
  match Qfloor (x * 4) mod 4 with
  | 0 => 1%Q
  | 2 => (-1)%Q
  | _ => 0%Q
  end.

Definition sin2pi_quarter (x : Q) : Q :=
  match Qfloor (x * 4) mod 4 with
  | 1 => 1%Q
  | 3 => (-1)%Q
  | _ => 0%Q
  end.

Definition ats9360 : idn := Idn 12 "ATS9360".

(** A controller of class [v] on a 12-bit card, with the demodulation
    frequency set. *)
Definition controller (v : variant) (sr : Q) (spr rpb bpa : Z) (df : Q)
  : result ctl :=
  c <- init v ats9360 sr spr rpb bpa ;;
  Ok (set_demod_frq c (Some df)).

(** A 8-bit card whose buffers come channel-major, two records of three
    samples, and one buffer of it numbered in the order of arrival. *)
Definition bcrs_controller : result ctl :=
  init RawAcqCtl (Idn 8 "ATS9870") 1000000000 3 2 1.

Definition raw_0_to_11 : list Z := [0; 1; 2; 3; 4; 5; 6; 7; 8; 9; 10; 11].

(** Controllers on the 12-bit card after [pre_start_capture]: one record of
    two samples per buffer, two buffers per acquisition. *)
Definition started (v : variant) : result ctl :=
  c <- init v ats9360 1000000000 2 1 2 ;;
  pre_start_capture cos2pi_quarter sin2pi_quarter c.

(** A buffer of that geometry: the samples of the two channels interleaved,
    the first sample of the first channel at full scale. *)
Definition full_scale_buffer : list Z := [65520; 16; 32; 48].

(** Two buffers for one record of two samples, the first holding the
    value 0xFFF in the first sample of the first channel. *)
Definition buffers_0xFFF : list (list Z) := [[4095; 0; 0; 0]; [0; 0; 0; 0]].

(** An acquisition of class [v] on the 12-bit card at 1 GS/s with records
    of [spr] samples, [rpb] records per buffer and [bpa] buffers,
    demodulated at [df]. *)
Definition acquisition (v : variant) (spr rpb bpa : Z) (df : Q)
  (bufs : list (list Z)) : result output :=
  c <- controller v 1000000000 spr rpb bpa df ;;
  acquire cos2pi_quarter sin2pi_quarter c bufs.

(** One record of four samples on two channels: the first channel goes
    through full scale, mid scale, zero and mid scale, one period at a
    quarter of the sample rate, and the second channel stays at mid
    scale. *)
Definition one_period : list Z :=
  [65520; 32768; 32768; 32768; 0; 32768; 32768; 32768].

(** The mean over the first axis of what [DemodCtl] returns. *)
Definition mean_over_buffers (o : output) : result carray :=
  match o with
  | Complex z => cmean 0 z
  | Real a => Raise TypeError
  end.

(** A record-averaging, demodulating controller with three records per
    buffer and five buffers per acquisition, after [pre_start_capture], and
    five buffers of zeros for it. *)
Definition avg_rec_demod_started : result ctl :=
  c <- controller AvgRecDemodCtl 1000000000 8 3 5 250000000 ;;
  pre_start_capture cos2pi_quarter sin2pi_quarter c.

Definition five_zero_buffers : list (list Z) := repeat (repeat 0 48%nat) 5%nat.


(* ================================================================== *)
(** ** [update_acquisitionkwargs]

    [acquisitionkwargs] is a dict from keyword to value that the controller
    hands to the driver.  It is kept beside the controller record, as an
    association list with one entry per key, in the order in which the
    keys were first set; the values are of any type
    [V], into which [of_int] takes the sample count that [time2samples]
    returns. *)

Section Kwargs.
Variable V : Type.
Variable of_int : Z -> V.

Definition dict : Type := list (string * V).

Fixpoint dict_get (k : string) (d : dict) : option V :=
  match d with
  | [] => None
  | (k', v) :: d' => if String.eqb k k' then Some v else dict_get k d'
  end.

(** [k in d]. *)
Definition dict_mem (k : string) (d : dict) : bool :=
  match dict_get k d with
  | Some _ => true
  | None => false
  end.

(** [d[k] = v]. *)
Fixpoint dict_set (k : string) (v : V) (d : dict) : dict :=
  match d with
  | [] => [(k, v)]
  | (k', v') :: d' =>
      if String.eqb k k' then (k, v) :: d' else (k', v') :: dict_set k v d'
  end.

(** [d.update] with the keywords [new], set one after the other. *)
Definition dict_update (d new : dict) : dict :=
  fold_left (fun acc kv => dict_set (fst kv) (snd kv) acc) new d.

(** [update_acquisitionkwargs] with the keywords [kwargs]: the new value
    of [self.acquisitionkwargs], whose old value is [old]. *)
Definition update_acquisitionkwargs (c : ctl) (old kwargs : dict) : result dict :=
  kwargs' <- (match acq_time c with
              | Some t =>
                  if negb (Qeq_bool t 0) && negb (dict_mem "samples_per_record" kwargs)
                  then n <- time2samples c t ;;
                       Ok (dict_set "samples_per_record" (of_int n) kwargs)
                  else Ok kwargs
              | None => Ok kwargs
              end) ;;
  Ok (dict_update old kwargs').

End Kwargs.
Arguments dict_get {V} k d.
Arguments dict_mem {V} k d.
Arguments dict_set {V} k v d.
Arguments dict_update {V} d new.
Arguments update_acquisitionkwargs {V} of_int c old kwargs.

(* ================================================================== *)
(** ** Definitions used to state the further properties *)

(** The shape of the array that [pre_start_capture] leaves in
    [self.data], by class. *)
Definition accumulator_shape (c : ctl) : list Z :=
  match cls c with
  | RawAcqCtl =>
      if negb (_average_buffers c)
      then [buffers_per_acquisition c; records_per_buffer c;
            samples_per_record c; number_of_channels c]
      else [records_per_buffer c; samples_per_record c; number_of_channels c]
  | DemodCtl =>
      [buffers_per_acquisition c; records_per_buffer c;
       samples_per_record c; number_of_channels c]
  | AvgBufCtl | AvgDemodCtl | AvgIQCtl =>
      [records_per_buffer c; samples_per_record c; number_of_channels c]
  | AvgRecCtl | AvgRecDemodCtl | AvgRecIQCtl =>
      [buffers_per_acquisition c; samples_per_record c; number_of_channels c]
  end.

(** The sum over the arrays [vs] of their elements at flat index [j]. *)
Definition column_sum (vs : list (ndarray Z)) (j : nat) : Z :=
  fold_right Z.add 0 (map (fun v => nth j (elems v) 0) vs).

(** The sum over the [R] records of a buffer with elements [xs], each
    record of [inner] elements, of the elements at position [j] of the
    record. *)
Definition record_sum (R inner : nat) (xs : list Z) (j : nat) : Z :=
  fold_right Z.add 0 (map (fun r => nth (r * inner + j) xs 0) (seq 0 R)).


(* ================================================================== *)
(** ** [_DataExtractor.__getitem__]

    The data of a run, as [get_data_by_id] of qcodes returns it, is a list
    with one entry per dependent parameter; each entry lists the
    parameter and those it depends on, each with its name and its data. *)

(** [s.split(",")]. *)
Fixpoint split_comma (s : string) : list string :=
  match s with
  | EmptyString => [EmptyString]
  | String ch rest =>
      if Ascii.eqb ch ","%char then EmptyString :: split_comma rest
      else match split_comma rest with
           | h :: t => String ch h :: t
           | [] => [String ch EmptyString]
           end
  end.

Fixpoint insert_sorted (x : string) (l : list string) : list string :=
  match l with
  | [] => [x]
  | y :: l' => if String.leb x y then x :: l else y :: insert_sorted x l'
  end.

(** [sorted(l)] on strings, which Python compares character by
    character. *)
Definition sorted (l : list string) : list string :=
  fold_right insert_sorted [] l.

(** [is_subset]: [smaller == larger[:len(smaller)]]. *)
Definition is_subset (smaller larger : list string) : bool :=
  if list_eq_dec string_dec smaller (firstn (length smaller) larger)
  then true else false.

(** [np.flatnonzero(i)], counting from [k]. *)
Fixpoint flatnonzero (i : list bool) (k : nat) : list nat :=
  match i with
  | [] => []
  | b :: i' => if b then k :: flatnonzero i' (S k) else flatnonzero i' (S k)
  end.

Section Extractor.
Variable D : Type.

(** One entry of the data of a run: [(d["name"], d["data"])] for each
    [d]. *)
Definition dataset : Type := list (string * D).

Definition getitem (all_data : list dataset) (layout : string)
  : result (dict D) :=
  let layout := sorted (split_comma layout) in
  let data_layouts := map (fun ad => sorted (map fst ad)) all_data in
  let i := map (is_subset layout) data_layouts in
  match flatnonzero i 0 with
  | [] => Raise ValueError
  | i0 :: _ =>
      data <- of_option IndexError (nth_error all_data i0) ;;
      Ok (dict_update [] data)
  end.

End Extractor.
Arguments getitem {D} all_data layout.

(** The data of a run with two dependent parameters [y] and [z], each
    measured against [x]. *)
Definition two_entries : list (dataset Z) :=
  [[("x", 1); ("y", 2)]; [("x", 1); ("z", 3)]]%string.


(* ================================================================== *)
(** ** Arithmetic in binary64

    Python's [float] is the binary64 format of IEEE 754: a product, a
    quotient or a sum of two floats is the exact result rounded to the
    nearest number with 53 significant bits, ties going to the even one,
    with gradual underflow, and infinite when it lies beyond the largest
    float.  A finite float is modelled by its value in [Q]. *)
Module Binary64.

Definition pow2 (e : Z) : Q := (2 ^ e)%Q.

(** [floor (log2 x)] for a positive [x]. *)
Definition ilog2 (x : Q) : Z :=
  let k := Z.log2 (Qnum x) - Z.log2 (Zpos (Qden x)) in
  if Qle_bool (pow2 k) x then k else k - 1.

(** Rounding to the nearest integer, ties to even. *)
Definition rne (x : Q) : Z :=
  let f := Qfloor x in
  match (x - inject_Z f ?= 1 # 2)%Q with
  | Lt => f
  | Gt => f + 1
  | Eq => if Z.even f then f else f + 1
  end.

(** The exponent of the unit in the last place of a positive [x]. *)
Definition ulp_exp (x : Q) : Z := Z.max (ilog2 x - 52) (-1074).

Definition round_pos (x : Q) : Q :=
  (inject_Z (rne (x / pow2 (ulp_exp x))) * pow2 (ulp_exp x))%Q.

(** The rounding of a real result, before overflow is looked at. *)
Definition round (x : Q) : Q :=
  match (x ?= 0)%Q with
  | Eq => 0%Q
  | Gt => round_pos x
  | Lt => (- round_pos (- x))%Q
  end.

(** The result of an operation on finite floats: a finite float, or an
    infinity with its sign. *)
Inductive value : Type :=
| Fin (q : Q)
| Inf (negative : bool).

Definition of_Q (x : Q) : value :=
  let r := round x in
  if Qle_bool (pow2 1024) r then Inf false
  else if Qle_bool r (- pow2 1024)%Q then Inf true
  else Fin r.

Definition mul (x y : Q) : value := of_Q (x * y)%Q.
Definition add (x y : Q) : value := of_Q (x + y)%Q.
(** [x / y] for a divisor that is not zero. *)
Definition div (x y : Q) : value := of_Q (x / y)%Q.

(** [v < t] for a finite [t]. *)
Definition ltb (v : value) (t : Q) : bool :=
  match v with
  | Fin q => Qlt_bool q t
  | Inf negative => negative
  end.

(** The same operations in the Standard Library's specification of
    IEEE 754, at 53 bits, to compare [of_Q] with; [sf m e] is the float
    [m * 2 ^ e]. *)
Definition prec : Z := 53.
Definition emax : Z := 1024.
Definition sf (m e : Z) : spec_float := binary_normalize prec emax m e false.

Definition agrees (v : value) (x : spec_float) : bool :=
  match v, x with
  | Fin q, S754_zero _ => Qeq_bool q 0
  | Fin q, S754_finite s m e =>
      Qeq_bool q (inject_Z (cond_Zopp s (Zpos m)) * 2 ^ e)%Q
  | Inf negative, S754_infinity s => Bool.eqb negative s
  | _, _ => false
  end.

End Binary64.

(** Whether [x] is a finite float. *)
Definition is_float (x : Q) : bool :=
  match Binary64.of_Q x with
  | Binary64.Fin r => Qeq_bool r x
  | Binary64.Inf _ => false
  end.

(** [time2samples] as Python computes it, for a float [t] and a sample
    rate that is a float or an int:
    [nsamples_ideal = t * sample_rate] is a float product;
    [nsamples_ideal // 128 * 128] is exact on a finite float, and nan on
    an infinite one, which [int] refuses with [ValueError];
    [nsamples / sample_rate] is a float quotient, compared with [t]. *)
Definition time2samples_binary64 (c : ctl) (t : Q) : result Z :=
  match Binary64.mul t (sample_rate c) with
  | Binary64.Inf _ => Raise ValueError
  | Binary64.Fin nsamples_ideal =>
      let nsamples := Qfloor (nsamples_ideal / 128) * 128 in
      if Qeq_bool (sample_rate c) 0 then Raise ZeroDivisionError
      else
        let nsamples :=
          if Binary64.ltb (Binary64.div (inject_Z nsamples) (sample_rate c)) t
          then nsamples + 128 else nsamples in
        Ok (Z.max MINSAMPLES nsamples)
  end.

(** [int(sample_rate / demod_frq + 0.5)] as Python computes it: a float
    quotient, a float sum, and the truncation, which refuses an infinity
    with [OverflowError]. *)
Definition period_binary64 (sr df : Q) : result Z :=
  if Qeq_bool df 0 then Raise ZeroDivisionError
  else
    match Binary64.div sr df with
    | Binary64.Inf _ => Raise OverflowError
    | Binary64.Fin q =>
        match Binary64.add q (1 # 2) with
        | Binary64.Inf _ => Raise OverflowError
        | Binary64.Fin s => Ok (py_int s)
        end
    end.

(** The first two lines of [data_shape] of a demodulating class: the
    period and the number of whole periods in a record. *)
Definition period_and_demod_samples (sr df : Q) (spr : Z) : result (Z * Z) :=
  p <- period_binary64 sr df ;;
  ds <- py_floordiv spr p ;;
  Ok (p, ds).

(** The float nearest to 1.024e-06, which lies above it, and a
    controller on the 12-bit card at 1 GS/s. *)
Definition t_1024ns : Q := 4835703278458517 # 4722366482869645213696.

Definition raw_1GHz : result ctl := init RawAcqCtl ats9360 1000000000 2 1 2.

(** The float nearest to 1e9 / 3.5: the quotient of 1e9 by it lies below
    3.5 and rounds to 3.5. *)
Definition df_near_tie : Q := 2396745142857143 # 8388608.

(** A record-averaging controller on the 12-bit card after
    [pre_start_capture], two records of two samples per buffer, and a
    buffer of it whose two records differ by one in two places. *)
Definition avg_rec_started : result ctl :=
  c <- init AvgRecCtl ats9360 1000000000 2 2 2 ;;
  pre_start_capture cos2pi_quarter sin2pi_quarter c.

Definition two_records : list Z := [1; 10; 100; 1000; 2; 20; 200; 2001].

(* ================================================================== *)
(** * Properties *)

(** ** Python numbers and [time2samples] *)


Lemma py_int_comp (x y : Q) : (x == y)%Q -> py_int x = py_int y.
Proof.
  intro E. unfold py_int.
  assert (Qle_bool 0 x = Qle_bool 0 y) as ->.
  { destruct (Qle_bool 0 x) eqn:Ex, (Qle_bool 0 y) eqn:Ey; try reflexivity.
    - apply Qle_bool_iff in Ex. rewrite E in Ex. apply Qle_bool_iff in Ex. congruence.
    - apply Qle_bool_iff in Ey. rewrite <- E in Ey. apply Qle_bool_iff in Ey. congruence. }
  destruct (Qle_bool 0 y).
  - now apply Qfloor_comp.
  - now apply Qceiling_comp.
Qed.

Lemma Qlt_bool_iff (x y : Q) : Qlt_bool x y = true <-> (x < y)%Q.
Proof.
  unfold Qlt_bool. rewrite negb_true_iff.
  split; intro H.
  - apply Qnot_le_lt. intro L. apply Qle_bool_iff in L. congruence.
  - destruct (Qle_bool y x) eqn:E; [|reflexivity].
    apply Qle_bool_iff in E. exfalso. apply (Qlt_not_le _ _ H E).
Qed.


Lemma Qeq_bool_pos (x : Q) : (0 < x)%Q -> Qeq_bool x 0 = false.
Proof.
  intro H. destruct (Qeq_bool x 0) eqn:E; [|reflexivity].
  apply Qeq_bool_iff in E. lra.
Qed.

(** The multiple of 128 that [time2samples] starts from. *)
Lemma floor128_bounds (x : Q) :
  let n0 := Qfloor (x / 128) * 128 in
  (inject_Z n0 <= x)%Q /\ (x < inject_Z n0 + 128)%Q.
Proof.
  intro n0. subst n0.
  pose proof (Qfloor_le (x / 128)) as L.
  pose proof (Qlt_floor (x / 128)) as U.
  rewrite inject_Z_plus in U.
  rewrite inject_Z_mult.
  change (inject_Z 128) with 128%Q. change (inject_Z 1) with 1%Q in U.
  set (k := inject_Z (Qfloor (x / 128))) in *.
  assert (E : (x == x / 128 * 128)%Q) by field.
  split; lra.
Qed.



Lemma inject_Z_lt (a b : Z) : (inject_Z a < inject_Z b)%Q -> a < b.
Proof. intro H. now rewrite <- Zlt_Qlt in H. Qed.


(** ** The period of the demodulation *)

Lemma py_int_nonneg (x : Q) : (0 <= x)%Q -> py_int x = Qfloor x.
Proof.
  intro H. unfold py_int. apply Qle_bool_iff in H. now rewrite H.
Qed.

Lemma Qdiv_pos (a b : Q) : (0 < a)%Q -> (0 < b)%Q -> (0 < a / b)%Q.
Proof.
  intros Ha Hb. apply Qlt_shift_div_l; [assumption|]. lra.
Qed.


Section Demod.
Variables cos2pi sin2pi : Q -> Q.

Lemma demod_setup_ok (four : bool) (c : ctl) (df : Q) (tv : list Q) :
  demod_frq c = Some df -> tvals c = Some tv -> (0 < df)%Q ->
  let p := py_int (sample_rate c / df + (1 # 2)) in
  p <> 0 ->
  exists c', demod_setup cos2pi sin2pi four c = Ok c' /\
    period c' = Some p /\
    demod_samples c' = Some (samples_per_record c / p) /\
    cls c' = cls c /\ number_of_channels c' = number_of_channels c /\
    records_per_buffer c' = records_per_buffer c /\
    buffers_per_acquisition c' = buffers_per_acquisition c.
Proof.
  intros Hdf Htv Hpos p Hp. unfold demod_setup. rewrite Hdf, Htv. cbn [of_option bind].
  rewrite (Qeq_bool_pos _ Hpos). fold p. unfold py_floordiv.
  destruct (Z.eqb_spec p 0) as [E|_]; [contradiction|]. cbn [bind].
  eexists. split; [reflexivity|]. cbn. repeat split; reflexivity.
Qed.


End Demod.

(* ================================================================== *)
(** ** What the hooks leave unchanged *)

Lemma config_fields (c c' : ctl) :
  config c' = config c ->
  cls c' = cls c /\ sample_rate c' = sample_rate c /\
  samples_per_record c' = samples_per_record c /\
  records_per_buffer c' = records_per_buffer c /\
  buffers_per_acquisition c' = buffers_per_acquisition c /\
  demod_frq c' = demod_frq c /\
  number_of_channels c' = number_of_channels c /\
  _average_buffers c' = _average_buffers c /\ _nbits c' = _nbits c /\
  _buffer_order c' = _buffer_order c /\ _datadtype c' = _datadtype c /\
  do_allocate_data c' = do_allocate_data c.
Proof.
  unfold config. intro H. injection H as -> -> -> -> -> -> -> -> -> -> -> ->.
  repeat split.
Qed.

Ltac bind_inv H :=
  match type of H with
  | bind ?r _ = Ok _ =>
      let E := fresh "E" in
      destruct r eqn:E; cbn [bind] in H; [|discriminate H]
  end.

Section Frames.
Variables cos2pi sin2pi : Q -> Q.

Lemma demod_setup_config (four : bool) (c c' : ctl) :
  demod_setup cos2pi sin2pi four c = Ok c' ->
  config c' = config c /\ buffer_shape c' = buffer_shape c /\
  data c' = data c /\ handling_times c' = handling_times c /\
  tvals c' = tvals c.
Proof.
  unfold demod_setup. intro H.
  bind_inv H. destruct (Qeq_bool a 0); [discriminate H|].
  bind_inv H. bind_inv H. injection H as <-. repeat split.
Qed.

Lemma data_shape_config (c c' : ctl) (shp : list Z) :
  data_shape cos2pi sin2pi c = Ok (shp, c') ->
  config c' = config c /\ buffer_shape c' = buffer_shape c /\
  data c' = data c /\ handling_times c' = handling_times c /\
  tvals c' = tvals c.
Proof.
  unfold data_shape. intro H.
  destruct (cls c);
    first
      [ destruct (negb (_average_buffers c)); injection H as <- <-; repeat split
      | injection H as <- <-; repeat split
      | bind_inv H; apply demod_setup_config in E; try bind_inv H;
        injection H as <- <-; exact E ].
Qed.

Lemma allocate_data_config (c c' : ctl) :
  allocate_data cos2pi sin2pi c = Ok c' ->
  config c' = config c /\ buffer_shape c' = buffer_shape c /\
  handling_times c' = handling_times c.
Proof.
  unfold allocate_data. intro H.
  destruct (Qeq_bool (sample_rate c) 0); [discriminate H|].
  bind_inv H. destruct a as [shp c1]. apply data_shape_config in E.
  bind_inv H. injection H as <-.
  destruct E as (E1 & E2 & _ & E4 & _).
  split; [exact E1|]. split; [exact E2|exact E4].
Qed.

Lemma base_pre_start_capture_config (c c' : ctl) :
  base_pre_start_capture cos2pi sin2pi c = Ok c' ->
  config c' = config c /\ buffer_shape c' = physical_shape c /\
  handling_times c' = Some (Z.to_nat (buffers_per_acquisition c)) /\
  0 <= buffers_per_acquisition c.
Proof.
  unfold base_pre_start_capture, physical_shape. intro H.
  bind_inv H.
  assert (Ea : (if (_buffer_order c =? "brsc")%string
                then Some [records_per_buffer c; samples_per_record c; number_of_channels c]
                else if (_buffer_order c =? "bcrs")%string
                then Some [number_of_channels c; records_per_buffer c; samples_per_record c]
                else None) = Some a).
  { destruct (_buffer_order c =? "brsc")%string; [congruence|].
    destruct (_buffer_order c =? "bcrs")%string; [congruence|discriminate E]. }
  rewrite Ea. clear E Ea.
  bind_inv H.
  assert (F : config a0 = config c /\ buffer_shape a0 = Some a /\
              handling_times a0 = handling_times c).
  { cbn [do_allocate_data set_buffer_shape] in E.
    destruct (do_allocate_data c).
    - apply allocate_data_config in E. exact E.
    - injection E as <-. repeat split. }
  clear E. destruct F as (F1 & F2 & F3).
  destruct (Z.ltb_spec (buffers_per_acquisition a0) 0) as [|Hb]; [discriminate H|].
  injection H as <-. cbn.
  apply config_fields in F1 as F1'.
  destruct F1' as (_ & _ & _ & _ & Eb & _). rewrite Eb in Hb.
  change (config (set_handling_times a0 (Some (Z.to_nat (buffers_per_acquisition a0))))) with (config a0).
  rewrite Eb. repeat split; assumption.
Qed.

Lemma pre_start_capture_config (c c' : ctl) :
  pre_start_capture cos2pi sin2pi c = Ok c' ->
  config c' = config c /\ buffer_shape c' = physical_shape c /\
  handling_times c' = Some (Z.to_nat (buffers_per_acquisition c)) /\
  0 <= buffers_per_acquisition c.
Proof.
  unfold pre_start_capture. intro H. bind_inv H.
  apply base_pre_start_capture_config in E.
  destruct (cls a); first [ injection H as <-; exact E
                          | bind_inv H; injection H as <-; exact E ].
Qed.

End Frames.

(* ================================================================== *)
(** ** Reinterpreting the flat buffer *)

Lemma gather_nth {A : Type} (d : A) (shp : list nat) (src : nat -> nat)
  (xs : list A) (i : nat) :
  (i < size_of shp)%nat ->
  nth i (gather d shp src xs) d = nth (src i) xs d.
Proof.
  intro H. unfold gather.
  rewrite (nth_indep _ d (nth (src 0%nat) xs d))
    by (rewrite length_map, length_seq; exact H).
  rewrite (map_nth (fun i => nth (src i) xs d)).
  rewrite seq_nth by exact H. reflexivity.
Qed.

(** Row-major coordinates of a flat index in an array of shape
    [[n1; n2; n0]]. *)
Lemma unravel3 (n2 n0 i j k : nat) :
  (j < n2)%nat -> (k < n0)%nat ->
  let idx := ((i * n2 + j) * n0 + k)%nat in
  (idx / (n2 * n0) = i /\ (idx / n0) mod n2 = j /\ idx mod n0 = k)%nat.
Proof.
  intros Hj Hk idx.
  assert (E1 : (idx / n0 = i * n2 + j)%nat).
  { subst idx. symmetry. apply (Nat.div_unique _ n0 _ k); lia. }
  assert (E2 : (idx mod n0 = k)%nat).
  { subst idx. symmetry. apply (Nat.mod_unique _ n0 (i * n2 + j) k); lia. }
  split; [|split].
  - rewrite Nat.mul_comm, <- Nat.Div0.div_div, E1.
    symmetry. apply (Nat.div_unique _ n2 _ j); lia.
  - rewrite E1. symmetry. apply (Nat.mod_unique _ n2 i j); lia.
  - exact E2.
Qed.

Lemma reshape_known {A : Type} (a : ndarray A) (newshape : list Z) :
  forallb (fun d => 0 <=? d) newshape = true ->
  size_of (map Z.to_nat newshape) = size_of (shape a) ->
  np_reshape a newshape = Ok (NdArray (map Z.to_nat newshape) (elems a)).
Proof.
  intros Hn Hs. unfold np_reshape.
  assert (E : filter (fun d => 0 <=? d) newshape = newshape).
  { apply forallb_filter_id. exact Hn. }
  rewrite E, Nat.sub_diag, Hs, Nat.eqb_refl. reflexivity.
Qed.

Lemma flat_index_lt (n m i j : nat) :
  (i < n)%nat -> (j < m)%nat -> (i * m + j < n * m)%nat.
Proof.
  intros Hi Hj.
  apply Nat.lt_le_trans with ((i + 1) * m)%nat; [lia|].
  apply Nat.mul_le_mono_r. lia.
Qed.

Section Geometry.
Variables cos2pi sin2pi : Q -> Q.

(** C5.  [pre_start_capture] fixes the physical shape of a buffer from the
    ordering: (records, samples, channels) for brsc, (channels, records,
    samples) for bcrs, and an exception for any other ordering.
    [handle_buffer] then reads a flat buffer in that shape, as it is for
    brsc and with the axes permuted to (records, samples, channels) for
    bcrs.  In both cases the physical shape has
    [samples_per_record * records_per_buffer * channels] elements. *)
Theorem buffer_geometry (c c' : ctl) (raw : list Z) :
  let R := Z.to_nat (records_per_buffer c) in
  let S := Z.to_nat (samples_per_record c) in
  let C := Z.to_nat (number_of_channels c) in
  0 <= records_per_buffer c -> 0 <= samples_per_record c ->
  0 <= number_of_channels c ->
  length raw = (R * S * C)%nat ->
  (_buffer_order c = "brsc"%string ->
   pre_start_capture cos2pi sin2pi c = Ok c' ->
   buffer_shape c' =
     Some [records_per_buffer c; samples_per_record c; number_of_channels c] /\
   buffer_view c' raw = Ok (NdArray [R; S; C] raw)) /\
  (_buffer_order c = "bcrs"%string ->
   pre_start_capture cos2pi sin2pi c = Ok c' ->
   buffer_shape c' =
     Some [number_of_channels c; records_per_buffer c; samples_per_record c] /\
   exists v : ndarray Z,
     buffer_view c' raw = Ok v /\ shape v = [R; S; C] /\
     forall r s ch : nat,
       (r < R)%nat -> (s < S)%nat -> (ch < C)%nat ->
       nth ((r * S + s) * C + ch) (elems v) 0
       = nth ((ch * R + r) * S + s) raw 0) /\
  (_buffer_order c <> "brsc"%string -> _buffer_order c <> "bcrs"%string ->
   pre_start_capture cos2pi sin2pi c = Raise ValueError) /\
  (forall bs : list Z,
     pre_start_capture cos2pi sin2pi c = Ok c' ->
     buffer_shape c' = Some bs ->
     fold_right Z.mul 1 bs
     = samples_per_record c * records_per_buffer c * number_of_channels c).
Proof.
  intros R S C HR HS HC Hlen.
  assert (Hpos : forall x y z, 0 <= x -> 0 <= y -> 0 <= z ->
                 forallb (fun d => 0 <=? d) [x; y; z] = true).
  { intros x y z Hx Hy Hz. cbn.
    rewrite !(proj2 (Z.leb_le _ _)) by assumption. reflexivity. }
  split; [|split; [|split]].
  - intros Ho Hp. apply pre_start_capture_config in Hp.
    destruct Hp as (Hc & Hb & _). apply config_fields in Hc.
    destruct Hc as (_ & _ & _ & _ & _ & _ & _ & _ & _ & Eo & _).
    unfold physical_shape in Hb. rewrite Ho in Hb. cbn in Hb.
    split; [exact Hb|].
    unfold buffer_view. rewrite Hb, Eo, Ho. cbn [of_option bind].
    rewrite reshape_known.
    + cbn. reflexivity.
    + now apply Hpos.
    + cbn. fold R S C. lia.
  - intros Ho Hp. apply pre_start_capture_config in Hp.
    destruct Hp as (Hc & Hb & _). apply config_fields in Hc.
    destruct Hc as (_ & _ & _ & _ & _ & _ & _ & _ & _ & Eo & _).
    unfold physical_shape in Hb. rewrite Ho in Hb. cbn in Hb.
    split; [exact Hb|].
    unfold buffer_view. rewrite Hb, Eo, Ho. cbn [of_option bind].
    rewrite reshape_known.
    + cbn [bind String.eqb Ascii.eqb Bool.eqb map]. fold R S C.
      unfold transpose_120. cbn [shape elems].
      eexists. split; [reflexivity|]. split; [reflexivity|].
      intros r s ch Hr Hs Hch. cbn [elems].
      rewrite gather_nth.
      * destruct (unravel3 S C r s ch Hs Hch) as (-> & -> & ->).
        f_equal. ring.
      * cbn [size_of fold_right]. rewrite Nat.mul_1_r, Nat.mul_assoc.
        apply flat_index_lt; [apply flat_index_lt|]; assumption.
    + now apply Hpos.
    + cbn. fold R S C. lia.
  - intros N1 N2. unfold pre_start_capture, base_pre_start_capture.
    apply String.eqb_neq in N1, N2. rewrite N1, N2. reflexivity.
  - intros bs Hp Hbs. apply pre_start_capture_config in Hp.
    destruct Hp as (_ & Hb & _). rewrite Hb in Hbs. unfold physical_shape in Hbs.
    destruct (_buffer_order c =? "brsc")%string.
    + injection Hbs as <-. cbn. lia.
    + destruct (_buffer_order c =? "bcrs")%string; [|discriminate Hbs].
      injection Hbs as <-. cbn. lia.
Qed.

End Geometry.

Lemma buffer_geometry_witness :
  exists (c c' : ctl) (v : ndarray Z),
    bcrs_controller = Ok c /\
    pre_start_capture cos2pi_quarter sin2pi_quarter c = Ok c' /\
    buffer_shape c' = Some [2; 2; 3] /\
    buffer_view c' raw_0_to_11 = Ok v /\
    shape v = [2; 3; 2]%nat /\
    nth 1 (elems v) 0 = 6 /\ nth 2 (elems v) 0 = 1.
Proof.
  destruct bcrs_controller as [c|e] eqn:Ec; [|discriminate Ec].
  destruct (pre_start_capture cos2pi_quarter sin2pi_quarter c) as [c'|e] eqn:Ep;
    [|vm_compute in Ec; injection Ec as <-; discriminate Ep].
  assert (F : samples_per_record c = 3 /\ records_per_buffer c = 2 /\
              number_of_channels c = 2 /\ _buffer_order c = "bcrs"%string).
  { vm_compute in Ec. injection Ec as <-. repeat split. }
  destruct F as (F1 & F2 & F3 & F4).
  destruct (buffer_geometry cos2pi_quarter sin2pi_quarter c c' raw_0_to_11)
    as (_ & H & _).
  - rewrite F2. lia.
  - rewrite F1. lia.
  - rewrite F3. lia.
  - rewrite F1, F2, F3. reflexivity.
  - destruct (H F4 Ep) as (Hb & v & Hv & Hs & Hn).
    rewrite F1, F2, F3 in *.
    exists c, c', v. repeat (split; [first [reflexivity | assumption]|]).
    split.
    + apply (Hn 0%nat 0%nat 1%nat); cbn; lia.
    + apply (Hn 0%nat 1%nat 0%nat); cbn; lia.
Defined.

(* ================================================================== *)
(** ** The buffer callback *)

Lemma shape_eqb_refl (s : list nat) : shape_eqb s s = true.
Proof. unfold shape_eqb. destruct (list_eq_dec Nat.eq_dec s s); congruence. Qed.

Lemma broadcast_to_same {A : Type} (d : A) (a : ndarray A) (t : list nat) :
  shape a = t -> broadcast_to d t a = Ok (elems a).
Proof. intros <-. unfold broadcast_to. now rewrite shape_eqb_refl. Qed.

Lemma strip_ones_id (n : nat) (shp : list nat) :
  (length shp <= n)%nat -> strip_ones n shp = shp.
Proof.
  intro H. destruct shp as [|[|[|d]] rest]; try reflexivity.
  cbn [strip_ones]. destruct (Nat.ltb_spec n (length (1%nat :: rest))); [lia|reflexivity].
Qed.

Lemma py_index_in_range (n : nat) (k : Z) :
  0 <= k < Z.of_nat n -> py_index n k = Ok (Z.to_nat k).
Proof.
  intros [H1 H2]. unfold py_index.
  rewrite (proj2 (Z.leb_le _ _) H1), (proj2 (Z.ltb_lt _ _) H2). reflexivity.
Qed.

Lemma zip_with_length {A B C : Type} (f : A -> B -> C) (xs : list A) (ys : list B) :
  length xs = length ys -> length (zip_with f xs ys) = length xs.
Proof.
  revert ys. induction xs as [|x xs IH]; intros [|y ys] H; cbn in *;
    try reflexivity; try discriminate. f_equal. apply IH. lia.
Qed.

Lemma zip_with_nth {A B C : Type} (f : A -> B -> C) (da : A) (db : B) (dc : C)
  (xs : list A) (ys : list B) (i : nat) :
  (i < length xs)%nat -> (i < length ys)%nat ->
  nth i (zip_with f xs ys) dc = f (nth i xs da) (nth i ys db).
Proof.
  revert ys i. induction xs as [|x xs IH]; intros [|y ys] [|i] Hx Hy; cbn in *;
    try lia; try reflexivity.
  apply IH; lia.
Qed.

(** Replacing a segment of a list by a list of the same length. *)
Lemma splice_nth_error {A : Type} (l vs : list A) (a i : nat) :
  (a + length vs <= length l)%nat ->
  nth_error (firstn a l ++ vs ++ skipn (a + length vs) l) i =
  if (i <? a)%nat then nth_error l i
  else if (i <? a + length vs)%nat then nth_error vs (i - a)
  else nth_error l i.
Proof.
  intro H.
  assert (La : length (firstn a l) = a) by (rewrite length_firstn; lia).
  destruct (Nat.ltb_spec i a) as [Hi|Hi].
  - rewrite nth_error_app1 by lia. rewrite nth_error_firstn.
    destruct (Nat.ltb_spec i a); [reflexivity|lia].
  - rewrite nth_error_app2 by lia. rewrite La.
    destruct (Nat.ltb_spec i (a + length vs)) as [Hj|Hj].
    + rewrite nth_error_app1 by lia. reflexivity.
    + rewrite nth_error_app2 by lia. rewrite nth_error_skipn. f_equal. lia.
Qed.

Lemma segment_ext {A : Type} (l l' : list A) (s m : nat) :
  (forall i, (s <= i < s + m)%nat -> nth_error l i = nth_error l' i) ->
  firstn m (skipn s l) = firstn m (skipn s l').
Proof.
  intro H. apply nth_error_ext. intro i.
  rewrite !nth_error_firstn, !nth_error_skipn.
  destruct (Nat.ltb_spec i m); [|reflexivity]. apply H. lia.
Qed.

Lemma segment_exact {A : Type} (l vs : list A) (a : nat) :
  (a + length vs <= length l)%nat ->
  firstn (length vs) (skipn a (firstn a l ++ vs ++ skipn (a + length vs) l)) = vs.
Proof.
  intro H. apply nth_error_ext. intro i.
  rewrite nth_error_firstn, nth_error_skipn.
  destruct (Nat.ltb_spec i (length vs)) as [Hi|Hi].
  - rewrite splice_nth_error by exact H.
    destruct (Nat.ltb_spec (a + i) a); [lia|].
    destruct (Nat.ltb_spec (a + i) (a + length vs)); [|lia].
    f_equal. lia.
  - symmetry. apply nth_error_None. exact Hi.
Qed.

Lemma touch_handling_time_ok (c : ctl) (m : nat) (k : Z) :
  handling_times c = Some m -> 0 <= k < Z.of_nat m ->
  touch_handling_time c k = Ok c.
Proof.
  intros Hm Hk. unfold touch_handling_time. rewrite Hm. cbn [of_option bind].
  rewrite py_index_in_range by exact Hk. reflexivity.
Qed.

(* ================================================================== *)
(** ** [data_shape] against [data_dims] *)

Section Shapes.
Variables cos2pi sin2pi : Q -> Q.

(** [data_shape] and [data_dims] have the same number of entries, for
    every class. *)
Lemma data_shape_dims_length (c c' : ctl) (shp : list Z) :
  data_shape cos2pi sin2pi c = Ok (shp, c') ->
  length shp = length (data_dims c).
Proof.
  unfold data_shape, data_dims. intro H.
  destruct (cls c);
    first
      [ destruct (negb (_average_buffers c)); injection H as <- _; reflexivity
      | injection H as <- _; reflexivity
      | bind_inv H; try bind_inv H; injection H as <- _; reflexivity ].
Qed.

(** The first entry of [data_shape] of [AvgRecDemodCtl] is the number of
    records per buffer, under the name "buffers". *)
Lemma AvgRecDemod_data_shape_head (c c' : ctl) (shp : list Z) :
  cls c = AvgRecDemodCtl ->
  data_shape cos2pi sin2pi c = Ok (shp, c') ->
  hd 0 shp = records_per_buffer c /\ hd ""%string (data_dims c) = "buffers"%string.
Proof.
  unfold data_shape, data_dims. intros V H. rewrite V in *.
  bind_inv H. apply demod_setup_config in E. destruct E as (E & _).
  apply config_fields in E. destruct E as (_ & _ & _ & E & _).
  bind_inv H. injection H as <- _. cbn. split; [exact E|reflexivity].
Qed.

End Shapes.

(** C1, at three records per buffer and five buffers per acquisition:
    [data_shape] of [AvgRecDemodCtl] has as many entries as [data_dims],
    and its first entry, which [data_dims] names "buffers", is 3, the
    number of records per buffer, while the accumulator that
    [pre_start_capture] allocates and the array that the acquisition
    returns have 5, the number of buffers, on that axis. *)
Theorem AvgRecDemod_data_shape_reports_records :
  exists (c c' : ctl) (shp : list Z) (out : output),
    avg_rec_demod_started = Ok c /\
    data_shape cos2pi_quarter sin2pi_quarter c = Ok (shp, c') /\
    length shp = length (data_dims c) /\
    data_dims c = ["buffers"; "IF_periods"; "channels"]%string /\
    shp = [3; 2; 2] /\
    records_per_buffer c = 3 /\ buffers_per_acquisition c = 5 /\
    option_map shape (data c) = Some [5; 8; 2]%nat /\
    acquisition AvgRecDemodCtl 8 3 5 250000000 five_zero_buffers = Ok out /\
    out_shape out = [5; 2; 2]%nat.
Proof.
  destruct avg_rec_demod_started as [c|e] eqn:Ec;
    [|vm_compute in Ec; discriminate Ec].
  destruct (data_shape cos2pi_quarter sin2pi_quarter c) as [[shp c']|e] eqn:Es.
  2: { vm_compute in Ec. injection Ec as <-. vm_compute in Es. discriminate Es. }
  destruct (acquisition AvgRecDemodCtl 8 3 5 250000000 five_zero_buffers)
    as [out|e] eqn:Eo; [|vm_compute in Eo; discriminate Eo].
  exists c, c', shp, out.
  split; [reflexivity|]. split; [exact Es|].
  split; [exact (data_shape_dims_length cos2pi_quarter sin2pi_quarter c c' shp Es)|].
  vm_compute in Ec. injection Ec as <-.
  vm_compute in Es. injection Es as <- <-.
  vm_compute in Eo. injection Eo as <-.
  repeat split.
Qed.

(* ================================================================== *)
(** ** Normalisation *)

(** A sample that fits the type the card delivers, 8 bits for an 8-bit card
    and 16 bits for a 12-bit card, is normalised into [-0.5, 0.5). *)
Lemma normalize_sample_range (nbits v : Z) :
  (nbits = 8 /\ 0 <= v < 2 ^ 8) \/ (nbits = 12 /\ 0 <= v < 2 ^ 16) ->
  (- (1 # 2) <= normalize_sample nbits v)%Q /\ (normalize_sample nbits v < 1 # 2)%Q.
Proof.
  intros [[-> Hv]|[-> Hv]]; unfold normalize_sample; cbn [Z.eqb Pos.eqb].
  - change (inject_Z (2 ^ 8)) with 256%Q.
    assert (L : (0 <= inject_Z v)%Q) by (change 0%Q with (inject_Z 0); rewrite <- Zle_Qle; lia).
    assert (U : (inject_Z v < 256)%Q) by (change 256%Q with (inject_Z 256); rewrite <- Zlt_Qlt; lia).
    assert (E : (inject_Z v / 256 == inject_Z v * (1 # 256))%Q) by (field).
    rewrite E. split; lra.
  - change (inject_Z (2 ^ 12)) with 4096%Q.
    assert (B : 0 <= Z.shiftr v 4 < 4096).
    { rewrite Z.shiftr_div_pow2 by lia. change (2 ^ 4) with 16.
      split; [apply Z.div_pos; lia|apply Z.div_lt_upper_bound; lia]. }
    set (w := Z.shiftr v 4) in *.
    assert (L : (0 <= inject_Z w)%Q) by (change 0%Q with (inject_Z 0); rewrite <- Zle_Qle; lia).
    assert (U : (inject_Z w < 4096)%Q) by (change 4096%Q with (inject_Z 4096); rewrite <- Zlt_Qlt; lia).
    assert (E : (inject_Z w / 4096 == inject_Z w * (1 # 4096))%Q) by (field).
    rewrite E. split; lra.
Qed.

Lemma normalized_shape (c : ctl) (x : ndarray Q) :
  normalized c = Ok x ->
  exists acc : ndarray Z, data c = Some acc /\ shape x = shape acc.
Proof.
  unfold normalized, base_post_acquire. intro H.
  destruct (data c) as [acc|]; cbn [of_option bind] in H.
  - injection H as <-. exists acc. split; reflexivity.
  - destruct (_nbits c =? 12); discriminate H.
Qed.

Lemma normalized_ok (c : ctl) (acc : ndarray Z) :
  data c = Some acc ->
  normalized c = Ok (nd_map (normalize_sample (_nbits c)) acc).
Proof.
  intro H. unfold normalized, base_post_acquire. rewrite H.
  destruct (_nbits c =? 12); reflexivity.
Qed.

(** What [RawAcqCtl], [AvgBufCtl] and [AvgRecCtl] return when every
    element of the accumulator fits the type the card delivers: the
    accumulator's shape, and values in [-0.5, 0.5). *)
Lemma post_acquire_range (c : ctl) (acc : ndarray Z) :
  demodulates (cls c) = false ->
  data c = Some acc ->
  (_nbits c = 8 /\ Forall (fun v => 0 <= v < 2 ^ 8) (elems acc)) \/
  (_nbits c = 12 /\ Forall (fun v => 0 <= v < 2 ^ 16) (elems acc)) ->
  exists out : ndarray Q,
    post_acquire c = Ok (Real out) /\ shape out = shape acc /\
    Forall (fun q => (- (1 # 2) <= q)%Q /\ (q < 1 # 2)%Q) (elems out).
Proof.
  intros Hv Hd Hr.
  exists (nd_map (normalize_sample (_nbits c)) acc). split; [|split].
  - unfold post_acquire. rewrite (normalized_ok c acc Hd).
    destruct (cls c); try discriminate Hv; reflexivity.
  - reflexivity.
  - cbn [nd_map elems]. apply Forall_map.
    destruct Hr as [[Hn Hf]|[Hn Hf]]; rewrite Hn;
      eapply Forall_impl; try exact Hf; intros v Hb;
      apply normalize_sample_range; auto.
Qed.

Lemma exact_from_spec (nbits : Z) (n : nat) (v0 v : Z) :
  exact_from nbits n v0 = true -> v0 <= v < v0 + Z.of_nat n ->
  exact_on nbits v = true.
Proof.
  revert v0. induction n as [|n IH]; intros v0 H Hv; [lia|].
  cbn [exact_from] in H. apply andb_true_iff in H. destruct H as [H1 H2].
  destruct (Z.eq_dec v v0) as [->|N]; [exact H1|].
  apply (IH (v0 + 1)); [exact H2|lia].
Qed.

(** On every sample that fits the type the card delivers, 8 bits for an
    8-bit card and 16 bits for a 12-bit card, and on the sum of two
    full-scale samples, the binary32 computation of the normalisation is
    exact: it returns the value of the rational model. *)
Lemma normalize_sample_binary32 (nbits v : Z) :
  (nbits = 8 /\ 0 <= v < 2 ^ 8) \/
  (nbits = 12 /\ (0 <= v < 2 ^ 16 \/ v = 2 * 65520)) ->
  exists q : Q,
    Binary32.to_Q (normalize_sample_f32 nbits v) = Some q /\
    (q == normalize_sample nbits v)%Q.
Proof.
  intros H.
  assert (E : exact_on nbits (if nbits =? 12 then Z.shiftr v 4 else v) = true).
  { destruct H as [[-> Hv]|[-> [Hv| ->]]]; cbn [Z.eqb Pos.eqb].
    - apply (exact_from_spec 8 256 0); [vm_compute; reflexivity|].
      change (Z.of_nat 256) with (2 ^ 8). lia.
    - apply (exact_from_spec 12 4096 0); [vm_compute; reflexivity|].
      rewrite Z.shiftr_div_pow2 by lia. change (2 ^ 4) with 16.
      change (Z.of_nat 4096) with 4096.
      split; [apply Z.div_pos; lia|apply Z.div_lt_upper_bound; lia].
    - vm_compute. reflexivity. }
  unfold exact_on in E. unfold normalize_sample_f32, normalize_sample.
  destruct (Binary32.to_Q (scaled_f32 nbits (if nbits =? 12 then Z.shiftr v 4 else v)))
    as [q|]; [|discriminate E].
  exists q. split; [reflexivity|]. now apply Qeq_bool_iff.
Qed.

(** C9 as the specification words it fails: the value returned for the
    stored sample 0xFFF does not start 0.0123. *)
Lemma Raw_0xFFF_is_not_0_0123 :
  exists out : ndarray Q,
    acquisition RawAcqCtl 2 1 2 250000000 buffers_0xFFF = Ok (Real out) /\
    ~ ((123 # 10000) <= nth 0 (elems out) 0 /\ nth 0 (elems out) 0 < (124 # 10000))%Q.
Proof.
  destruct (acquisition RawAcqCtl 2 1 2 250000000 buffers_0xFFF) as [[out|z]|e] eqn:E;
    vm_compute in E; try discriminate E.
  exists out. split; [reflexivity|]. injection E as <-. cbn [elems nth].
  intros [H _]. revert H. unfold Qle. cbn. lia.
Qed.

(** C9, amended.  Under [RawAcqCtl] the stored 12-bit sample 0xFFF is
    shifted right by 4 to 255, divided by 4096 and lowered by 0.5: the value
    returned is 255/4096 - 0.5 = -1793/4096, about -0.4377. *)
Theorem Raw_0xFFF_normalized :
  exists out : ndarray Q,
    acquisition RawAcqCtl 2 1 2 250000000 buffers_0xFFF = Ok (Real out) /\
    Z.shiftr 4095 4 = 255 /\
    (nth 0 (elems out) 0 == (255 # 4096) - (1 # 2))%Q /\
    (nth 0 (elems out) 0 == - (1793 # 4096))%Q /\
    (- (4378 # 10000) < nth 0 (elems out) 0)%Q /\
    (nth 0 (elems out) 0 < - (4377 # 10000))%Q.
Proof.
  destruct (acquisition RawAcqCtl 2 1 2 250000000 buffers_0xFFF) as [[out|z]|e] eqn:E;
    vm_compute in E; try discriminate E.
  exists out. split; [reflexivity|]. injection E as <-. cbn [elems nth].
  repeat split.
Qed.

(** C2, at two buffers of [AvgBufCtl] with a full-scale sample: the
    accumulator holds the sum 2 * 0xFFF0, and the value returned for it is
    8190/4096 - 0.5, which is not below 0.5. *)
Theorem AvgBuf_sum_leaves_the_range :
  exists out : ndarray Q,
    acquisition AvgBufCtl 2 1 2 250000000 [full_scale_buffer; full_scale_buffer]
    = Ok (Real out) /\
    (nth 0 (elems out) 0 == normalize_sample 12 (2 * 65520))%Q /\
    (nth 0 (elems out) 0 == (8190 # 4096) - (1 # 2))%Q /\
    ~ (nth 0 (elems out) 0 < 1 # 2)%Q.
Proof.
  destruct (acquisition AvgBufCtl 2 1 2 250000000 [full_scale_buffer; full_scale_buffer])
    as [[out|z]|e] eqn:E; vm_compute in E; try discriminate E.
  exists out. split; [reflexivity|]. injection E as <-. cbn [elems nth].
  split; [reflexivity|]. split; [reflexivity|].
  unfold Qlt. cbn. lia.
Qed.

(** C3, at two equal buffers holding one period of a signal at the
    demodulation frequency: [AvgDemodCtl] returns 4095/4096 for the first
    channel, twice the 4095/8192 that the mean over the buffers of what
    [DemodCtl] returns is. *)
Theorem AvgDemod_differs_from_mean_of_Demod :
  exists (z1 : carray) (o2 : output) (z2 : carray),
    acquisition AvgDemodCtl 4 1 2 250000000 [one_period; one_period]
    = Ok (Complex z1) /\
    acquisition DemodCtl 4 1 2 250000000 [one_period; one_period] = Ok o2 /\
    mean_over_buffers o2 = Ok z2 /\
    shape (re z1) = shape (re z2) /\
    (nth 0 (elems (re z1)) 0 == 4095 # 4096)%Q /\
    (nth 0 (elems (re z2)) 0 == 4095 # 8192)%Q /\
    ~ (nth 0 (elems (re z1)) 0 == nth 0 (elems (re z2)) 0)%Q.
Proof.
  destruct (acquisition AvgDemodCtl 4 1 2 250000000 [one_period; one_period])
    as [[out|z1]|e] eqn:E1; vm_compute in E1; try discriminate E1.
  destruct (acquisition DemodCtl 4 1 2 250000000 [one_period; one_period])
    as [o2|e] eqn:E2; vm_compute in E2; try discriminate E2.
  destruct (mean_over_buffers o2) as [z2|e] eqn:E3.
  2: { injection E2 as <-. vm_compute in E3. discriminate E3. }
  exists z1, o2, z2. repeat (split; [reflexivity|]).
  injection E1 as <-. injection E2 as <-. vm_compute in E3. injection E3 as <-.
  cbn [re shape elems nth].
  split; [reflexivity|]. split; [reflexivity|]. split; [reflexivity|].
  unfold Qeq. cbn. lia.
Qed.

(* ================================================================== *)
(** ** What a buffer callback leaves unchanged *)

Lemma handle_buffer_frame (c c' : ctl) (raw : list Z) (bn : option Z) :
  handle_buffer c raw bn = Ok c' ->
  config c' = config c /\ demod_state c' = demod_state c /\
  buffer_shape c' = buffer_shape c /\ handling_times c' = handling_times c /\
  exists acc acc' : ndarray Z,
    data c = Some acc /\ data c' = Some acc' /\ shape acc' = shape acc.
Proof.
  unfold handle_buffer. intro H. bind_inv H.
  assert (T : forall (a : ndarray Z) (k : Z) (c'' : ctl),
             touch_handling_time (set_data c (Some a)) k = Ok c'' ->
             c'' = set_data c (Some a)).
  { intros a0 k c'' H0. unfold touch_handling_time in H0.
    bind_inv H0. bind_inv H0. now injection H0 as <-. }
  assert (S1 : forall (acc x r : ndarray Z) (k : Z),
             np_setitem 0 acc k x = Ok r -> shape r = shape acc).
  { intros acc x r k H0. unfold np_setitem in H0.
    destruct (shape acc); [discriminate H0|].
    bind_inv H0. bind_inv H0. now injection H0 as <-. }
  assert (S2 : forall (t : dtype) (acc x r : ndarray Z),
             np_iadd t acc x = Ok r -> shape r = shape acc).
  { intros t acc x r H0. unfold np_iadd in H0. bind_inv H0. now injection H0 as <-. }
  assert (K : (exists acc acc', data c = Some acc /\ shape acc' = shape acc /\
                                c' = set_data c (Some acc'))).
  { destruct bn as [k|]; [destruct (_average_buffers c)|].
    - bind_inv H. destruct (data c) as [acc|]; [|discriminate H].
      cbn [of_option bind] in H. bind_inv H.
      destruct a0 as [x|x]; [|discriminate E1].
      apply S2 in E1. apply T in H. eauto.
    - bind_inv H. destruct (data c) as [acc|]; [|discriminate H].
      cbn [of_option bind] in H. bind_inv H.
      apply S1 in E1. apply T in H. eauto.
    - bind_inv H. destruct (data c) as [acc|]; [|discriminate H].
      cbn [of_option bind] in H. bind_inv H.
      destruct a0 as [x|x]; [|discriminate E1].
      apply S2 in E1. apply T in H. eauto. }
  destruct K as (acc & acc' & Hd & Hs & ->).
  repeat split. exists acc, acc'. repeat split; assumption.
Qed.

Lemma deliver_frame (bufs : list (list Z)) (c c' : ctl) (i : Z) :
  deliver c i bufs = Ok c' ->
  config c' = config c /\ demod_state c' = demod_state c /\
  buffer_shape c' = buffer_shape c /\ handling_times c' = handling_times c /\
  option_map shape (data c') = option_map shape (data c).
Proof.
  revert c i. induction bufs as [|b bufs IH]; intros c i H; cbn [deliver] in H.
  - injection H as <-. repeat split.
  - bind_inv H. apply IH in H. apply handle_buffer_frame in E.
    destruct E as (E1 & E2 & E3 & E4 & acc & acc' & Ea & Ea' & Es).
    destruct H as (H1 & H2 & H3 & H4 & H5).
    rewrite H1, H2, H3, H4, H5, Ea, Ea'. cbn [option_map]. rewrite Es.
    repeat split; assumption.
Qed.

(* ================================================================== *)
(** ** Shapes of the numpy operations *)

Lemma size_of_app (s t : list nat) : size_of (s ++ t) = (size_of s * size_of t)%nat.
Proof.
  unfold size_of. induction s as [|d s IH]; cbn [app fold_right].
  - now rewrite Nat.mul_1_l.
  - rewrite IH. now rewrite Nat.mul_assoc.
Qed.

Lemma last_skipn {A : Type} (l : list A) (k : nat) (d : A) :
  (k < length l)%nat -> last (skipn k l) d = last l d.
Proof.
  revert k. induction l as [|x l IH]; intros k H; [cbn in H; lia|].
  destruct k as [|k]; [reflexivity|].
  cbn [skipn]. cbn [length] in H. rewrite IH by lia.
  destruct l; [cbn in H; lia|reflexivity].
Qed.

Lemma last_app_nonempty {A : Type} (l l' : list A) (d : A) :
  l' <> [] -> last (l ++ l') d = last l' d.
Proof.
  intro H. induction l as [|x l IH]; [reflexivity|].
  cbn [app]. destruct (l ++ l') eqn:E.
  - destruct l, l'; try discriminate E. contradiction.
  - rewrite <- IH. reflexivity.
Qed.

(** Removing an axis that is not the last one keeps the last one. *)
Lemma last_remove_axis {A : Type} (l : list A) (ax : nat) (d : A) :
  (S ax < length l)%nat ->
  last (firstn ax l ++ skipn (S ax) l) d = last l d.
Proof.
  intro H. rewrite last_app_nonempty.
  - apply last_skipn. exact H.
  - intro E. apply (f_equal (@length A)) in E. rewrite length_skipn in E.
    cbn in E. lia.
Qed.

Lemma np_mean_shape (ax : nat) (a r : ndarray Q) :
  np_mean ax a = Ok r ->
  shape r = firstn ax (shape a) ++ skipn (S ax) (shape a).
Proof.
  unfold np_mean. intro H.
  destruct (ndim a <=? ax)%nat; [discriminate H|].
  destruct ((axis_of (shape a) ax =? 0)%nat &&
            negb (size_of (firstn ax (shape a) ++ skipn (S ax) (shape a)) =? 0)%nat);
    [discriminate H|].
  now injection H as <-.
Qed.

Lemma np_zeros_shape (shp : list Z) (d : ndarray Z) :
  np_zeros shp = Ok d -> shape d = map Z.to_nat shp.
Proof.
  unfold np_zeros. intro H.
  destruct (forallb (fun d => 0 <=? d) shp); [|discriminate H].
  now injection H as <-.
Qed.

Lemma last_map {A B : Type} (f : A -> B) (l : list A) (d : A) :
  last (map f l) (f d) = f (last l d).
Proof.
  induction l as [|x l IH]; [reflexivity|].
  cbn [map]. destruct l; [reflexivity|]. exact IH.
Qed.

Lemma broadcast_dims_length (s t r : list nat) :
  broadcast_dims s t = Ok r -> length r = length s.
Proof.
  revert t r. induction s as [|d s IH]; intros [|e t] r H; cbn [broadcast_dims] in H;
    try discriminate H.
  - now injection H as <-.
  - bind_inv H. apply IH in E.
    destruct (d =? e)%nat; [|destruct (d =? 1)%nat; [|destruct (e =? 1)%nat]];
      try discriminate H; injection H as <-; cbn; now rewrite E.
Qed.

Lemma broadcast_dims_raise (s t : list nat) (e : exn) :
  broadcast_dims s t = Raise e -> e = ValueError.
Proof.
  revert t. induction s as [|d s IH]; intros [|d' t] H; cbn [broadcast_dims] in H;
    try discriminate H; try (now injection H as <-).
  destruct (broadcast_dims s t) eqn:E; cbn [bind] in H.
  - destruct (d =? d')%nat; [|destruct (d =? 1)%nat; [|destruct (d' =? 1)%nat]];
      try discriminate H. now injection H as <-.
  - injection H as <-. now apply (IH t).
Qed.

Lemma pad_shape_length (n : nat) (s : list nat) :
  (length s <= n)%nat -> length (pad_shape n s) = n.
Proof.
  intro H. unfold pad_shape. rewrite length_app, repeat_length. lia.
Qed.

Lemma broadcast_shapes_ndim (s t r : list nat) :
  broadcast_shapes s t = Ok r ->
  length r = Nat.max (length s) (length t).
Proof.
  unfold broadcast_shapes. intro H. apply broadcast_dims_length in H.
  rewrite H. apply pad_shape_length. lia.
Qed.

Lemma broadcast_to_raise {A : Type} (d : A) (t : list nat) (a : ndarray A) (e : exn) :
  broadcast_to d t a = Raise e -> e = ValueError.
Proof.
  unfold broadcast_to. intro H.
  destruct (shape_eqb (shape a) t); [discriminate H|].
  destruct (length t <? ndim a)%nat; [now injection H as <-|].
  destruct (stretches (pad_shape (length t) (shape a)) t); [discriminate H|].
  now injection H as <-.
Qed.

Lemma np_binop_raise {A B C : Type} (da : A) (db : B) (f : A -> B -> C)
  (a : ndarray A) (b : ndarray B) (e : exn) :
  np_binop da db f a b = Raise e -> e = ValueError.
Proof.
  unfold np_binop. intro H.
  destruct (broadcast_shapes (shape a) (shape b)) eqn:E1; cbn [bind] in H.
  - destruct (broadcast_to da a0 a) eqn:E2; cbn [bind] in H.
    + destruct (broadcast_to db a0 b) eqn:E3; cbn [bind] in H; [discriminate H|].
      injection H as <-. now apply broadcast_to_raise in E3.
    + injection H as <-. now apply broadcast_to_raise in E2.
  - injection H as <-. now apply broadcast_dims_raise in E1.
Qed.

Lemma np_binop_shape {A B C : Type} (da : A) (db : B) (f : A -> B -> C)
  (a : ndarray A) (b : ndarray B) (r : ndarray C) :
  np_binop da db f a b = Ok r ->
  broadcast_shapes (shape a) (shape b) = Ok (shape r).
Proof.
  unfold np_binop. intro H. bind_inv H. bind_inv H. bind_inv H.
  now injection H as <-.
Qed.

(** The reshape of the demodulation when there is no whole period: the
    known dimensions multiply to zero. *)
Lemma np_reshape_no_period {A : Type} (a : ndarray A) (lead : list Z) (p nch : Z) :
  np_reshape a (lead ++ [-1; 0; p; nch]) = Raise ValueError.
Proof.
  unfold np_reshape.
  set (nonneg := fun d : Z => 0 <=? d).
  assert (F : filter nonneg (lead ++ [-1; 0; p; nch])
              = filter nonneg lead ++ 0 :: filter nonneg [p; nch]).
  { rewrite filter_app. reflexivity. }
  rewrite F, map_app, size_of_app. cbn [map Z.to_nat size_of fold_right].
  rewrite Nat.mul_0_r. cbn [Nat.eqb orb].
  assert (L1 : (length (filter nonneg lead) <= length lead)%nat)
    by apply filter_length_le.
  assert (L2 : (length (filter nonneg [p; nch]) <= 2)%nat)
    by apply (filter_length_le nonneg [p; nch]).
  rewrite !length_app. cbn [length].
  destruct (length lead + 4 - (length (filter nonneg lead)
                               + S (length (filter nonneg [p; nch]))))%nat
    as [|[|k]] eqn:E; [lia|reflexivity|reflexivity].
Qed.

(** The reshape of the demodulation, when it succeeds, ends with the
    number of channels. *)
Lemma np_reshape_channels {A : Type} (a r : ndarray A) (lead : list Z)
  (ds p nch : Z) :
  np_reshape a (lead ++ [-1; ds; p; nch]) = Ok r ->
  last (shape r) 0%nat = Z.to_nat nch /\ (length lead + 4 = ndim r)%nat.
Proof.
  unfold np_reshape. intro H.
  set (nonneg := fun d : Z => 0 <=? d) in *.
  set (newshape := lead ++ [-1; ds; p; nch]) in *.
  assert (Hl : length newshape = (length lead + 4)%nat)
    by (subst newshape; rewrite length_app; reflexivity).
  assert (F : filter nonneg newshape
              = filter nonneg lead ++ filter nonneg [ds; p; nch]).
  { subst newshape. rewrite filter_app. reflexivity. }
  assert (L1 : (length (filter nonneg lead) <= length lead)%nat)
    by apply filter_length_le.
  assert (L2 : (length (filter nonneg [ds; p; nch]) <= 3)%nat)
    by apply (filter_length_le nonneg [ds; p; nch]).
  assert (Hc : nonneg nch = false ->
               (length (filter nonneg [ds; p; nch]) <= 2)%nat).
  { intro N. cbn [filter]. rewrite N.
    destruct (nonneg ds), (nonneg p); cbn; lia. }
  rewrite F, length_app, Hl in H.
  destruct (length lead + 4 - (length (filter nonneg lead)
                               + length (filter nonneg [ds; p; nch])))%nat
    as [|[|k]] eqn:E; [lia| |discriminate H].
  destruct (nonneg nch) eqn:N; [|specialize (Hc eq_refl); lia].
  match type of H with (if ?b then _ else _) = _ => destruct b; [discriminate H|] end.
  injection H as <-. unfold ndim. cbn [shape]. rewrite length_map. split; [|lia].
  subst newshape. rewrite map_app. rewrite last_app_nonempty by discriminate.
  cbn [map last]. fold nonneg. rewrite N. reflexivity.
Qed.

(* ================================================================== *)
(** ** Finalisation: shapes and the case without a whole period *)

Lemma np_slice_ok {A : Type} (d : A) (nidx ax : nat) (stop : Z) (a : ndarray A) :
  (nidx <= ndim a)%nat -> exists r, np_slice d nidx ax stop a = Ok r.
Proof.
  intro H. unfold np_slice. destruct (Nat.ltb_spec (ndim a) nidx); [lia|].
  eexists. reflexivity.
Qed.

Lemma demod_part_no_period (c : ctl) (nidx : nat) (lead : list Z) (p nch : Z)
  (basis x : ndarray Q) :
  demod_samples c = Some 0 -> period c = Some p ->
  (nidx <= ndim basis)%nat ->
  demod_part c nidx (lead ++ [-1; 0; p; nch]) basis x = Raise ValueError.
Proof.
  intros Hds Hp Hn. unfold demod_part. rewrite Hds, Hp. cbn [of_option bind].
  destruct (np_binop 0%Q 0%Q Qmult (nd_map (fun v => (v * 2)%Q) x) basis)
    as [pr|e] eqn:E; cbn [bind].
  - apply np_binop_shape in E. apply broadcast_shapes_ndim in E.
    destruct (np_slice_ok 0%Q nidx (nidx - 2) (0 * p) pr) as [sl Hsl].
    { unfold ndim in *. rewrite E. lia. }
    rewrite Hsl. cbn [bind]. rewrite np_reshape_no_period. reflexivity.
  - apply np_binop_raise in E. now subst e.
Qed.

Lemma demod_part_channels (c : ctl) (nidx : nat) (lead : list Z) (ds p nch : Z)
  (basis x r : ndarray Q) :
  demod_part c nidx (lead ++ [-1; ds; p; nch]) basis x = Ok r ->
  last (shape r) 0%nat = Z.to_nat nch /\ ndim r = (length lead + 3)%nat.
Proof.
  unfold demod_part. intro H. do 5 bind_inv H.
  apply np_reshape_channels in E3. destruct E3 as [L N].
  destruct (ndim a3 <? 2)%nat; [discriminate H|].
  apply np_mean_shape in H. unfold ndim in *. rewrite H. split.
  - rewrite last_remove_axis by lia. exact L.
  - rewrite length_app, length_firstn, length_skipn. lia.
Qed.

Lemma demodulated_no_period (c : ctl) (nidx : nat) (lead : list Z) (p : Z)
  (ca x : ndarray Q) :
  demod_samples c = Some 0 -> period c = Some p -> cosarr c = Some ca ->
  (nidx <= ndim ca)%nat ->
  demodulated c nidx lead x = Raise ValueError.
Proof.
  intros Hds Hp Hca Hn. unfold demodulated. rewrite Hca, Hds, Hp.
  cbn [of_option bind].
  rewrite (demod_part_no_period c nidx lead p _ ca x Hds Hp Hn). reflexivity.
Qed.

Lemma demodulated_channels (c : ctl) (nidx : nat) (lead : list Z)
  (x : ndarray Q) (z : carray) :
  demodulated c nidx lead x = Ok z ->
  last (shape (re z)) 0%nat = Z.to_nat (number_of_channels c) /\
  ndim (re z) = (length lead + 3)%nat /\
  last (shape (im z)) 0%nat = Z.to_nat (number_of_channels c) /\
  ndim (im z) = (length lead + 3)%nat.
Proof.
  unfold demodulated. intro H. do 7 bind_inv H. injection H as <-. cbn [re im].
  apply demod_part_channels in E2, E4. tauto.
Qed.

(** The last axis of what [post_acquire] returns has the length of the
    channel axis. *)
Lemma post_acquire_channels (c : ctl) (out : output) :
  (forall acc : ndarray Z, data c = Some acc ->
     last (shape acc) 0%nat = Z.to_nat (number_of_channels c)) ->
  post_acquire c = Ok out ->
  Forall (fun s => last s 0%nat = Z.to_nat (number_of_channels c))
    (out_shapes out).
Proof.
  intros Hd H. unfold post_acquire in H.
  destruct (cls c).
  1, 3, 4: bind_inv H; injection H as <-; cbn [out_shapes];
    apply normalized_shape in E; destruct E as (acc & Ea & ->);
    constructor; [now apply Hd|constructor].
  1, 2, 3: do 2 bind_inv H; injection H as <-; cbn [out_shapes];
    apply demodulated_channels in E0; repeat constructor; tauto.
  all: do 3 bind_inv H; injection H as <-; cbn [out_shapes];
    apply demodulated_channels in E0; destruct E0 as (L & N & L' & N');
    unfold cmean in E1; do 2 bind_inv E1; injection E1 as <-; cbn [re im].
  all: repeat match goal with
       | M : np_mean 1 _ = Ok _ |- _ => apply np_mean_shape in M; rewrite M
       end;
    unfold ndim in N, N'; cbn [length Nat.add] in N, N';
    repeat constructor; rewrite last_remove_axis by lia; assumption.
Qed.

(** With no whole period in a record, [post_acquire] of a demodulating
    controller that holds data and a basis raises. *)
Lemma post_acquire_no_period (c : ctl) (acc : ndarray Z) (ca : ndarray Q) (p : Z) :
  demodulates (cls c) = true ->
  data c = Some acc -> demod_samples c = Some 0 -> period c = Some p ->
  cosarr c = Some ca -> ndim ca = basis_ndim (cls c) ->
  post_acquire c = Raise ValueError.
Proof.
  intros Hv Hd Hds Hp Hca Hn. unfold post_acquire.
  rewrite (normalized_ok c acc Hd).
  destruct (cls c); try discriminate Hv; cbn [bind basis_ndim] in *;
    rewrite (demodulated_no_period c _ _ p ca _ Hds Hp Hca) by lia; reflexivity.
Qed.

(* ================================================================== *)
(** ** What [pre_start_capture] sets up *)

Section Setup.
Variables cos2pi sin2pi : Q -> Q.

Lemma demod_setup_state (four : bool) (c c' : ctl) :
  demod_setup cos2pi sin2pi four c = Ok c' ->
  exists (df : Q) (tv : list Q) (ca sa : ndarray Q),
    demod_frq c = Some df /\ tvals c = Some tv /\
    let p := py_int (sample_rate c / df + (1 # 2)) in
    p <> 0 /\
    period c' = Some p /\
    demod_samples c' = Some (samples_per_record c / p) /\
    cosarr c' = Some ca /\ sinarr c' = Some sa /\
    ndim ca = (if four then 4 else 3)%nat /\
    ndim sa = (if four then 4 else 3)%nat.
Proof.
  unfold demod_setup. intro H.
  destruct (demod_frq c) as [df|]; [|discriminate H]. cbn [of_option bind] in H.
  destruct (Qeq_bool df 0); [discriminate H|].
  unfold py_floordiv in H.
  destruct (Z.eqb_spec (py_int (sample_rate c / df + (1 # 2))) 0) as [|Hp];
    [discriminate H|].
  cbn [bind] in H.
  destruct (tvals c) as [tv|]; [|discriminate H]. cbn [of_option bind] in H.
  injection H as <-. cbn.
  do 4 eexists. repeat split; try reflexivity; try assumption;
    destruct four; reflexivity.
Qed.

Lemma data_shape_channels (c c' : ctl) (shp : list Z) :
  data_shape cos2pi sin2pi c = Ok (shp, c') ->
  last shp 0 = number_of_channels c /\
  number_of_channels c' = number_of_channels c.
Proof.
  intro H. pose proof (data_shape_config cos2pi sin2pi _ _ _ H) as (F & _).
  apply config_fields in F. destruct F as (_ & _ & _ & _ & _ & _ & F & _).
  split; [|exact F].
  unfold data_shape in H.
  destruct (cls c);
    first
      [ destruct (negb (_average_buffers c)); injection H as <- _; reflexivity
      | injection H as <- _; reflexivity
      | bind_inv H; try bind_inv H; injection H as <- <-; cbn [last]; exact F ].
Qed.

(** The state of demodulation that [data_shape] leaves, for a
    demodulating class. *)
Lemma data_shape_demod_state (c c' : ctl) (shp : list Z) :
  demodulates (cls c) = true ->
  data_shape cos2pi sin2pi c = Ok (shp, c') ->
  exists (df : Q) (tv : list Q) (ca sa : ndarray Q),
    demod_frq c = Some df /\ tvals c = Some tv /\
    let p := py_int (sample_rate c / df + (1 # 2)) in
    p <> 0 /\
    period c' = Some p /\
    demod_samples c' = Some (samples_per_record c / p) /\
    cosarr c' = Some ca /\ sinarr c' = Some sa /\
    ndim ca = basis_ndim (cls c) /\ ndim sa = basis_ndim (cls c) /\
    forall k : nat, if_axis (cls c) = Some k ->
      nth k shp 1 = samples_per_record c / p.
Proof.
  intros Hv H. unfold data_shape in H.
  destruct (cls c); try discriminate Hv; bind_inv H;
    destruct (demod_setup_state _ _ _ E)
      as (df & tv & ca & sa & H1 & H2 & H3 & H4 & H5 & H6 & H7 & H8 & H9);
    exists df, tv, ca, sa; cbn [basis_ndim if_axis];
    (repeat (split; [assumption|]));
    try (unfold get_demod_samples in H; rewrite H5 in H; cbn [of_option bind] in H);
    injection H as <- <-; (repeat (split; [assumption|]));
    intros k Hk; try discriminate Hk; injection Hk as <-; reflexivity.
Qed.

Lemma last_to_nat (shp : list Z) :
  last (map Z.to_nat shp) 0%nat = Z.to_nat (last shp 0).
Proof. exact (last_map Z.to_nat shp 0). Qed.

Lemma allocate_data_state (c c' : ctl) :
  allocate_data cos2pi sin2pi c = Ok c' ->
  exists (shp : list Z) (c1 : ctl) (d : ndarray Z),
    data_shape cos2pi sin2pi
      (set_tvals c (Some (time_axis (samples_per_record c) (sample_rate c))))
    = Ok (shp, c1) /\
    c' = set_data c1 (Some d) /\
    last (shape d) 0%nat = Z.to_nat (number_of_channels c).
Proof.
  unfold allocate_data. intro H.
  destruct (Qeq_bool (sample_rate c) 0); [discriminate H|].
  bind_inv H. destruct a as [shp c1]. cbn [fst snd] in H.
  bind_inv H. injection H as <-.
  exists shp, c1, a. split; [reflexivity|]. split; [reflexivity|].
  apply np_zeros_shape in E0. rewrite E0, last_to_nat.
  apply data_shape_channels in E. destruct E as [-> _]. reflexivity.
Qed.

(** After [pre_start_capture] of a controller that allocates its data, the
    accumulator exists and its last axis is the channel axis; for a
    demodulating class the period, the number of periods and the basis are
    set. *)
Lemma pre_start_capture_state (c c1 : ctl) :
  do_allocate_data c = true ->
  pre_start_capture cos2pi sin2pi c = Ok c1 ->
  (exists acc : ndarray Z,
      data c1 = Some acc /\
      last (shape acc) 0%nat = Z.to_nat (number_of_channels c)) /\
  (demodulates (cls c) = true ->
   exists (df : Q) (tv : list Q) (ca sa : ndarray Q),
     demod_frq c = Some df /\ tvals c1 = Some tv /\
     let p := py_int (sample_rate c / df + (1 # 2)) in
     p <> 0 /\
     period c1 = Some p /\
     demod_samples c1 = Some (samples_per_record c / p) /\
     cosarr c1 = Some ca /\ sinarr c1 = Some sa /\
     ndim ca = basis_ndim (cls c) /\ ndim sa = basis_ndim (cls c)).
Proof.
  intros Ha H. unfold pre_start_capture in H. bind_inv H.
  pose proof (base_pre_start_capture_config cos2pi sin2pi _ _ E) as (F & _).
  apply config_fields in F.
  destruct F as (Fv & _ & Fs & Fr & Fb & _ & Fn & _).
  unfold base_pre_start_capture in E. bind_inv E.
  cbn [do_allocate_data set_buffer_shape] in E. rewrite Ha in E.
  bind_inv E. destruct (buffers_per_acquisition a1 <? 0); [discriminate E|].
  injection E as <-.
  apply allocate_data_state in E1.
  destruct E1 as (shp & c2 & d & Es & -> & Hl).
  cbn [number_of_channels set_buffer_shape] in Hl.
  split.
  - cbn [cls set_handling_times set_data] in H. cbn in Fn.
    destruct (cls c2);
      first
        [ injection H as <-; exists d; split; [reflexivity|exact Hl]
        | bind_inv H; injection H as <-; eexists; split; [reflexivity|];
          match goal with
          | Z : np_zeros _ = Ok _ |- _ =>
              apply np_zeros_shape in Z; rewrite Z, last_to_nat
          end;
          cbn; now rewrite Fn ].
  - intro Hv.
    pose proof Es as Es'. apply data_shape_demod_state in Es'; [|exact Hv].
    destruct Es'
      as (df & tv & ca & sa & H1 & H2 & H3 & H4 & H5 & H6 & H7 & H8 & H9 & _).
    pose proof (data_shape_config cos2pi sin2pi _ _ _ Es) as (_ & _ & _ & _ & Ht).
    exists df, (time_axis (samples_per_record c) (sample_rate c)), ca, sa.
    assert (G : demod_state c1 = demod_state c2 ).
    { cbn [cls set_handling_times set_data] in H.
      destruct (cls c2); first [ injection H as <-; reflexivity
                               | bind_inv H; injection H as <-; reflexivity ]. }
    unfold demod_state in G. injection G as -> -> -> -> ->.
    cbn in H1, Ht.
    repeat split; assumption.
Qed.

End Setup.

(* ================================================================== *)
(** ** No whole period in a record *)

Section Degenerate.
Variables cos2pi sin2pi : Q -> Q.

Lemma data_shape_ok (c : ctl) (df : Q) (tv : list Q) :
  demodulates (cls c) = true ->
  demod_frq c = Some df -> tvals c = Some tv -> (0 < df)%Q ->
  py_int (sample_rate c / df + (1 # 2)) <> 0 ->
  exists (shp : list Z) (c' : ctl), data_shape cos2pi sin2pi c = Ok (shp, c').
Proof.
  intros Hv Hdf Htv Hpos Hp. unfold data_shape.
  destruct (cls c); try discriminate Hv.
  1: destruct (demod_setup_ok cos2pi sin2pi true c df tv Hdf Htv Hpos Hp)
    as (c' & E & _ & Eds & _).
  2-5: destruct (demod_setup_ok cos2pi sin2pi false c df tv Hdf Htv Hpos Hp)
    as (c' & E & _ & Eds & _).
  all: rewrite E; cbn [bind]; unfold get_demod_samples; try rewrite Eds;
    cbn [of_option bind]; do 2 eexists; reflexivity.
Qed.

(** C8, amended.  When the period exceeds the record length, a
    demodulating controller computes zero periods per record without an
    error, and [data_shape] reports an IF_periods axis of length zero; but
    once the acquisition has run, [post_acquire] raises [ValueError]: the
    reshape that is to infer one dimension finds the others multiplying to
    zero.  No array is returned. *)
Theorem degenerate_demodulation_raises (c c1 c2 : ctl) (df : Q)
  (bufs : list (list Z)) :
  demodulates (cls c) = true ->
  do_allocate_data c = true ->
  demod_frq c = Some df -> (0 < df)%Q ->
  0 <= samples_per_record c < py_int (sample_rate c / df + (1 # 2)) ->
  pre_start_capture cos2pi sin2pi c = Ok c1 ->
  deliver c1 0 bufs = Ok c2 ->
  demod_samples c2 = Some 0 /\
  (exists (shp : list Z) (c' : ctl),
      data_shape cos2pi sin2pi c2 = Ok (shp, c') /\
      forall k : nat, if_axis (cls c) = Some k -> nth k shp 1 = 0) /\
  post_acquire c2 = Raise ValueError.
Proof.
  intros Hv Ha Hdf Hpos Hspr Hp Hd.
  set (p := py_int (sample_rate c / df + (1 # 2))) in *.
  assert (Hz : samples_per_record c / p = 0) by (apply Z.div_small; exact Hspr).
  destruct (pre_start_capture_state cos2pi sin2pi c c1 Ha Hp) as [(acc & Hacc & _) HD].
  destruct (HD Hv) as (df' & tv & ca & sa & H1 & H2 & H3 & H4 & H5 & H6 & H7 & H8 & _).
  rewrite Hdf in H1. injection H1 as <-. fold p in H3, H4, H5. rewrite Hz in H5.
  pose proof (pre_start_capture_config cos2pi sin2pi _ _ Hp) as (F1 & _).
  apply deliver_frame in Hd. destruct Hd as (G1 & G2 & _ & _ & G5).
  unfold demod_state in G2. injection G2 as Gp Gds Gca Gsa Gtv.
  rewrite F1 in G1. apply config_fields in G1.
  destruct G1 as (Gv & Gsr & Gspr & _ & _ & Gdf & _).
  rewrite Hacc in G5. destruct (data c2) as [acc2|] eqn:Hacc2; [|discriminate G5].
  split; [now rewrite Gds|]. split.
  - destruct (data_shape_ok c2 df tv) as (shp & c' & Es).
    + now rewrite Gv.
    + now rewrite Gdf.
    + now rewrite Gtv.
    + exact Hpos.
    + rewrite Gsr. exact H3.
    + exists shp, c'. split; [exact Es|]. intros k Hk.
      apply data_shape_demod_state in Es; [|now rewrite Gv].
      destruct Es as (df2 & tv2 & ca2 & sa2 & K1 & _ & _ & _ & _ & _ & _ & _ & _ & K).
      rewrite Gdf, Hdf in K1. injection K1 as <-.
      rewrite Gv in K. rewrite (K k Hk), Gsr, Gspr. exact Hz.
  - apply (post_acquire_no_period c2 acc2 ca p).
    + now rewrite Gv.
    + exact Hacc2.
    + now rewrite Gds.
    + now rewrite Gp.
    + now rewrite Gca.
    + now rewrite Gv.
Qed.

End Degenerate.

(** C8 as the specification words it fails: with a period of 1000 samples
    and records of 4, [data_shape] of [AvgDemodCtl] reports no periods, the
    buffers are taken, and the acquisition ends in an exception instead of
    an empty array. *)
Lemma degenerate_demodulation_is_an_error :
  (exists c : ctl,
      controller AvgDemodCtl 1000000000 4 1 2 1000000 = Ok c /\
      (0 <= samples_per_record c
       < py_int (sample_rate c / 1000000 + (1 # 2)))) /\
  acquisition AvgDemodCtl 4 1 2 1000000 [one_period; one_period]
  = Raise ValueError /\
  ~ (exists out : output,
        acquisition AvgDemodCtl 4 1 2 1000000 [one_period; one_period] = Ok out).
Proof.
  split; [|split].
  - destruct (controller AvgDemodCtl 1000000000 4 1 2 1000000) as [c|e] eqn:E;
      [|vm_compute in E; discriminate E].
    exists c. split; [reflexivity|].
    vm_compute in E. injection E as <-. vm_compute. split; [discriminate|reflexivity].
  - vm_compute. reflexivity.
  - intros [out H]. vm_compute in H. discriminate H.
Qed.

Lemma degenerate_demodulation_raises_witness :
  exists c c1 c2 : ctl,
    controller AvgDemodCtl 1000000000 4 1 2 1000000 = Ok c /\
    pre_start_capture cos2pi_quarter sin2pi_quarter c = Ok c1 /\
    deliver c1 0 [one_period; one_period] = Ok c2 /\
    demod_samples c2 = Some 0 /\
    post_acquire c2 = Raise ValueError.
Proof.
  destruct (controller AvgDemodCtl 1000000000 4 1 2 1000000) as [c|e] eqn:E;
    [|vm_compute in E; discriminate E].
  destruct (pre_start_capture cos2pi_quarter sin2pi_quarter c) as [c1|e] eqn:E1.
  2: { vm_compute in E. injection E as <-. vm_compute in E1. discriminate E1. }
  destruct (deliver c1 0 [one_period; one_period]) as [c2|e] eqn:E2.
  2: { vm_compute in E. injection E as <-. vm_compute in E1. injection E1 as <-.
       vm_compute in E2. discriminate E2. }
  assert (F : demodulates (cls c) = true /\ do_allocate_data c = true /\
              demod_frq c = Some 1000000%Q /\
              0 <= samples_per_record c
              < py_int (sample_rate c / 1000000 + (1 # 2))).
  { vm_compute in E. injection E as <-. vm_compute. repeat split; discriminate. }
  destruct F as (F1 & F2 & F3 & F4).
  destruct (degenerate_demodulation_raises cos2pi_quarter sin2pi_quarter
              c c1 c2 1000000 [one_period; one_period] F1 F2 F3 eq_refl F4 E1 E2)
    as (H1 & _ & H3).
  exists c, c1, c2. repeat split; assumption.
Defined.

(* ================================================================== *)
(** ** The channel axis *)

Lemma init_state (v : variant) (card : idn) (sr : Q) (spr rpb bpa : Z) (c : ctl) :
  init v card sr spr rpb bpa = Ok c ->
  number_of_channels c = 2 /\ do_allocate_data c = true /\
  cls c = v /\ samples_per_record c = spr /\ records_per_buffer c = rpb /\
  (_buffer_order c = "brsc"%string \/ _buffer_order c = "bcrs"%string).
Proof.
  unfold init. intro H. bind_inv H. injection H as <-. cbn.
  repeat split. destruct (idn_model card =? "ATS9870")%string; auto.
Qed.

Section Channels.
Variables cos2pi sin2pi : Q -> Q.

(** C10.  The constructor sets [number_of_channels] to 2 and no hook
    changes it: after [pre_start_capture] and any number of buffer
    callbacks it is still 2, the channel entry of the buffer shape is 2,
    the last entry of [data_shape] is 2, and the last axis of the array
    that [post_acquire] returns has length 2, whatever the card
    reports. *)
Theorem channels_fixed_at_two (v : variant) (card : idn) (sr : Q)
  (spr rpb bpa : Z) (f : option Q) (c0 c1 c2 : ctl) (bufs : list (list Z)) :
  init v card sr spr rpb bpa = Ok c0 ->
  pre_start_capture cos2pi sin2pi (set_demod_frq c0 f) = Ok c1 ->
  deliver c1 0 bufs = Ok c2 ->
  number_of_channels c0 = 2 /\
  number_of_channels c1 = 2 /\
  number_of_channels c2 = 2 /\
  ((_buffer_order c2 = "brsc"%string /\ buffer_shape c2 = Some [rpb; spr; 2]) \/
   (_buffer_order c2 = "bcrs"%string /\ buffer_shape c2 = Some [2; rpb; spr])) /\
  (forall (shp : list Z) (c' : ctl),
      data_shape cos2pi sin2pi c2 = Ok (shp, c') ->
      last shp 0 = 2 /\ number_of_channels c' = 2) /\
  (forall (raw : list Z) (bn : option Z) (c' : ctl),
      handle_buffer c2 raw bn = Ok c' -> number_of_channels c' = 2) /\
  (forall out : output,
      post_acquire c2 = Ok out ->
      Forall (fun s => last s 0%nat = 2%nat) (out_shapes out)).
Proof.
  intros Hi Hp Hd.
  apply init_state in Hi. destruct Hi as (I1 & I2 & _ & I4 & I5 & I6).
  set (c := set_demod_frq c0 f) in *.
  destruct (pre_start_capture_state cos2pi sin2pi c c1 I2 Hp) as [(acc & Hacc & Hl) _].
  change (number_of_channels c) with (number_of_channels c0) in Hl.
  rewrite I1 in Hl.
  apply pre_start_capture_config in Hp. destruct Hp as (F & Fb & _).
  apply config_fields in F.
  destruct F as (_ & _ & _ & _ & _ & _ & Fn & _ & _ & Fo & _).
  apply deliver_frame in Hd. destruct Hd as (G & _ & Gb & _ & G5).
  apply config_fields in G.
  destruct G as (_ & _ & _ & _ & _ & _ & Gn & _ & _ & Go & _).
  change (number_of_channels c) with (number_of_channels c0) in Fn.
  change (_buffer_order c) with (_buffer_order c0) in Fo.
  assert (N1 : number_of_channels c1 = 2) by congruence.
  assert (N2 : number_of_channels c2 = 2) by congruence.
  split; [exact I1|]. split; [exact N1|]. split; [exact N2|].
  split; [|split; [|split]].
  - rewrite Gb, Fb, Go, Fo. unfold physical_shape.
    change (_buffer_order c) with (_buffer_order c0).
    change (records_per_buffer c) with (records_per_buffer c0).
    change (samples_per_record c) with (samples_per_record c0).
    change (number_of_channels c) with (number_of_channels c0).
    rewrite I1, I4, I5.
    destruct I6 as [-> | ->]; [left|right]; split; reflexivity.
  - intros shp c' Hs. apply data_shape_channels in Hs.
    destruct Hs as [-> ->]. split; exact N2.
  - intros raw bn c' Hh. apply handle_buffer_frame in Hh.
    destruct Hh as (Hc & _). apply config_fields in Hc.
    destruct Hc as (_ & _ & _ & _ & _ & _ & -> & _). exact N2.
  - intros out Ho.
    change 2%nat with (Z.to_nat 2). rewrite <- N2.
    apply post_acquire_channels; [|exact Ho].
    intros acc2 Hacc2. rewrite Hacc2, Hacc in G5. cbn [option_map] in G5.
    injection G5 as ->. now rewrite N2.
Qed.

End Channels.

Lemma channels_fixed_at_two_witness :
  exists (c0 c1 c2 : ctl) (out : output),
    init AvgIQCtl ats9360 1000000000 4 1 2 = Ok c0 /\
    pre_start_capture cos2pi_quarter sin2pi_quarter
      (set_demod_frq c0 (Some 250000000%Q)) = Ok c1 /\
    deliver c1 0 [one_period; one_period] = Ok c2 /\
    post_acquire c2 = Ok out /\
    number_of_channels c2 = 2 /\
    buffer_shape c2 = Some [1; 4; 2] /\
    Forall (fun s => last s 0%nat = 2%nat) (out_shapes out).
Proof.
  destruct (init AvgIQCtl ats9360 1000000000 4 1 2) as [c0|e] eqn:E0;
    [|vm_compute in E0; discriminate E0].
  destruct (pre_start_capture cos2pi_quarter sin2pi_quarter
              (set_demod_frq c0 (Some 250000000%Q))) as [c1|e] eqn:E1.
  2: { vm_compute in E0. injection E0 as <-. vm_compute in E1. discriminate E1. }
  destruct (deliver c1 0 [one_period; one_period]) as [c2|e] eqn:E2.
  2: { vm_compute in E0. injection E0 as <-. vm_compute in E1. injection E1 as <-.
       vm_compute in E2. discriminate E2. }
  destruct (post_acquire c2) as [out|e] eqn:E3.
  2: { vm_compute in E0. injection E0 as <-. vm_compute in E1. injection E1 as <-.
       vm_compute in E2. injection E2 as <-. vm_compute in E3. discriminate E3. }
  destruct (channels_fixed_at_two cos2pi_quarter sin2pi_quarter AvgIQCtl ats9360
              1000000000 4 1 2 (Some 250000000%Q) c0 c1 c2
              [one_period; one_period] E0 E1 E2)
    as (_ & _ & N2 & B & _ & _ & O).
  exists c0, c1, c2, out. repeat (split; [first [reflexivity | assumption]|]).
  split; [|exact (O out E3)].
  destruct B as [[_ B]|[Bo _]]; [exact B|].
  exfalso. vm_compute in E0. injection E0 as <-.
  vm_compute in E1. injection E1 as <-.
  vm_compute in E2. injection E2 as <-. discriminate Bo.
Defined.

(* ================================================================== *)
(** * Further properties of the controllers *)

(** ** Construction *)

(** X1.  The constructor accepts a card of 8 or of 12 bits per sample and
    raises [ValueError] for any other depth.  The accumulator of a class
    that averages over buffers or over records is twice as wide as the
    samples the card delivers (8 bits for an 8-bit card, 16 for a 12-bit
    card); that of the other classes is as wide as the samples. *)
Theorem init_bit_depth (v : variant) (card : idn) (sr : Q) (spr rpb bpa : Z) :
  let bits := bits_per_sample card in
  let sample_width := if bits =? 8 then 8 else 16 in
  (bits = 8 \/ bits = 12 ->
   exists c : ctl,
     init v card sr spr rpb bpa = Ok c /\ _nbits c = bits /\
     width (_datadtype c) =
       (if averages_buffers v || averages_records v then 2 else 1) * sample_width) /\
  (bits <> 8 -> bits <> 12 -> init v card sr spr rpb bpa = Raise ValueError).
Proof.
  intros bits sample_width. subst sample_width. split.
  - intros [H|H]; unfold init; fold bits; rewrite H; cbn [Z.eqb Pos.eqb bind];
      eexists; (split; [reflexivity|]); cbn [_nbits _datadtype];
      (split; [reflexivity|]);
      destruct (averages_buffers v || averages_records v); reflexivity.
  - intros H8 H12. unfold init. fold bits.
    destruct (Z.eqb_spec bits 8); [contradiction|].
    destruct (Z.eqb_spec bits 12); [contradiction|]. reflexivity.
Qed.

(** ** [time2samples] at and below the multiples of 128 *)





(* ================================================================== *)
(** ** [update_acquisitionkwargs] *)

Section KwargsFacts.
Variable V : Type.
Variable of_int : Z -> V.

Lemma dict_get_set_eq (k : string) (v : V) (d : dict V) :
  dict_get k (dict_set k v d) = Some v.
Proof.
  induction d as [|[k' v'] d IH]; cbn [dict_set dict_get].
  - now rewrite String.eqb_refl.
  - destruct (String.eqb_spec k k') as [->|N]; cbn [dict_get].
    + now rewrite String.eqb_refl.
    + destruct (String.eqb_spec k k'); [contradiction|exact IH].
Qed.

Lemma dict_get_set_ne (k k' : string) (v : V) (d : dict V) :
  k <> k' -> dict_get k' (dict_set k v d) = dict_get k' d.
Proof.
  intro N. induction d as [|[k1 v1] d IH]; cbn [dict_set dict_get].
  - destruct (String.eqb_spec k' k); [congruence|reflexivity].
  - destruct (String.eqb_spec k k1) as [->|N1]; cbn [dict_get].
    + destruct (String.eqb_spec k' k1); [congruence|reflexivity].
    + destruct (String.eqb_spec k' k1); [reflexivity|exact IH].
Qed.

Lemma dict_get_absent (k : string) (d : dict V) :
  ~ In k (map fst d) -> dict_get k d = None.
Proof.
  induction d as [|[k' v'] d IH]; cbn [dict_get map fst In]; [reflexivity|].
  intro N. destruct (String.eqb_spec k k') as [->|_]; [tauto|].
  apply IH. tauto.
Qed.

Lemma dict_set_keys (k : string) (v : V) (d : dict V) :
  map fst (dict_set k v d)
  = if dict_mem k d then map fst d else map fst d ++ [k].
Proof.
  unfold dict_mem. induction d as [|[k' v'] d IH]; cbn [dict_set dict_get map fst app].
  - reflexivity.
  - destruct (String.eqb_spec k k') as [->|N]; cbn [map fst]; [reflexivity|].
    rewrite IH. now destruct (dict_get k d).
Qed.

Lemma dict_get_present (k : string) (d : dict V) :
  dict_get k d = None -> ~ In k (map fst d).
Proof.
  induction d as [|[k' v'] d IH]; cbn [dict_get map fst In]; [tauto|].
  destruct (String.eqb_spec k k') as [->|N]; [discriminate|].
  intros H [E|I]; [congruence|]. now apply IH.
Qed.


Lemma dict_get_update (k : string) (d new : dict V) :
  NoDup (map fst new) ->
  dict_get k (dict_update d new) =
  match dict_get k new with
  | Some v => Some v
  | None => dict_get k d
  end.
Proof.
  unfold dict_update. revert d.
  induction new as [|[k1 v1] new IH]; intros d Hn;
    cbn [fold_left dict_get fst snd map] in *.
  - reflexivity.
  - apply NoDup_cons_iff in Hn. destruct Hn as [Hk Hn].
    rewrite (IH _ Hn).
    destruct (String.eqb_spec k k1) as [->|N].
    + rewrite (dict_get_absent _ _ Hk). apply dict_get_set_eq.
    + rewrite dict_get_set_ne by congruence. reflexivity.
Qed.


(** With an acquisition time set, no record length passed and a sample
    rate of zero, the division in [time2samples] raises. *)
Lemma update_acquisitionkwargs_zero_rate (c : ctl) (old kwargs : dict V) (t : Q) :
  acq_time c = Some t -> ~ (t == 0)%Q ->
  dict_get "samples_per_record" kwargs = None ->
  (sample_rate c == 0)%Q ->
  update_acquisitionkwargs of_int c old kwargs = Raise ZeroDivisionError.
Proof.
  intros Ht Hz Hn Hsr. unfold update_acquisitionkwargs, dict_mem.
  rewrite Ht, Hn.
  destruct (Qeq_bool t 0) eqn:Q0; [apply Qeq_bool_iff in Q0; contradiction|].
  cbn [negb andb]. unfold time2samples.
  apply Qeq_bool_iff in Hsr. rewrite Hsr. reflexivity.
Qed.

End KwargsFacts.


(* ================================================================== *)
(** ** Allocation *)

Lemma np_zeros_inv (shp : list Z) (d : ndarray Z) :
  np_zeros shp = Ok d ->
  d = NdArray (map Z.to_nat shp) (repeat 0 (size_of (map Z.to_nat shp))) /\
  Forall (fun n => 0 <= n) shp.
Proof.
  unfold np_zeros. intro H.
  destruct (forallb (fun d => 0 <=? d) shp) eqn:F; [|discriminate H].
  injection H as <-. split; [reflexivity|].
  rewrite forallb_forall in F. apply Forall_forall. intros n Hn.
  apply Z.leb_le. now apply F.
Qed.


Section Allocation.
Variables cos2pi sin2pi : Q -> Q.

Lemma data_shape_accumulator (c c' : ctl) (shp : list Z) :
  demodulates (cls c) = false ->
  data_shape cos2pi sin2pi c = Ok (shp, c') ->
  shp = accumulator_shape c.
Proof.
  unfold data_shape, accumulator_shape. intros Hv H.
  destruct (cls c); try discriminate Hv.
  - destruct (negb (_average_buffers c)); now injection H as <- _.
  - now injection H as <- _.
  - now injection H as <- _.
Qed.

(** The accumulator that [pre_start_capture] allocates holds zeros only,
    and no length of its shape is negative. *)
Lemma pre_start_capture_zeros (c c1 : ctl) :
  do_allocate_data c = true ->
  pre_start_capture cos2pi sin2pi c = Ok c1 ->
  let shp := map Z.to_nat (accumulator_shape c) in
  data c1 = Some (NdArray shp (repeat 0 (size_of shp))) /\
  Forall (fun n => 0 <= n) (accumulator_shape c).
Proof.
  intros Ha H shp.
  unfold pre_start_capture in H. bind_inv H.
  pose proof (base_pre_start_capture_config cos2pi sin2pi _ _ E) as (F & _).
  apply config_fields in F.
  destruct F as (Fv & _ & Fs & Fr & Fb & _ & Fn & Fa & _).
  unfold base_pre_start_capture in E. bind_inv E.
  cbn [do_allocate_data set_buffer_shape] in E. rewrite Ha in E.
  bind_inv E. destruct (buffers_per_acquisition a1 <? 0); [discriminate E|].
  injection E as <-.
  unfold allocate_data in E1.
  destruct (Qeq_bool _ 0); [discriminate E1|].
  bind_inv E1. destruct a as [s0 c2]. cbn [fst snd] in E1.
  bind_inv E1. injection E1 as <-.
  cbn in Fv, Fs, Fr, Fb, Fn, Fa.
  cbn [cls set_handling_times set_data] in H.
  subst shp. unfold accumulator_shape. rewrite <- Fv.
  destruct (cls c2) eqn:V.
  1, 3, 4:
    injection H as <-; cbn [data set_handling_times set_data];
    apply data_shape_accumulator in E; [|cbn [cls set_tvals set_buffer_shape]; rewrite <- Fv; reflexivity];
    apply np_zeros_inv in E2; destruct E2 as [-> Hnn];
    subst s0; unfold accumulator_shape in *;
    cbn [cls set_tvals set_buffer_shape _average_buffers buffers_per_acquisition
         records_per_buffer samples_per_record number_of_channels] in *;
    rewrite <- Fv in *; split; [reflexivity|exact Hnn].
  all: bind_inv H; injection H as <-; cbn [data set_data];
    match goal with
    | Z : np_zeros _ = Ok _ |- _ => apply np_zeros_inv in Z; destruct Z as [-> Hnn]
    end;
    cbn [buffers_per_acquisition records_per_buffer samples_per_record
         number_of_channels set_handling_times set_data] in *;
    rewrite ?Fs, ?Fr, ?Fb, ?Fn in Hnn |- *; split; [reflexivity|exact Hnn].
Qed.


(** X5.  [pre_start_capture] of a controller that allocates its data
    leaves an accumulator of zeros: one slot per buffer of
    (records, samples, channels) for [RawAcqCtl] and [DemodCtl], a single
    (records, samples, channels) for the classes that average over
    buffers, one slot per buffer of (samples, channels) for those that
    average over records.  The demodulating classes hold raw samples on
    the sample axis, not periods.  No length is negative, and
    [handling_times] has one entry per buffer. *)
Theorem pre_start_capture_accumulator (c c1 : ctl) :
  do_allocate_data c = true ->
  pre_start_capture cos2pi sin2pi c = Ok c1 ->
  let shp := map Z.to_nat (accumulator_shape c) in
  data c1 = Some (NdArray shp (repeat 0 (size_of shp))) /\
  Forall (fun n => 0 <= n) (accumulator_shape c) /\
  0 <= buffers_per_acquisition c /\
  handling_times c1 = Some (Z.to_nat (buffers_per_acquisition c)).
Proof.
  intros Ha H shp.
  pose proof (pre_start_capture_config cos2pi sin2pi _ _ H) as (_ & _ & Hh & Hb).
  pose proof (pre_start_capture_zeros c c1 Ha H) as K. cbv zeta in K.
  subst shp. tauto.
Qed.

End Allocation.

Section AllocationSucceeds.
Variables cos2pi sin2pi : Q -> Q.



End AllocationSucceeds.


Lemma pre_start_capture_accumulator_witness :
  exists c c1 : ctl,
    controller AvgRecDemodCtl 1000000000 8 3 5 250000000 = Ok c /\
    pre_start_capture cos2pi_quarter sin2pi_quarter c = Ok c1 /\
    data c1 = Some (NdArray [5; 8; 2]%nat (repeat 0 80%nat)) /\
    handling_times c1 = Some 5%nat.
Proof.
  destruct (controller AvgRecDemodCtl 1000000000 8 3 5 250000000) as [c|e] eqn:Ec;
    [|vm_compute in Ec; discriminate Ec].
  destruct (pre_start_capture cos2pi_quarter sin2pi_quarter c) as [c1|e] eqn:E1.
  2: { vm_compute in Ec. injection Ec as <-. vm_compute in E1. discriminate E1. }
  assert (Ha : do_allocate_data c = true).
  { vm_compute in Ec. injection Ec as <-. reflexivity. }
  destruct (pre_start_capture_accumulator cos2pi_quarter sin2pi_quarter c c1 Ha E1)
    as (Hd & _ & _ & Hh).
  exists c, c1. split; [reflexivity|]. split; [exact E1|].
  assert (F : accumulator_shape c = [5; 8; 2] /\ buffers_per_acquisition c = 5).
  { vm_compute in Ec. injection Ec as <-. split; reflexivity. }
  destruct F as (F1 & F2). rewrite F1 in Hd. rewrite F2 in Hh.
  split; [exact Hd|exact Hh].
Defined.

(* ================================================================== *)
(** ** The time axes *)





Section TimeAxes.
Variables cos2pi sin2pi : Q -> Q.


End TimeAxes.


(* ================================================================== *)
(** ** Errors of the buffer callback *)

Lemma np_reshape_wrong_size {A : Type} (a : ndarray A) (newshape : list Z) :
  Forall (fun n => 0 <= n) newshape ->
  size_of (shape a) <> size_of (map Z.to_nat newshape) ->
  np_reshape a newshape = Raise ValueError.
Proof.
  intros Hn Hs. unfold np_reshape.
  assert (E : filter (fun d => 0 <=? d) newshape = newshape).
  { apply forallb_filter_id. apply forallb_forall. intros n Hi.
    apply Z.leb_le. rewrite Forall_forall in Hn. now apply Hn. }
  rewrite E, Nat.sub_diag.
  destruct (Nat.eqb_spec (size_of (map Z.to_nat newshape)) (size_of (shape a)));
    [congruence|reflexivity].
Qed.

(** X8.  A buffer whose length is not the number of elements of the
    buffer shape is refused with [ValueError], whatever the buffer number
    and the class. *)
Theorem handle_buffer_wrong_size (c : ctl) (raw : list Z) (bn : option Z)
  (bs : list Z) :
  buffer_shape c = Some bs ->
  Forall (fun n => 0 <= n) bs ->
  length raw <> size_of (map Z.to_nat bs) ->
  handle_buffer c raw bn = Raise ValueError.
Proof.
  intros Hb Hn Hl.
  assert (V : buffer_view c raw = Raise ValueError).
  { unfold buffer_view. rewrite Hb. cbn [of_option bind].
    rewrite np_reshape_wrong_size; [reflexivity|exact Hn|].
    cbn [shape size_of fold_right]. lia. }
  unfold handle_buffer. rewrite V. reflexivity.
Qed.

Lemma handle_buffer_wrong_size_witness :
  exists c : ctl,
    started RawAcqCtl = Ok c /\
    handle_buffer c [1; 2; 3] (Some 0) = Raise ValueError.
Proof.
  destruct (started RawAcqCtl) as [c|e] eqn:Ec; [|vm_compute in Ec; discriminate Ec].
  exists c. split; [reflexivity|].
  apply (handle_buffer_wrong_size c [1; 2; 3] (Some 0) [1; 2; 2]).
  - vm_compute in Ec. injection Ec as <-. reflexivity.
  - repeat constructor; lia.
  - cbn. lia.
Defined.

Lemma py_index_out_of_range (n : nat) (k : Z) :
  Z.of_nat n <= k \/ k < - Z.of_nat n -> py_index n k = Raise IndexError.
Proof.
  intro H. unfold py_index.
  destruct (Z.leb_spec 0 k), (Z.ltb_spec k (Z.of_nat n)),
    (Z.leb_spec (- Z.of_nat n) k), (Z.ltb_spec k 0); cbn; try reflexivity; lia.
Qed.

Lemma py_index_negative (n : nat) (k : Z) :
  - Z.of_nat n <= k < 0 -> py_index n k = py_index n (Z.of_nat n + k).
Proof.
  intro H. unfold py_index.
  destruct (Z.leb_spec 0 k); [lia|]. cbn [andb].
  destruct (Z.leb_spec (- Z.of_nat n) k); [|lia].
  destruct (Z.ltb_spec k 0); [|lia]. cbn [andb].
  destruct (Z.leb_spec 0 (Z.of_nat n + k)); [|lia].
  destruct (Z.ltb_spec (Z.of_nat n + k) (Z.of_nat n)); [|lia]. reflexivity.
Qed.

(** X9.  Without buffer averaging, a buffer number that is not an index
    of the accumulator's first axis, counting from the start or, when
    negative, from the end, is refused with [IndexError]. *)
Theorem handle_buffer_index_error (c : ctl) (raw : list Z) (k : Z)
  (v : ndarray Z) (p : processed) (acc : ndarray Z) (n : nat) (rest : list nat) :
  _average_buffers c = false ->
  buffer_view c raw = Ok v -> process_buffer c v = Ok p ->
  data c = Some acc -> shape acc = n :: rest ->
  Z.of_nat n <= k \/ k < - Z.of_nat n ->
  handle_buffer c raw (Some k) = Raise IndexError.
Proof.
  intros Ha Hv Hp Hd Hs Hk. unfold handle_buffer.
  rewrite Hv. cbn [bind]. rewrite Ha, Hp, Hd. cbn [bind of_option].
  unfold np_setitem. rewrite Hs, (py_index_out_of_range n k Hk). reflexivity.
Qed.

Lemma handle_buffer_index_error_witness :
  exists c : ctl,
    started RawAcqCtl = Ok c /\
    handle_buffer c full_scale_buffer (Some 2) = Raise IndexError /\
    handle_buffer c full_scale_buffer (Some (-3)) = Raise IndexError.
Proof.
  destruct (started RawAcqCtl) as [c|e] eqn:Ec; [|vm_compute in Ec; discriminate Ec].
  set (v := NdArray [1; 2; 2]%nat full_scale_buffer).
  set (zeros := NdArray [2; 1; 2; 2]%nat (repeat 0 8)).
  assert (F : _average_buffers c = false /\
              buffer_view c full_scale_buffer = Ok v /\
              process_buffer c v = Ok (PInt v) /\ data c = Some zeros).
  { vm_compute in Ec. injection Ec as <-. repeat split. }
  destruct F as (F1 & F2 & F3 & F4).
  exists c. split; [reflexivity|]. split.
  - apply (handle_buffer_index_error c _ 2 v (PInt v) zeros 2 [1; 2; 2]%nat);
      try assumption; try reflexivity. left. cbn. lia.
  - apply (handle_buffer_index_error c _ (-3) v (PInt v) zeros 2 [1; 2; 2]%nat);
      try assumption; try reflexivity. right. cbn. lia.
Defined.

(** X10.  Without buffer averaging, a negative buffer number [k] that
    counts from the end of an accumulator of [n] slots is taken as
    [n + k]: the buffer is stored there, not refused. *)
Theorem handle_buffer_negative_index (c : ctl) (raw : list Z) (k : Z)
  (acc : ndarray Z) (n : nat) (rest : list nat) :
  _average_buffers c = false ->
  data c = Some acc -> shape acc = n :: rest ->
  handling_times c = Some n ->
  - Z.of_nat n <= k < 0 ->
  handle_buffer c raw (Some k) = handle_buffer c raw (Some (Z.of_nat n + k)).
Proof.
  intros Ha Hd Hs Hh Hk. unfold handle_buffer.
  destruct (buffer_view c raw) as [v|e]; [|reflexivity]. cbn [bind].
  rewrite Ha. destruct (process_buffer c v) as [p|e]; [|reflexivity].
  cbn [bind]. rewrite Hd. cbn [of_option bind].
  unfold np_setitem. rewrite Hs, (py_index_negative n k Hk).
  destruct (py_index n (Z.of_nat n + k)); [|reflexivity]. cbn [bind].
  destruct (broadcast_to 0 rest _); [|reflexivity]. cbn [bind].
  unfold touch_handling_time. cbn [handling_times set_data]. rewrite Hh.
  cbn [of_option bind]. rewrite (py_index_negative n k Hk). reflexivity.
Qed.

Lemma handle_buffer_negative_index_witness :
  exists (c c' : ctl) (acc : ndarray Z),
    started RawAcqCtl = Ok c /\
    handle_buffer c full_scale_buffer (Some (-1)) = Ok c' /\
    data c' = Some acc /\
    slot acc 1 = NdArray [1; 2; 2]%nat full_scale_buffer.
Proof.
  destruct (started RawAcqCtl) as [c|e] eqn:Ec; [|vm_compute in Ec; discriminate Ec].
  set (zeros := NdArray [2; 1; 2; 2]%nat (repeat 0 8)).
  assert (F : _average_buffers c = false /\ data c = Some zeros /\
              handling_times c = Some 2%nat).
  { vm_compute in Ec. injection Ec as <-. repeat split. }
  destruct F as (F1 & F2 & F3).
  pose proof (handle_buffer_negative_index c full_scale_buffer (-1) zeros 2
                [1; 2; 2]%nat F1 F2 eq_refl F3 ltac:(cbn; lia)) as E.
  change (Z.of_nat 2 + -1) with 1 in E.
  destruct (handle_buffer c full_scale_buffer (Some 1)) as [c'|e] eqn:E1.
  2: { vm_compute in Ec. injection Ec as <-. vm_compute in E1. discriminate E1. }
  destruct (data c') as [acc|] eqn:Ed.
  2: { vm_compute in Ec. injection Ec as <-. vm_compute in E1. injection E1 as <-.
       discriminate Ed. }
  exists c, c', acc. split; [reflexivity|]. split; [exact E|].
  split; [exact Ed|].
  vm_compute in Ec. injection Ec as <-. vm_compute in E1. injection E1 as <-.
  cbn in Ed. injection Ed as <-. reflexivity.
Defined.

(** X11.  A class that averages over records cannot take a buffer
    without a buffer number: the mean is a float array, and adding it in
    place to the unsigned accumulator raises [TypeError]. *)
Theorem handle_buffer_record_mean_needs_index (c : ctl) (raw : list Z)
  (v : ndarray Z) (p : processed) :
  averages_records (cls c) = true ->
  buffer_view c raw = Ok v -> process_buffer c v = Ok p ->
  handle_buffer c raw None = Raise TypeError.
Proof.
  intros Hr Hv Hp. unfold handle_buffer. rewrite Hv. cbn [bind]. rewrite Hp.
  cbn [bind]. unfold process_buffer in Hp. rewrite Hr in Hp.
  destruct (np_mean 0 (nd_map inject_Z v)) as [m|e]; [|discriminate Hp].
  injection Hp as <-.
  destruct (data c); reflexivity.
Qed.

Lemma handle_buffer_record_mean_needs_index_witness :
  exists c : ctl,
    started AvgRecCtl = Ok c /\
    handle_buffer c full_scale_buffer None = Raise TypeError.
Proof.
  destruct (started AvgRecCtl) as [c|e] eqn:Ec; [|vm_compute in Ec; discriminate Ec].
  set (v := NdArray [1; 2; 2]%nat full_scale_buffer).
  destruct (process_buffer c v) as [p|e] eqn:Ep.
  2: { vm_compute in Ec. injection Ec as <-. vm_compute in Ep. discriminate Ep. }
  exists c. split; [reflexivity|].
  apply (handle_buffer_record_mean_needs_index c _ v p); [| |exact Ep];
    vm_compute in Ec; injection Ec as <-; reflexivity.
Defined.

(* ================================================================== *)
(** ** What one buffer callback leaves in the accumulator *)

(** The controller after a buffer is added to the accumulator, and after
    it is stored in slot [k]. *)
Lemma handle_buffer_add_eq (c : ctl) (raw : list Z) (bn : option Z)
  (v x acc : ndarray Z) (m : nat) :
  buffer_view c raw = Ok v -> process_buffer c v = Ok (PInt x) ->
  data c = Some acc -> shape x = shape acc ->
  handling_times c = Some m -> (0 < m)%nat ->
  _average_buffers c = true \/ bn = None ->
  handle_buffer c raw bn =
  Ok (set_data c (Some (NdArray (shape acc)
        (zip_with (fun u w => wrap (_datadtype c) (u + w))
           (elems acc) (elems x))))).
Proof.
  intros Hv Hp Hd Hs Hm Hm0 Hmode.
  unfold handle_buffer. rewrite Hv. cbn [bind].
  assert (B : np_iadd (_datadtype c) acc x
              = Ok (NdArray (shape acc)
                      (zip_with (fun u w => wrap (_datadtype c) (u + w))
                         (elems acc) (elems x)))).
  { unfold np_iadd. rewrite (broadcast_to_same 0 x (shape acc) Hs). reflexivity. }
  assert (T : forall a, touch_handling_time (set_data c (Some a)) 0
                        = Ok (set_data c (Some a))).
  { intro a. apply (touch_handling_time_ok _ m); [exact Hm|lia]. }
  destruct Hmode as [Ha| ->].
  - rewrite Ha. destruct bn; rewrite Hp, Hd; cbn [bind of_option];
      rewrite B; cbn [bind]; apply T.
  - rewrite Hp, Hd. cbn [bind of_option]. rewrite B. cbn [bind]. apply T.
Qed.

Lemma handle_buffer_store_eq (c : ctl) (raw : list Z) (k : Z)
  (v : ndarray Z) (p : processed) (acc : ndarray Z) (n m : nat) (rest : list nat) :
  buffer_view c raw = Ok v -> process_buffer c v = Ok p ->
  data c = Some acc -> shape acc = n :: rest ->
  _average_buffers c = false ->
  handling_times c = Some m -> 0 <= k < Z.of_nat n -> k < Z.of_nat m ->
  shape (store_as (_datadtype c) p) = rest ->
  handle_buffer c raw (Some k) =
  Ok (set_data c (Some (NdArray (shape acc)
        (firstn (Z.to_nat k * size_of rest) (elems acc)
         ++ elems (store_as (_datadtype c) p)
         ++ skipn ((Z.to_nat k + 1) * size_of rest) (elems acc))))).
Proof.
  intros Hv Hp Hd Hs Ha Hm Hk Hkm Hps.
  unfold handle_buffer. rewrite Hv. cbn [bind]. rewrite Ha, Hp, Hd.
  cbn [bind of_option].
  unfold np_setitem. rewrite Hs, py_index_in_range by exact Hk. cbn [bind].
  rewrite Hps, strip_ones_id by lia.
  rewrite broadcast_to_same by reflexivity. cbn [bind elems].
  apply (touch_handling_time_ok _ m); [exact Hm|lia].
Qed.

(** The slots of an accumulator after slot [i] is overwritten. *)
Lemma overwritten_slots (acc : ndarray Z) (n i : nat) (rest : list nat)
  (xs : list Z) :
  wf acc -> shape acc = n :: rest -> (i < n)%nat ->
  length xs = size_of rest ->
  let acc' := NdArray (shape acc)
                (firstn (i * size_of rest) (elems acc) ++ xs
                 ++ skipn ((i + 1) * size_of rest) (elems acc)) in
  wf acc' /\
  slot acc' i = NdArray rest xs /\
  forall j : nat, j <> i -> slot acc' j = slot acc j.
Proof.
  intros Hwf Hs Hi Lx. cbv zeta. set (sz := size_of rest) in *.
  assert (La : length (elems acc) = (n * sz)%nat)
    by (unfold wf in Hwf; rewrite Hwf, Hs; reflexivity).
  assert (Hfit : (i * sz + length xs <= length (elems acc))%nat).
  { rewrite Lx, La. replace (i * sz + sz)%nat with ((i + 1) * sz)%nat by ring.
    apply Nat.mul_le_mono_r. lia. }
  assert (Enew : firstn (i * sz) (elems acc) ++ xs
                 ++ skipn ((i + 1) * sz) (elems acc)
                 = firstn (i * sz) (elems acc) ++ xs
                   ++ skipn (i * sz + length xs) (elems acc)).
  { rewrite Lx. do 3 f_equal. ring. }
  rewrite Enew. clear Enew.
  split; [|split].
  - unfold wf. cbn [shape elems]. unfold wf in Hwf. rewrite <- Hwf.
    rewrite !length_app, length_firstn, length_skipn.
    generalize dependent (i * sz)%nat. intros. lia.
  - unfold slot. cbn [shape elems]. rewrite Hs. cbn [tl]. fold sz. f_equal.
    etransitivity; [|exact (segment_exact _ xs (i * sz) Hfit)].
    f_equal. symmetry. exact Lx.
  - intros j Hne. unfold slot. cbn [shape elems]. rewrite Hs. cbn [tl]. fold sz.
    f_equal. apply segment_ext. intros q Hq.
    rewrite splice_nth_error by exact Hfit. rewrite Lx.
    destruct (Nat.ltb_spec q (i * sz)); [reflexivity|].
    destruct (Nat.ltb_spec q (i * sz + sz)); [|reflexivity].
    exfalso.
    assert (Hlt : (j < i \/ i < j)%nat) by lia.
    destruct Hlt as [Hlt|Hlt].
    + assert ((j + 1) * sz <= i * sz)%nat by (apply Nat.mul_le_mono_r; lia). lia.
    + assert ((i + 1) * sz <= j * sz)%nat by (apply Nat.mul_le_mono_r; lia). lia.
Qed.

(* ================================================================== *)
(** ** A whole series of buffers *)

Lemma pow_width_pos (t : dtype) : 0 < 2 ^ width t.
Proof. destruct t; reflexivity. Qed.

Lemma column_sum_bound (vs : list (ndarray Z)) (j : nat) (B : Z) :
  0 < B ->
  Forall (fun v => Forall (fun s => 0 <= s < B) (elems v)) vs ->
  0 <= column_sum vs j <= Z.of_nat (length vs) * (B - 1).
Proof.
  intros HB H. unfold column_sum.
  induction H as [|v vs Hv _ IH]; cbn [map fold_right length].
  - lia.
  - assert (Hn : 0 <= nth j (elems v) 0 <= B - 1).
    { destruct (Nat.lt_ge_cases j (length (elems v))) as [Hj|Hj].
      - rewrite Forall_forall in Hv.
        specialize (Hv _ (nth_In _ 0 Hj)). lia.
      - rewrite nth_overflow by exact Hj. lia. }
    nia.
Qed.

(** X12.  With buffer averaging in effect and the buffers taken as they
    come, a series of buffers leaves in the accumulator, element by
    element, the sum of what it held and of all the buffers, modulo two
    to the width of its type.  From an accumulator of zeros, with samples
    of [sw] bits, a type of twice that width and at most [2 ^ sw] buffers,
    nothing wraps: the accumulator holds the sums themselves. *)
Theorem deliver_accumulates_sum (bufs : list (list Z)) (vs : list (ndarray Z))
  (c : ctl) (acc : ndarray Z) (i : Z) (m : nat) :
  _average_buffers c = true -> averages_records (cls c) = false ->
  data c = Some acc -> wf acc ->
  Forall (fun x => 0 <= x < 2 ^ width (_datadtype c)) (elems acc) ->
  handling_times c = Some m -> (0 < m)%nat ->
  Forall2 (fun b v => buffer_view c b = Ok v /\ shape v = shape acc /\ wf v)
    bufs vs ->
  exists (c' : ctl) (acc' : ndarray Z),
    deliver c i bufs = Ok c' /\ data c' = Some acc' /\
    shape acc' = shape acc /\ length (elems acc') = length (elems acc) /\
    (forall j : nat, (j < length (elems acc))%nat ->
       nth j (elems acc') 0
       = (nth j (elems acc) 0 + column_sum vs j) mod 2 ^ width (_datadtype c)) /\
    (forall sw : Z,
       0 <= sw -> width (_datadtype c) = 2 * sw ->
       Forall (fun x => x = 0) (elems acc) ->
       Forall (fun v => Forall (fun s => 0 <= s < 2 ^ sw) (elems v)) vs ->
       Z.of_nat (length bufs) <= 2 ^ sw ->
       forall j : nat, (j < length (elems acc))%nat ->
         nth j (elems acc') 0 = column_sum vs j).
Proof.
  intros Ha Hr Hd Hwf Hrange Hm Hm0 HF.
  assert (Main : exists (c' : ctl) (acc' : ndarray Z),
    deliver c i bufs = Ok c' /\ data c' = Some acc' /\
    shape acc' = shape acc /\ length (elems acc') = length (elems acc) /\
    (forall j : nat, (j < length (elems acc))%nat ->
       nth j (elems acc') 0
       = (nth j (elems acc) 0 + column_sum vs j) mod 2 ^ width (_datadtype c))).
  { clear - Ha Hr Hd Hwf Hrange Hm Hm0 HF.
    revert vs c acc i Ha Hr Hd Hwf Hrange Hm HF.
    induction bufs as [|b bufs IH]; intros vs c acc i Ha Hr Hd Hwf Hrange Hm HF.
    - inversion HF; subst. exists c, acc. cbn [deliver].
      repeat (split; [first [reflexivity | assumption]|]).
      intros j Hj. unfold column_sum. cbn. rewrite Z.add_0_r.
      rewrite Forall_forall in Hrange.
      symmetry. apply Z.mod_small. apply Hrange. now apply nth_In.
    - inversion HF as [|b0 v bufs0 vs0 (Hv & Hs & Hvw) HF' E1 E2]; subst.
      assert (Hp : process_buffer c v = Ok (PInt v))
        by (unfold process_buffer; now rewrite Hr).
      set (acc1 := NdArray (shape acc)
                     (zip_with (fun u w => wrap (_datadtype c) (u + w))
                        (elems acc) (elems v))).
      assert (L : length (elems acc) = length (elems v)).
      { unfold wf in Hwf, Hvw. rewrite Hwf, Hvw, Hs. reflexivity. }
      assert (L1 : length (elems acc1) = length (elems acc))
        by (cbn [acc1 elems]; now apply zip_with_length).
      cbn [deliver].
      rewrite (handle_buffer_add_eq c b (Some i) v v acc m Hv Hp Hd Hs Hm Hm0
                 (or_introl Ha)).
      cbn [bind]. fold acc1.
      assert (W1 : wf acc1) by (unfold wf; rewrite L1; exact Hwf).
      assert (R1 : Forall (fun x => 0 <= x < 2 ^ width (_datadtype c)) (elems acc1)).
      { apply Forall_forall. intros x Hx.
        apply (In_nth _ _ 0) in Hx. destruct Hx as (q & Hq & <-).
        rewrite L1 in Hq. cbn [acc1 elems].
        rewrite (zip_with_nth (fun u w => wrap (_datadtype c) (u + w)) 0 0 0)
          by lia.
        unfold wrap. apply Z.mod_pos_bound. apply pow_width_pos. }
      assert (F1 : Forall2 (fun b v => buffer_view (set_data c (Some acc1)) b = Ok v
                                       /\ shape v = shape acc1 /\ wf v) bufs vs0).
      { eapply Forall2_impl; [|exact HF'].
        intros b' v' (H1 & H2 & H3). repeat split; assumption. }
      destruct (IH vs0 (set_data c (Some acc1)) acc1 (i + 1) Ha Hr eq_refl W1 R1 Hm F1)
        as (c' & acc' & E & Ed & Es & El & Hn).
      exists c', acc'. split; [exact E|]. split; [exact Ed|].
      split; [exact Es|]. split; [lia|].
      intros j Hj. rewrite Hn by lia. cbn [acc1 elems _datadtype set_data].
      rewrite (zip_with_nth (fun u w => wrap (_datadtype c) (u + w)) 0 0 0)
        by lia.
      unfold wrap, column_sum. cbn [map fold_right].
      rewrite Z.add_mod_idemp_l, Z.add_assoc; [reflexivity|].
      pose proof (pow_width_pos (_datadtype c)). lia. }
  destruct Main as (c' & acc' & E & Ed & Es & El & Hn).
  exists c', acc'. repeat (split; [assumption|]).
  intros sw Hsw Hw Hz Hsamples Hcount j Hj.
  rewrite (Hn j Hj).
  assert (Z0 : nth j (elems acc) 0 = 0).
  { rewrite Forall_forall in Hz. apply Hz. now apply nth_In. }
  rewrite Z0, Z.add_0_l.
  assert (P : 0 < 2 ^ sw) by (apply Z.pow_pos_nonneg; lia).
  assert (Lv : length vs = length bufs)
    by (symmetry; eapply Forall2_length; exact HF).
  pose proof (column_sum_bound vs j (2 ^ sw) P Hsamples) as B.
  apply Z.mod_small. rewrite Hw.
  replace (2 * sw) with (sw + sw) by lia. rewrite Z.pow_add_r by lia.
  rewrite Lv in B. nia.
Qed.

Lemma deliver_accumulates_sum_witness :
  exists (c c' : ctl) (acc' : ndarray Z),
    started AvgBufCtl = Ok c /\
    deliver c 0 [full_scale_buffer; full_scale_buffer] = Ok c' /\
    data c' = Some acc' /\
    nth 0 (elems acc') 0 = 131040 /\ nth 1 (elems acc') 0 = 32.
Proof.
  destruct (started AvgBufCtl) as [c|e] eqn:Ec; [|vm_compute in Ec; discriminate Ec].
  set (v := NdArray [1; 2; 2]%nat full_scale_buffer).
  set (zeros := NdArray [1; 2; 2]%nat [0; 0; 0; 0]).
  assert (F : _average_buffers c = true /\ averages_records (cls c) = false /\
              data c = Some zeros /\ handling_times c = Some 2%nat /\
              _datadtype c = uint32 /\
              buffer_view c full_scale_buffer = Ok v).
  { vm_compute in Ec. injection Ec as <-. repeat split. }
  destruct F as (F1 & F2 & F3 & F4 & F5 & F6).
  destruct (deliver_accumulates_sum [full_scale_buffer; full_scale_buffer] [v; v]
              c zeros 0 2 F1 F2 F3 eq_refl)
    as (c' & acc' & E & Ed & _ & _ & _ & Hx).
  - rewrite F5. repeat constructor; cbn; lia.
  - exact F4.
  - lia.
  - repeat constructor; assumption.
  - exists c, c', acc'. split; [reflexivity|]. split; [exact E|].
    split; [exact Ed|].
    assert (S16 : Forall (fun v0 => Forall (fun s => 0 <= s < 2 ^ 16) (elems v0)) [v; v])
      by (repeat constructor; cbn; lia).
    split.
    + apply (Hx 16 ltac:(lia)); try assumption.
      * rewrite F5. reflexivity.
      * repeat constructor.
      * cbn. lia.
      * cbn. lia.
    + apply (Hx 16 ltac:(lia)); try assumption.
      * rewrite F5. reflexivity.
      * repeat constructor.
      * cbn. lia.
      * cbn. lia.
Defined.

(** X13.  Without buffer averaging and with the buffers taken as they
    come, a series of buffers numbered from [i0] on leaves buffer [q] of
    the series, converted to the accumulator's type, in slot [i0 + q],
    and every other slot as it was. *)
Theorem deliver_stores_each_buffer (bufs : list (list Z)) (vs : list (ndarray Z))
  (c : ctl) (acc : ndarray Z) (i0 : Z) (n m : nat) (rest : list nat) :
  _average_buffers c = false -> averages_records (cls c) = false ->
  data c = Some acc -> wf acc -> shape acc = n :: rest ->
  handling_times c = Some m ->
  0 <= i0 -> i0 + Z.of_nat (length bufs) <= Z.of_nat n ->
  i0 + Z.of_nat (length bufs) <= Z.of_nat m ->
  Forall2 (fun b v => buffer_view c b = Ok v /\ shape v = rest /\ wf v) bufs vs ->
  exists (c' : ctl) (acc' : ndarray Z),
    deliver c i0 bufs = Ok c' /\ data c' = Some acc' /\
    shape acc' = shape acc /\ wf acc' /\
    (forall (q : nat) (v : ndarray Z),
       nth_error vs q = Some v ->
       slot acc' (Z.to_nat i0 + q) = nd_map (wrap (_datadtype c)) v) /\
    (forall j : nat,
       (j < Z.to_nat i0)%nat \/ (Z.to_nat i0 + length bufs <= j)%nat ->
       slot acc' j = slot acc j).
Proof.
  revert vs c acc i0.
  induction bufs as [|b bufs IH];
    intros vs c acc i0 Ha Hr Hd Hwf Hs Hm Hi0 Hn Hmm HF.
  - inversion HF; subst. exists c, acc. cbn [deliver].
    repeat (split; [first [reflexivity | assumption]|]). split.
    + intros q v Hq. destruct q; discriminate Hq.
    + reflexivity.
  - inversion HF as [|b0 v bufs0 vs0 (Hv & Hsv & Hvw) HF' E1 E2]; subst.
    cbn [length] in Hn, Hmm.
    assert (Hp : process_buffer c v = Ok (PInt v))
      by (unfold process_buffer; now rewrite Hr).
    set (x := store_as (_datadtype c) (PInt v)).
    assert (Hx : shape x = shape v) by reflexivity.
    assert (Lx : length (elems x) = size_of (shape v)).
    { cbn [x store_as nd_map elems]. rewrite length_map. exact Hvw. }
    set (acc1 := NdArray (shape acc)
                   (firstn (Z.to_nat i0 * size_of (shape v)) (elems acc)
                    ++ elems x
                    ++ skipn ((Z.to_nat i0 + 1) * size_of (shape v)) (elems acc))).
    destruct (overwritten_slots acc n (Z.to_nat i0) (shape v) (elems x)
                Hwf Hs ltac:(lia) Lx) as (W1 & S1 & O1).
    fold acc1 in W1, S1, O1.
    cbn [deliver].
    rewrite (handle_buffer_store_eq c b i0 v (PInt v) acc n m (shape v)
               Hv Hp Hd Hs Ha Hm ltac:(lia) ltac:(lia) Hx).
    cbn [bind]. fold x. fold acc1.
    assert (F1 : Forall2 (fun b v0 => buffer_view (set_data c (Some acc1)) b = Ok v0
                                      /\ shape v0 = shape v /\ wf v0) bufs vs0).
    { eapply Forall2_impl; [|exact HF'].
      intros b' v' (H1 & H2 & H3). repeat split; assumption. }
    destruct (IH vs0 (set_data c (Some acc1)) acc1 (i0 + 1) Ha Hr eq_refl W1 Hs Hm
                ltac:(lia) ltac:(lia) ltac:(lia) F1)
      as (c' & acc' & E & Ed & Es & Ew & Hq & Ho).
    exists c', acc'. split; [exact E|]. split; [exact Ed|].
    split; [exact Es|]. split; [exact Ew|]. split.
    + intros q v' Hv'. destruct q as [|q]; cbn [nth_error] in Hv'.
      * injection Hv' as <-. rewrite Nat.add_0_r.
        rewrite Ho by lia. rewrite S1.
        destruct v as [sv ev]. reflexivity.
      * replace (Z.to_nat i0 + S q)%nat with (Z.to_nat (i0 + 1) + q)%nat by lia.
        apply Hq. exact Hv'.
    + intros j Hj. cbn [length] in Hj.
      rewrite Ho by lia. apply O1. lia.
Qed.

Lemma deliver_stores_each_buffer_witness :
  exists (c c' : ctl) (acc' : ndarray Z),
    started RawAcqCtl = Ok c /\
    deliver c 0 [full_scale_buffer; [1; 2; 3; 4]] = Ok c' /\
    data c' = Some acc' /\
    slot acc' 0 = NdArray [1; 2; 2]%nat full_scale_buffer /\
    slot acc' 1 = NdArray [1; 2; 2]%nat [1; 2; 3; 4].
Proof.
  destruct (started RawAcqCtl) as [c|e] eqn:Ec; [|vm_compute in Ec; discriminate Ec].
  set (v0 := NdArray [1; 2; 2]%nat full_scale_buffer).
  set (v1 := NdArray [1; 2; 2]%nat [1; 2; 3; 4]).
  set (zeros := NdArray [2; 1; 2; 2]%nat (repeat 0 8)).
  assert (F : _average_buffers c = false /\ averages_records (cls c) = false /\
              data c = Some zeros /\ handling_times c = Some 2%nat /\
              _datadtype c = uint16 /\
              buffer_view c full_scale_buffer = Ok v0 /\
              buffer_view c [1; 2; 3; 4] = Ok v1).
  { vm_compute in Ec. injection Ec as <-. repeat split. }
  destruct F as (F1 & F2 & F3 & F4 & F5 & F6 & F7).
  destruct (deliver_stores_each_buffer [full_scale_buffer; [1; 2; 3; 4]] [v0; v1]
              c zeros 0 2 2 [1; 2; 2]%nat F1 F2 F3 eq_refl eq_refl F4)
    as (c' & acc' & E & Ed & _ & _ & Hq & _).
  - lia.
  - cbn. lia.
  - cbn. lia.
  - repeat constructor; assumption.
  - exists c, c', acc'. split; [reflexivity|]. split; [exact E|].
    split; [exact Ed|]. rewrite F5 in Hq. split.
    + exact (Hq 0%nat v0 eq_refl).
    + exact (Hq 1%nat v1 eq_refl).
Defined.

(* ================================================================== *)
(** ** Averaging over records *)

Lemma Qsum_inject_Z {A : Type} (f : A -> Z) (l : list A) :
  (Qsum (map (fun r => inject_Z (f r)) l)
   == inject_Z (fold_right Z.add 0%Z (map f l)))%Q.
Proof.
  unfold Qsum. induction l as [|a l IH]; cbn [map fold_right].
  - reflexivity.
  - rewrite IH, inject_Z_plus. reflexivity.
Qed.

Lemma index_sum_bound (l : list nat) (g : nat -> nat) (xs : list Z) (B : Z) :
  0 < B -> Forall (fun s => 0 <= s < B) xs ->
  0 <= fold_right Z.add 0 (map (fun r => nth (g r) xs 0) l)
    <= Z.of_nat (length l) * (B - 1).
Proof.
  intros HB H. induction l as [|r l IH]; cbn [map fold_right length].
  - lia.
  - assert (Hn : 0 <= nth (g r) xs 0 <= B - 1).
    { destruct (Nat.lt_ge_cases (g r) (length xs)) as [Hj|Hj].
      - rewrite Forall_forall in H. specialize (H _ (nth_In _ 0 Hj)). lia.
      - rewrite nth_overflow by exact Hj. lia. }
    nia.
Qed.

Lemma record_sum_bound (R inner : nat) (xs : list Z) (j : nat) (B : Z) :
  0 < B -> Forall (fun s => 0 <= s < B) xs ->
  0 <= record_sum R inner xs j <= Z.of_nat R * (B - 1).
Proof.
  intros HB H. unfold record_sum.
  pose proof (index_sum_bound (seq 0 R) (fun r => (r * inner + j)%nat) xs B HB H) as P.
  rewrite length_seq in P. exact P.
Qed.

(** The mean over the records of a buffer of [R] records, as
    [process_buffer] of a record-averaging class computes it. *)
Lemma process_buffer_record_mean (c : ctl) (v : ndarray Z) (R S C : nat) :
  averages_records (cls c) = true ->
  shape v = [R; S; C] -> (0 < R)%nat ->
  process_buffer c v =
  Ok (PFloat (NdArray [S; C]
        (map (fun idx =>
                (Qsum (map (fun r => inject_Z (nth (r * (S * C) + idx) (elems v) 0%Z))
                         (seq 0 R))
                 / inject_Z (Z.of_nat R))%Q)
           (seq 0 (S * C))))).
Proof.
  intros Hr Hs HR. unfold process_buffer. rewrite Hr.
  unfold np_mean, ndim. cbn [nd_map shape elems]. rewrite Hs.
  cbn [length Nat.leb axis_of nth inner_of skipn firstn app size_of fold_right].
  destruct (Nat.eqb_spec R 0); [lia|]. cbn [andb bind].
  rewrite Nat.mul_1_r. do 3 f_equal.
  apply map_ext_in. intros idx Hi. apply in_seq in Hi.
  rewrite Nat.div_small, Nat.mod_small by lia.
  do 2 f_equal. apply map_ext. intros r.
  change 0%Q with (inject_Z 0). rewrite map_nth.
  replace ((0 * R + r) * (S * C) + idx)%nat with (r * (S * C) + idx)%nat by lia.
  reflexivity.
Qed.

(** X14.  A record-averaging class stores in slot [k] of its
    accumulator, for each sample position, the sum of the samples of the
    records at that position divided by the number of records and rounded
    down: the fraction of the mean is dropped before normalisation.
    Every other slot is left as it was. *)
Theorem handle_buffer_stores_floor_of_record_mean (c : ctl) (raw : list Z)
  (k : Z) (v acc : ndarray Z) (R S C n m : nat) :
  averages_records (cls c) = true -> _average_buffers c = false ->
  buffer_view c raw = Ok v -> shape v = [R; S; C] -> (0 < R)%nat ->
  Forall (fun s => 0 <= s < 2 ^ width (_datadtype c)) (elems v) ->
  data c = Some acc -> wf acc -> shape acc = [n; S; C] ->
  handling_times c = Some m -> 0 <= k < Z.of_nat n -> k < Z.of_nat m ->
  exists (c' : ctl) (acc' : ndarray Z),
    handle_buffer c raw (Some k) = Ok c' /\ data c' = Some acc' /\
    slot acc' (Z.to_nat k)
    = NdArray [S; C]
        (map (fun j => record_sum R (S * C) (elems v) j / Z.of_nat R)
           (seq 0 (S * C))) /\
    (forall j : nat, j <> Z.to_nat k -> slot acc' j = slot acc j).
Proof.
  intros Hr Ha Hv Hsv HR Hrange Hd Hwf Hs Hm Hk Hkm.
  pose proof (process_buffer_record_mean c v R S C Hr Hsv HR) as Hp.
  set (mean := NdArray [S; C]
                 (map (fun idx =>
                    (Qsum (map (fun r => inject_Z (nth (r * (S * C) + idx) (elems v) 0%Z))
                             (seq 0 R))
                     / inject_Z (Z.of_nat R))%Q)
                    (seq 0 (S * C)))) in *.
  assert (Ex : store_as (_datadtype c) (PFloat mean)
               = NdArray [S; C]
                   (map (fun j => record_sum R (S * C) (elems v) j / Z.of_nat R)
                      (seq 0 (S * C)))).
  { unfold mean, store_as, nd_map. cbn [shape elems]. f_equal. rewrite map_map.
    apply map_ext. intros idx.
    pose proof (pow_width_pos (_datadtype c)) as Pw.
    pose proof (record_sum_bound R (S * C) (elems v) idx _ Pw Hrange) as B.
    fold (record_sum R (S * C) (elems v) idx) in *.
    set (s := record_sum R (S * C) (elems v) idx) in *.
    assert (Eq : (Qsum (map (fun r => inject_Z (nth (r * (S * C) + idx) (elems v) 0%Z))
                          (seq 0 R)) / inject_Z (Z.of_nat R)
                  == inject_Z s / inject_Z (Z.of_nat R))%Q).
    { rewrite (Qsum_inject_Z (fun r => nth (r * (S * C) + idx) (elems v) 0%Z)).
      reflexivity. }
    rewrite (py_int_comp _ _ Eq).
    assert (Hq : 0 <= s / Z.of_nat R < 2 ^ width (_datadtype c)).
    { split; [apply Z.div_pos; lia|].
      apply Z.div_lt_upper_bound; [lia|]. nia. }
    rewrite py_int_nonneg.
    - rewrite <- Zdiv_Qdiv. unfold wrap. now apply Z.mod_small.
    - apply Qle_shift_div_l.
      + change 0%Q with (inject_Z 0). rewrite <- Zlt_Qlt. lia.
      + rewrite Qmult_0_l. change 0%Q with (inject_Z 0). rewrite <- Zle_Qle. lia. }
  assert (Lx : length (elems (store_as (_datadtype c) (PFloat mean)))
               = size_of [S; C]).
  { rewrite Ex. cbn [elems size_of fold_right].
    rewrite length_map, length_seq. lia. }
  destruct (overwritten_slots acc n (Z.to_nat k) [S; C]
              (elems (store_as (_datadtype c) (PFloat mean)))
              Hwf Hs ltac:(lia) Lx) as (_ & S1 & O1).
  eexists. eexists. split.
  - apply (handle_buffer_store_eq c raw k v (PFloat mean) acc n m [S; C]);
      try assumption. rewrite Ex. reflexivity.
  - split; [reflexivity|]. split.
    + rewrite S1, Ex. reflexivity.
    + exact O1.
Qed.

Lemma handle_buffer_stores_floor_of_record_mean_witness :
  exists (c c' : ctl) (acc' : ndarray Z),
    init AvgRecCtl ats9360 1000000000 2 2 2 = Ok c /\
    exists c1 : ctl,
      pre_start_capture cos2pi_quarter sin2pi_quarter c = Ok c1 /\
      handle_buffer c1 [1; 10; 100; 1000; 2; 20; 200; 2001] (Some 1) = Ok c' /\
      data c' = Some acc' /\
      slot acc' 1 = NdArray [2; 2]%nat [1; 15; 150; 1500].
Proof.
  destruct (init AvgRecCtl ats9360 1000000000 2 2 2) as [c|e] eqn:Ec;
    [|vm_compute in Ec; discriminate Ec].
  destruct (pre_start_capture cos2pi_quarter sin2pi_quarter c) as [c1|e] eqn:E1.
  2: { vm_compute in Ec. injection Ec as <-. vm_compute in E1. discriminate E1. }
  set (raw := [1; 10; 100; 1000; 2; 20; 200; 2001]).
  set (v := NdArray [2; 2; 2]%nat raw).
  set (zeros := NdArray [2; 2; 2]%nat (repeat 0 8)).
  assert (F : averages_records (cls c1) = true /\ _average_buffers c1 = false /\
              buffer_view c1 raw = Ok v /\ data c1 = Some zeros /\
              handling_times c1 = Some 2%nat /\ _datadtype c1 = uint32).
  { vm_compute in Ec. injection Ec as <-. vm_compute in E1. injection E1 as <-.
    repeat split. }
  destruct F as (F1 & F2 & F3 & F4 & F5 & F6).
  destruct (handle_buffer_stores_floor_of_record_mean c1 raw 1 v zeros 2 2 2 2 2
              F1 F2 F3 eq_refl ltac:(lia))
    as (c' & acc' & E & Ed & Hs & _); try assumption; try reflexivity; try lia.
  - rewrite F6. repeat constructor; cbn; lia.
  - exists c, c', acc'. split; [reflexivity|].
    exists c1. split; [exact E1|]. split; [exact E|]. split; [exact Ed|].
    exact Hs.
Defined.

(* ================================================================== *)
(** ** The range of what the raw controller returns *)

Lemma Forall_nth_default {A : Type} (P : A -> Prop) (d : A) (l : list A) (i : nat) :
  P d -> Forall P l -> P (nth i l d).
Proof.
  intros Hd Hl. destruct (Nat.lt_ge_cases i (length l)) as [H|H].
  - rewrite Forall_forall in Hl. apply Hl. now apply nth_In.
  - now rewrite nth_overflow.
Qed.

Lemma gather_Forall {A : Type} (P : A -> Prop) (d : A) (shp : list nat)
  (src : nat -> nat) (xs : list A) :
  P d -> Forall P xs -> Forall P (gather d shp src xs).
Proof.
  intros Hd Hx. unfold gather. apply Forall_map. apply Forall_forall.
  intros i _. now apply Forall_nth_default.
Qed.

Lemma broadcast_to_Forall {A : Type} (P : A -> Prop) (d : A) (t : list nat)
  (a : ndarray A) (xs : list A) :
  broadcast_to d t a = Ok xs -> P d -> Forall P (elems a) -> Forall P xs.
Proof.
  unfold broadcast_to. intros H Hd Ha.
  destruct (shape_eqb (shape a) t); [now injection H as <-|].
  destruct (length t <? ndim a)%nat; [discriminate H|].
  destruct (stretches _ t); [|discriminate H].
  injection H as <-. now apply gather_Forall.
Qed.

Lemma zip_with_Forall {A B C : Type} (P : C -> Prop) (f : A -> B -> C)
  (xs : list A) (ys : list B) :
  (forall x y, P (f x y)) -> Forall P (zip_with f xs ys).
Proof.
  intro H. revert ys. induction xs as [|x xs IH]; intros [|y ys]; cbn [zip_with];
    constructor; auto.
Qed.

Lemma wrap_range (t : dtype) (v : Z) : 0 <= wrap t v < 2 ^ width t.
Proof. unfold wrap. apply Z.mod_pos_bound. apply pow_width_pos. Qed.

Lemma store_as_range (t : dtype) (p : processed) :
  Forall (fun v => 0 <= v < 2 ^ width t) (elems (store_as t p)).
Proof.
  destruct p; cbn [store_as nd_map elems]; apply Forall_map, Forall_forall;
    intros; apply wrap_range.
Qed.

Lemma Forall_splice {A : Type} (P : A -> Prop) (l vs : list A) (i j : nat) :
  Forall P l -> Forall P vs -> Forall P (firstn i l ++ vs ++ skipn j l).
Proof.
  intros Hl Hv. rewrite !Forall_app. repeat split; try assumption.
  - rewrite Forall_forall in *. intros x Hx. apply Hl.
    rewrite <- (firstn_skipn i l). apply in_or_app. now left.
  - rewrite Forall_forall in *. intros x Hx. apply Hl.
    rewrite <- (firstn_skipn j l). apply in_or_app. now right.
Qed.

(** Whatever a buffer holds, a callback that succeeds leaves in the
    accumulator only values of the accumulator's type. *)
Lemma handle_buffer_range (c c' : ctl) (raw : list Z) (bn : option Z)
  (acc : ndarray Z) :
  handle_buffer c raw bn = Ok c' -> data c = Some acc ->
  Forall (fun v => 0 <= v < 2 ^ width (_datadtype c)) (elems acc) ->
  exists acc' : ndarray Z,
    data c' = Some acc' /\
    Forall (fun v => 0 <= v < 2 ^ width (_datadtype c)) (elems acc').
Proof.
  intros H Hd Hr. unfold handle_buffer in H. bind_inv H.
  assert (T : forall (a0 : ndarray Z) (k : Z) (c'' : ctl),
             touch_handling_time (set_data c (Some a0)) k = Ok c'' ->
             c'' = set_data c (Some a0)).
  { intros a0 k c'' H0. unfold touch_handling_time in H0.
    bind_inv H0. bind_inv H0. now injection H0 as <-. }
  assert (Add : forall c'',
            (p <- process_buffer c a ;;
             acc0 <- of_option TypeError (data c) ;;
             acc' <- match p with
                     | PInt x => np_iadd (_datadtype c) acc0 x
                     | PFloat _ => Raise TypeError
                     end ;;
             touch_handling_time (set_data c (Some acc')) 0) = Ok c'' ->
            exists acc' : ndarray Z,
              data c'' = Some acc' /\
              Forall (fun v => 0 <= v < 2 ^ width (_datadtype c)) (elems acc')).
  { intros c'' H0. bind_inv H0. bind_inv H0. bind_inv H0.
    apply T in H0. subst c''. eexists. split; [reflexivity|].
    destruct a0 as [x|x]; [|discriminate E2].
    unfold np_iadd in E2. bind_inv E2. injection E2 as <-. cbn [elems].
    apply zip_with_Forall. intros. apply wrap_range. }
  destruct bn as [k|]; [destruct (_average_buffers c)|]; try (now apply Add).
  bind_inv H. bind_inv H. bind_inv H. apply T in H. subst c'.
  eexists. split; [reflexivity|].
  rewrite Hd in E1. injection E1 as <-.
  unfold np_setitem in E2. destruct (shape acc) as [|n rest]; [discriminate E2|].
  bind_inv E2. bind_inv E2. injection E2 as <-. cbn [elems].
  apply Forall_splice; [exact Hr|].
  eapply broadcast_to_Forall; [exact E3| |].
  - pose proof (pow_width_pos (_datadtype c)). lia.
  - cbn [elems]. apply store_as_range.
Qed.

Lemma deliver_range (bufs : list (list Z)) (c c' : ctl) (i : Z) (acc : ndarray Z) :
  deliver c i bufs = Ok c' -> data c = Some acc ->
  Forall (fun v => 0 <= v < 2 ^ width (_datadtype c)) (elems acc) ->
  exists acc' : ndarray Z,
    data c' = Some acc' /\
    Forall (fun v => 0 <= v < 2 ^ width (_datadtype c)) (elems acc').
Proof.
  revert c i acc. induction bufs as [|b bufs IH]; intros c i acc H Hd Hr;
    cbn [deliver] in H.
  - injection H as <-. now exists acc.
  - bind_inv H.
    destruct (handle_buffer_range _ _ _ _ _ E Hd Hr) as (acc1 & Hd1 & Hr1).
    apply handle_buffer_frame in E. destruct E as (F & _).
    apply config_fields in F.
    destruct F as (_ & _ & _ & _ & _ & _ & _ & _ & _ & _ & Ft & _).
    rewrite <- Ft in *. now apply (IH a (i + 1) acc1).
Qed.

Section RawRange.
Variables cos2pi sin2pi : Q -> Q.

(** X15.  Whatever the buffers hold, an acquisition of a class that does
    not demodulate and whose accumulator has the card's sample type, as
    [RawAcqCtl] has, returns when it succeeds a real array in which every
    value is in [-0.5, 0.5): each stored sample is cut to the sample
    type, and a 12-bit card's is shifted right by four bits before it is
    divided by 4096. *)
Theorem acquire_raw_range (c : ctl) (bufs : list (list Z)) (out : output) :
  demodulates (cls c) = false ->
  do_allocate_data c = true ->
  (_nbits c = 8 /\ _datadtype c = uint8) \/
  (_nbits c = 12 /\ _datadtype c = uint16) ->
  acquire cos2pi sin2pi c bufs = Ok out ->
  exists x : ndarray Q,
    out = Real x /\
    Forall (fun q => (- (1 # 2) <= q)%Q /\ (q < 1 # 2)%Q) (elems x).
Proof.
  intros Hv Ha Ht H. unfold acquire, pre_acquire in H. bind_inv H. bind_inv H.
  pose proof (pre_start_capture_config cos2pi sin2pi _ _ E) as (F & _).
  destruct (pre_start_capture_zeros cos2pi sin2pi c a Ha E) as (Hz & _).
  apply config_fields in F.
  destruct F as (Fv & _ & _ & _ & _ & _ & _ & _ & Fn & _ & Ft & _).
  destruct (deliver_range bufs a a0 0 _ E0 Hz) as (acc & Hd & Hr).
  { cbn [elems]. apply Forall_forall. intros v Hin.
    apply repeat_spec in Hin. subst v.
    pose proof (pow_width_pos (_datadtype a)). lia. }
  apply deliver_frame in E0. destruct E0 as (G & _).
  apply config_fields in G.
  destruct G as (Gv & _ & _ & _ & _ & _ & _ & _ & Gn & _ & Gt & _).
  destruct (post_acquire_range a0 acc) as (x & Hx & _ & Hq).
  - now rewrite Gv, Fv.
  - exact Hd.
  - rewrite Gn, Fn. rewrite Ft in Hr.
    destruct Ht as [[N T]|[N T]]; [left|right]; rewrite T in Hr; cbn [width] in Hr;
      split; assumption.
  - exists x. split; [congruence|exact Hq].
Qed.

End RawRange.

Lemma acquire_raw_range_witness :
  exists (c : ctl) (x : ndarray Q),
    init RawAcqCtl ats9360 1000000000 2 1 2 = Ok c /\
    acquire cos2pi_quarter sin2pi_quarter c [[65535; 70000; -1; 48]; [0; 0; 0; 0]]
    = Ok (Real x) /\
    Forall (fun q => (- (1 # 2) <= q)%Q /\ (q < 1 # 2)%Q) (elems x).
Proof.
  destruct (init RawAcqCtl ats9360 1000000000 2 1 2) as [c|e] eqn:Ec;
    [|vm_compute in Ec; discriminate Ec].
  set (bufs := [[65535; 70000; -1; 48]; [0; 0; 0; 0]]).
  destruct (acquire cos2pi_quarter sin2pi_quarter c bufs) as [out|e] eqn:E.
  2: { vm_compute in Ec. injection Ec as <-. vm_compute in E. discriminate E. }
  assert (F : demodulates (cls c) = false /\ do_allocate_data c = true /\
              _nbits c = 12 /\ _datadtype c = uint16).
  { vm_compute in Ec. injection Ec as <-. repeat split. }
  destruct F as (F1 & F2 & F3 & F4).
  destruct (acquire_raw_range cos2pi_quarter sin2pi_quarter c bufs out F1 F2
              (or_intror (conj F3 F4)) E) as (x & -> & Hx).
  exists c, x. split; [reflexivity|]. split; [exact E|exact Hx].
Defined.

(* ================================================================== *)
(** ** The shape of the demodulated output *)














Section DemodulatedOutput.
Variables cos2pi sin2pi : Q -> Q.






End DemodulatedOutput.


(* ================================================================== *)
(** ** [_DataExtractor.__getitem__] *)

Lemma leb_iff (a b : string) :
  String.leb a b = true <-> a = b \/ OrderedTypeEx.String_as_OT.lt a b.
Proof.
  unfold String.leb.
  pose proof (OrderedTypeEx.String_as_OT.cmp_eq a b) as Heq.
  pose proof (OrderedTypeEx.String_as_OT.cmp_lt a b) as Hlt.
  change OrderedTypeEx.String_as_OT.cmp with String.compare in *.
  destruct (String.compare a b) eqn:E.
  - split; [intros _; left; now apply Heq|reflexivity].
  - split; [intros _; right; now apply Hlt|reflexivity].
  - split; [discriminate|].
    intros [H|H]; [apply Heq in H|apply Hlt in H]; discriminate H.
Qed.

Lemma leb_trans (a b c : string) :
  String.leb a b = true -> String.leb b c = true -> String.leb a c = true.
Proof.
  rewrite !leb_iff. intros [->|H1] [->|H2]; auto.
  right. exact (OrderedTypeEx.String_as_OT.lt_trans _ _ _ H1 H2).
Qed.

Lemma leb_false (a b : string) :
  String.leb a b = false -> String.leb b a = true.
Proof.
  intro H. destruct (String.leb_total a b) as [T|T]; [congruence|exact T].
Qed.

Lemma insert_sorted_pair (x y : string) (l : list string) :
  (if String.leb x y then x :: y :: l else y :: x :: l)
  = (if String.leb y x then y :: x :: l else x :: y :: l).
Proof.
  destruct (String.leb x y) eqn:A, (String.leb y x) eqn:B; try reflexivity.
  - now rewrite (String.leb_antisym _ _ A B).
  - apply leb_false in A. congruence.
Qed.

Lemma insert_sorted_comm (x y : string) (l : list string) :
  insert_sorted x (insert_sorted y l) = insert_sorted y (insert_sorted x l).
Proof.
  induction l as [|z l IH]; cbn [insert_sorted].
  - pose proof (insert_sorted_pair x y []) as P.
    destruct (String.leb x y), (String.leb y x); exact P.
  - destruct (String.leb y z) eqn:Yz, (String.leb x z) eqn:Xz; cbn [insert_sorted];
      rewrite ?Yz, ?Xz.
    + pose proof (insert_sorted_pair x y (z :: l)) as P.
      destruct (String.leb x y), (String.leb y x); exact P.
    + destruct (String.leb x y) eqn:Xy.
      * rewrite (leb_trans _ _ _ Xy Yz) in Xz. discriminate Xz.
      * reflexivity.
    + destruct (String.leb y x) eqn:Yx.
      * rewrite (leb_trans _ _ _ Yx Xz) in Yz. discriminate Yz.
      * reflexivity.
    + now rewrite IH.
Qed.

(** [sorted] depends on the names only, not on their order. *)
Lemma sorted_Permutation (l l' : list string) :
  Permutation l l' -> sorted l = sorted l'.
Proof.
  unfold sorted. induction 1; cbn [fold_right].
  - reflexivity.
  - now f_equal.
  - apply insert_sorted_comm.
  - congruence.
Qed.

Lemma In_insert_sorted (x y : string) (l : list string) :
  In y (insert_sorted x l) <-> y = x \/ In y l.
Proof.
  induction l as [|z l IH]; cbn [insert_sorted In].
  - intuition congruence.
  - destruct (String.leb x z); cbn [In]; rewrite ?IH; intuition congruence.
Qed.

Lemma In_sorted (y : string) (l : list string) : In y (sorted l) <-> In y l.
Proof.
  unfold sorted. induction l as [|x l IH]; cbn [fold_right In]; [tauto|].
  rewrite In_insert_sorted, IH. intuition congruence.
Qed.

Lemma length_insert_sorted (x : string) (l : list string) :
  length (insert_sorted x l) = S (length l).
Proof.
  induction l as [|z l IH]; cbn [insert_sorted length]; [reflexivity|].
  destruct (String.leb x z); cbn [length]; congruence.
Qed.

Lemma length_sorted (l : list string) : length (sorted l) = length l.
Proof.
  unfold sorted. induction l as [|x l IH]; cbn [fold_right length]; [reflexivity|].
  now rewrite length_insert_sorted, IH.
Qed.

Lemma is_subset_iff (smaller larger : list string) :
  is_subset smaller larger = true <-> smaller = firstn (length smaller) larger.
Proof.
  unfold is_subset.
  destruct (list_eq_dec string_dec smaller (firstn (length smaller) larger));
    split; congruence.
Qed.

Lemma flatnonzero_nil (i : list bool) (k : nat) :
  flatnonzero i k = [] <-> Forall (fun b => b = false) i.
Proof.
  revert k. induction i as [|b i IH]; intro k; cbn [flatnonzero].
  - split; [constructor|reflexivity].
  - destruct b.
    + split; [discriminate|]. intro H. inversion H. discriminate.
    + rewrite IH. split; [now constructor|]. intro H. now inversion H.
Qed.

Lemma flatnonzero_head (i : list bool) (k i0 : nat) (rest : list nat) :
  flatnonzero i k = i0 :: rest ->
  exists j : nat, i0 = (k + j)%nat /\ nth_error i j = Some true /\
    forall j' : nat, (j' < j)%nat -> nth_error i j' = Some false.
Proof.
  revert k. induction i as [|b i IH]; intros k H; cbn [flatnonzero] in H.
  - discriminate H.
  - destruct b.
    + injection H as <- _. exists 0%nat. split; [lia|]. split; [reflexivity|].
      intros j' Hj. lia.
    + apply IH in H. destruct H as (j & -> & Hj & Hb).
      exists (S j). split; [lia|]. split; [exact Hj|].
      intros [|j'] Hlt; [reflexivity|]. cbn [nth_error]. apply Hb. lia.
Qed.

Section ExtractorFacts.
Variable D : Type.

Lemma dict_mem_iff (k : string) (d : dict D) :
  dict_mem k d = true <-> In k (map fst d).
Proof.
  unfold dict_mem. destruct (dict_get k d) eqn:E.
  - split; [intros _|reflexivity].
    destruct (in_dec string_dec k (map fst d)) as [I|N]; [exact I|].
    rewrite (dict_get_absent D k d N) in E. discriminate E.
  - split; [discriminate|]. intro I. now apply dict_get_present in E.
Qed.

Lemma dict_update_keys (k : string) (new d : dict D) :
  In k (map fst (dict_update d new)) <-> In k (map fst d) \/ In k (map fst new).
Proof.
  unfold dict_update. revert d.
  induction new as [|[k1 v1] new IH]; intro d; cbn [fold_left map fst snd In].
  - tauto.
  - rewrite IH, dict_set_keys.
    destruct (dict_mem k1 d) eqn:M.
    + apply dict_mem_iff in M. intuition (subst; auto).
    + rewrite in_app_iff. cbn [In]. intuition (subst; auto).
Qed.

(** What a successful [getitem] has found: the first entry of the data
    whose sorted names begin with the sorted requested names. *)
Lemma getitem_found (all_data : list (dataset D)) (layout : string) (r : dict D) :
  getitem all_data layout = Ok r ->
  exists (i : nat) (ad : dataset D),
    nth_error all_data i = Some ad /\ r = dict_update [] ad /\
    sorted (split_comma layout)
    = firstn (length (split_comma layout)) (sorted (map fst ad)) /\
    forall (j : nat) (ad' : dataset D),
      (j < i)%nat -> nth_error all_data j = Some ad' ->
      sorted (split_comma layout)
      <> firstn (length (split_comma layout)) (sorted (map fst ad')).
Proof.
  unfold getitem. intro H.
  set (req := sorted (split_comma layout)) in *.
  destruct (flatnonzero _ 0) as [|i0 rest] eqn:F; [discriminate H|].
  apply flatnonzero_head in F. destruct F as (j & -> & Hj & Hb).
  cbn [Nat.add] in H. bind_inv H. injection H as <-.
  unfold of_option in E. destruct (nth_error all_data j) as [ad|] eqn:N;
    [|discriminate E]. injection E as <-. unfold dataset in *.
  assert (L : length req = length (split_comma layout)) by apply length_sorted.
  exists j, ad. split; [exact N|]. split; [reflexivity|]. split.
  - rewrite !nth_error_map, N in Hj. cbn [option_map] in Hj.
    injection Hj as Hj. apply is_subset_iff in Hj. now rewrite L in Hj.
  - intros j' ad' Hlt N' Heq. specialize (Hb j' Hlt).
    rewrite !nth_error_map, N' in Hb. cbn [option_map] in Hb.
    injection Hb as Hb. rewrite <- L in Heq. apply is_subset_iff in Heq.
    congruence.
Qed.

(** X17.  When [getitem] returns, the keys of the dict it returns are the
    names of one entry of the data of the run, all of them, and every
    requested name is among them.  When no name occurs twice in that
    entry, each key maps to the data listed under it. *)
Theorem getitem_returns_an_entry (all_data : list (dataset D)) (layout : string)
  (r : dict D) :
  getitem all_data layout = Ok r ->
  exists ad : dataset D,
    In ad all_data /\
    (forall k : string, dict_mem k r = true <-> In k (map fst ad)) /\
    (forall name : string, In name (split_comma layout) -> dict_mem name r = true) /\
    (NoDup (map fst ad) -> forall k : string, dict_get k r = dict_get k ad).
Proof.
  intro H. apply getitem_found in H.
  destruct H as (i & ad & N & -> & P & _).
  assert (K : forall k : string,
             dict_mem k (dict_update [] ad) = true <-> In k (map fst ad)).
  { intro k. rewrite dict_mem_iff, dict_update_keys. cbn [map In]. tauto. }
  exists ad. split; [now apply nth_error_In in N|]. split; [exact K|]. split.
  - intros name Hn. apply K. apply In_sorted.
    apply (In_sorted name) in Hn. rewrite P in Hn.
    rewrite <- (firstn_skipn (length (split_comma layout)) (sorted (map fst ad))).
    apply in_or_app. now left.
  - intros Hnd k. rewrite (dict_get_update D k [] ad Hnd).
    cbn [dict_get]. now destruct (dict_get k ad).
Qed.

(** X18.  The order in which the names are requested does not matter:
    two layouts that list the same names give the same result, whether a
    dict or the error. *)
Theorem getitem_order_of_names (all_data : list (dataset D)) (l1 l2 : string) :
  Permutation (split_comma l1) (split_comma l2) ->
  getitem all_data l1 = getitem all_data l2.
Proof.
  intro P. unfold getitem. now rewrite (sorted_Permutation _ _ P).
Qed.

(** X19.  [getitem] raises [ValueError] exactly when no entry of the data
    has, once its names are sorted, the sorted requested names at its
    head, and it raises nothing else.  The requested names have to be the
    first names of an entry in sorted order: holding them is not
    enough. *)
Theorem getitem_no_such_layout (all_data : list (dataset D)) (layout : string) :
  (getitem all_data layout = Raise ValueError <->
   forall ad : dataset D, In ad all_data ->
     sorted (split_comma layout)
     <> firstn (length (split_comma layout)) (sorted (map fst ad))) /\
  (forall e : exn, getitem all_data layout = Raise e -> e = ValueError).
Proof.
  assert (L : length (sorted (split_comma layout)) = length (split_comma layout))
    by apply length_sorted.
  split; [split|].
  - intros H ad Hin Heq.
    unfold getitem in H.
    destruct (flatnonzero _ 0) as [|i0 rest] eqn:F.
    + apply flatnonzero_nil in F. rewrite Forall_forall in F.
      rewrite <- L in Heq. apply is_subset_iff in Heq.
      assert (Hf : is_subset (sorted (split_comma layout)) (sorted (map fst ad))
                   = false).
      { apply F. apply in_map.
        apply (in_map (fun ad => sorted (map fst ad))). exact Hin. }
      congruence.
    + apply flatnonzero_head in F. destruct F as (j & -> & Hj & _).
      cbn [Nat.add] in H. rewrite !nth_error_map in Hj.
      unfold dataset in *.
      destruct (nth_error all_data j); cbn in H, Hj; [discriminate H|discriminate Hj].
  - intro H. unfold getitem.
    destruct (flatnonzero _ 0) as [|i0 rest] eqn:F; [reflexivity|].
    apply flatnonzero_head in F. destruct F as (j & -> & Hj & _).
    rewrite !nth_error_map in Hj. unfold dataset in *.
    destruct (nth_error all_data j) as [ad|] eqn:N; [|discriminate Hj].
    cbn [option_map] in Hj. injection Hj as Hj. apply is_subset_iff in Hj.
    rewrite L in Hj. apply nth_error_In in N. now apply H in N.
  - intros e H. unfold getitem in H.
    destruct (flatnonzero _ 0) as [|i0 rest] eqn:F; [now injection H as <-|].
    apply flatnonzero_head in F. destruct F as (j & -> & Hj & _).
    cbn [Nat.add] in H. rewrite !nth_error_map in Hj.
    unfold dataset in *.
      destruct (nth_error all_data j); cbn in H, Hj; [discriminate H|discriminate Hj].
Qed.

(** X20.  A request that names a parameter which no entry of the data
    holds raises [ValueError]. *)
Theorem getitem_unknown_name (all_data : list (dataset D)) (layout name : string) :
  In name (split_comma layout) ->
  (forall ad : dataset D, In ad all_data -> ~ In name (map fst ad)) ->
  getitem all_data layout = Raise ValueError.
Proof.
  intros Hn Hno.
  destruct (getitem all_data layout) as [r|e] eqn:E.
  - apply getitem_found in E. destruct E as (i & ad & N & _ & P & _).
    apply nth_error_In in N. exfalso. apply (Hno ad N).
    apply In_sorted. apply (In_sorted name) in Hn. rewrite P in Hn.
    rewrite <- (firstn_skipn (length (split_comma layout)) (sorted (map fst ad))).
    apply in_or_app. now left.
  - f_equal. unfold getitem in E.
    destruct (flatnonzero _ 0) as [|i0 rest] eqn:F; [now injection E as <-|].
    apply flatnonzero_head in F. destruct F as (j & -> & Hj & _).
    cbn [Nat.add] in E. rewrite !nth_error_map in Hj.
    unfold dataset in *.
    destruct (nth_error all_data j); cbn in E, Hj; [discriminate E|discriminate Hj].
Qed.

End ExtractorFacts.

Lemma getitem_returns_an_entry_witness :
  exists r : dict Z,
    getitem two_entries "z,x" = Ok r /\
    dict_mem "x" r = true /\ dict_mem "z" r = true /\
    dict_get "z" r = Some 3.
Proof.
  destruct (getitem two_entries "z,x") as [r|e] eqn:E;
    [|vm_compute in E; discriminate E].
  destruct (getitem_returns_an_entry Z two_entries "z,x" r E)
    as (ad & Hin & Hk & Hreq & Hv).
  exists r. split; [reflexivity|]. split; [|split].
  - apply Hreq. vm_compute. auto.
  - apply Hreq. vm_compute. auto.
  - vm_compute in E. injection E as <-. reflexivity.
Defined.

Lemma getitem_order_of_names_witness :
  getitem two_entries "z,x" = getitem two_entries "x,z".
Proof.
  apply getitem_order_of_names. vm_compute. apply perm_swap.
Defined.

Lemma getitem_unknown_name_witness :
  getitem two_entries "x,w" = Raise ValueError.
Proof.
  apply (getitem_unknown_name Z two_entries "x,w" "w").
  - vm_compute. auto.
  - intros ad Hin Hw. unfold two_entries in Hin. cbn [In] in Hin.
    destruct Hin as [<-|[<-|[]]]; cbn [map fst In] in Hw;
      repeat (destruct Hw as [Hw|Hw]; [discriminate Hw|]); exact Hw.
Defined.

Section RealOutput.
Variables cos2pi sin2pi : Q -> Q.

(** X21.  After any acquisition that does not raise, a class that does
    not demodulate returns a real array of the shape that [data_shape]
    reports: one slot per buffer for [RawAcqCtl] and [AvgRecCtl], a single
    buffer for [AvgBufCtl]. *)
Theorem post_acquire_real_shape (c c1 c2 : ctl) (bufs : list (list Z)) :
  demodulates (cls c) = false -> do_allocate_data c = true ->
  pre_start_capture cos2pi sin2pi c = Ok c1 ->
  deliver c1 0 bufs = Ok c2 ->
  exists (x : ndarray Q) (shp : list Z),
    post_acquire c2 = Ok (Real x) /\
    data_shape cos2pi sin2pi c2 = Ok (shp, c2) /\
    shape x = map Z.to_nat shp /\ length shp = length (data_dims c2).
Proof.
  intros Hv Ha Hp Hd.
  destruct (pre_start_capture_zeros cos2pi sin2pi c c1 Ha Hp) as (Hz & _).
  pose proof (pre_start_capture_config cos2pi sin2pi _ _ Hp) as (F & _).
  apply config_fields in F.
  destruct F as (Fv & _ & Fs & Fr & Fb & _ & Fn & Fa & _).
  pose proof (deliver_frame _ _ _ _ Hd) as (G & _ & _ & _ & G5).
  apply config_fields in G.
  destruct G as (Gv & _ & Gs & Gr & Gb & _ & Gn & Ga & _).
  rewrite Hz in G5. cbn [option_map shape] in G5.
  destruct (data c2) as [acc|] eqn:Hacc; [|discriminate G5].
  cbn [option_map] in G5. injection G5 as Hshape.
  pose proof (normalized_ok c2 acc Hacc) as Hn.
  assert (Vc : cls c2 = cls c) by congruence.
  assert (E : data_shape cos2pi sin2pi c2 = Ok (accumulator_shape c, c2)).
  { unfold data_shape, accumulator_shape. rewrite Vc.
    destruct (cls c); try discriminate Hv;
      rewrite ?Ga, ?Fa, ?Gs, ?Fs, ?Gr, ?Fr, ?Gb, ?Fb, ?Gn, ?Fn;
      try reflexivity.
    destruct (negb (_average_buffers c)); reflexivity. }
  exists (nd_map (normalize_sample (_nbits c2)) acc), (accumulator_shape c).
  split; [|split; [exact E|split; [exact Hshape|]]].
  - unfold post_acquire. rewrite Vc, Hn.
    destruct (cls c); try discriminate Hv; reflexivity.
  - exact (data_shape_dims_length cos2pi sin2pi c2 c2 _ E).
Qed.

End RealOutput.

Lemma post_acquire_real_shape_witness :
  exists (c c1 c2 : ctl) (x : ndarray Q),
    init AvgRecCtl ats9360 1000000000 2 2 2 = Ok c /\
    pre_start_capture cos2pi_quarter sin2pi_quarter c = Ok c1 /\
    deliver c1 0 [[1; 10; 100; 1000; 2; 20; 200; 2001]; repeat 16 8] = Ok c2 /\
    post_acquire c2 = Ok (Real x) /\
    data_shape cos2pi_quarter sin2pi_quarter c2 = Ok ([2; 2; 2], c2) /\
    shape x = [2; 2; 2]%nat.
Proof.
  destruct (init AvgRecCtl ats9360 1000000000 2 2 2) as [c|e] eqn:Ec;
    [|vm_compute in Ec; discriminate Ec].
  destruct (pre_start_capture cos2pi_quarter sin2pi_quarter c) as [c1|e] eqn:E1.
  2: { vm_compute in Ec. injection Ec as <-. vm_compute in E1. discriminate E1. }
  set (bufs := [[1; 10; 100; 1000; 2; 20; 200; 2001]; repeat 16 8]).
  destruct (deliver c1 0 bufs) as [c2|e] eqn:E2.
  2: { vm_compute in Ec. injection Ec as <-. vm_compute in E1.
       injection E1 as <-. vm_compute in E2. discriminate E2. }
  assert (F : demodulates (cls c) = false /\ do_allocate_data c = true).
  { vm_compute in Ec. injection Ec as <-. split; reflexivity. }
  destruct F as (F1 & F2).
  destruct (post_acquire_real_shape cos2pi_quarter sin2pi_quarter c c1 c2 bufs
              F1 F2 E1 E2) as (x & shp & Hx & Hs & Hsh & _).
  assert (Es : data_shape cos2pi_quarter sin2pi_quarter c2 = Ok ([2; 2; 2], c2)).
  { vm_compute in Ec. injection Ec as <-. vm_compute in E1. injection E1 as <-.
    vm_compute in E2. injection E2 as <-. reflexivity. }
  rewrite Es in Hs. injection Hs as <-.
  exists c, c1, c2, x. split; [reflexivity|]. split; [exact E1|].
  split; [exact E2|]. split; [exact Hx|]. split; [exact Es|exact Hsh].
Defined.

(* ================================================================== *)
(** * Rounding in binary64 *)

Lemma pow2_pos (e : Z) : (0 < Binary64.pow2 e)%Q.
Proof. apply Qpower_0_lt. reflexivity. Qed.

Lemma pow2_plus (a b : Z) :
  (Binary64.pow2 (a + b) == Binary64.pow2 a * Binary64.pow2 b)%Q.
Proof. apply Qpower_plus. discriminate. Qed.

Lemma pow2_lt (a b : Z) : a < b -> (Binary64.pow2 a < Binary64.pow2 b)%Q.
Proof. intro H. apply Qpower_lt_compat_l; [exact H|reflexivity]. Qed.

Lemma pow2_le (a b : Z) : a <= b -> (Binary64.pow2 a <= Binary64.pow2 b)%Q.
Proof. intro H. apply Qpower_le_compat_l; [exact H|discriminate]. Qed.

Lemma pow2_lt_inv (a b : Z) : (Binary64.pow2 a < Binary64.pow2 b)%Q -> a < b.
Proof. intro H. apply (Qpower_lt_compat_l_inv 2); [exact H|reflexivity]. Qed.

Lemma pow2_Z (e : Z) : 0 <= e -> (Binary64.pow2 e == inject_Z (2 ^ e))%Q.
Proof. intro H. unfold Binary64.pow2. now rewrite (Zpower_Qpower 2 e H). Qed.

Lemma pow2_succ (e : Z) : (Binary64.pow2 (e + 1) == 2 * Binary64.pow2 e)%Q.
Proof. rewrite pow2_plus. change (Binary64.pow2 1) with 2%Q. ring. Qed.

Lemma Zfrac_le (a b c d : Z) :
  0 < b -> 0 < d -> a * d <= c * b ->
  (inject_Z a / inject_Z b <= inject_Z c / inject_Z d)%Q.
Proof.
  intros Hb Hd H.
  assert (Qb : (0 < inject_Z b)%Q) by (change 0%Q with (inject_Z 0); now rewrite <- Zlt_Qlt).
  assert (Qd : (0 < inject_Z d)%Q) by (change 0%Q with (inject_Z 0); now rewrite <- Zlt_Qlt).
  apply Qle_shift_div_l; [exact Qd|].
  assert (E : (inject_Z a / inject_Z b * inject_Z d
               == inject_Z (a * d) / inject_Z b)%Q).
  { rewrite inject_Z_mult. field. lra. }
  rewrite E. apply Qle_shift_div_r; [exact Qb|].
  rewrite <- inject_Z_mult, <- Zle_Qle. exact H.
Qed.

Lemma Zfrac_lt (a b c d : Z) :
  0 < b -> 0 < d -> a * d < c * b ->
  (inject_Z a / inject_Z b < inject_Z c / inject_Z d)%Q.
Proof.
  intros Hb Hd H.
  assert (Qb : (0 < inject_Z b)%Q) by (change 0%Q with (inject_Z 0); now rewrite <- Zlt_Qlt).
  assert (Qd : (0 < inject_Z d)%Q) by (change 0%Q with (inject_Z 0); now rewrite <- Zlt_Qlt).
  apply Qlt_shift_div_l; [exact Qd|].
  assert (E : (inject_Z a / inject_Z b * inject_Z d
               == inject_Z (a * d) / inject_Z b)%Q).
  { rewrite inject_Z_mult. field. lra. }
  rewrite E. apply Qlt_shift_div_r; [exact Qb|].
  rewrite <- inject_Z_mult, <- Zlt_Qlt. exact H.
Qed.

(** [ilog2] is the floor of the binary logarithm. *)
Lemma ilog2_spec (x : Q) :
  (0 < x)%Q ->
  (Binary64.pow2 (Binary64.ilog2 x) <= x)%Q /\
  (x < Binary64.pow2 (Binary64.ilog2 x + 1))%Q.
Proof.
  intro Hx. destruct x as [n d]. unfold Binary64.ilog2. cbn [Qnum Qden].
  assert (Hn : 0 < n) by (unfold Qlt in Hx; cbn in Hx; lia).
  set (a := Z.log2 n). set (b := Z.log2 (Z.pos d)).
  pose proof (Z.log2_nonneg n) as Ha0. pose proof (Z.log2_nonneg (Z.pos d)) as Hb0.
  pose proof (Z.log2_spec n Hn) as Ha. pose proof (Z.log2_spec (Z.pos d) eq_refl) as Hb.
  fold a in Ha, Ha0. fold b in Hb, Hb0.
  rewrite <- !Z.add_1_r in Ha, Hb.
  rewrite !Z.pow_add_r, !Z.pow_1_r in Ha, Hb by lia.
  set (A := 2 ^ a) in *. set (B := 2 ^ b) in *.
  assert (PA : (Binary64.pow2 a == inject_Z A)%Q) by (apply pow2_Z; exact Ha0).
  assert (PB : (Binary64.pow2 b == inject_Z B)%Q) by (apply pow2_Z; exact Hb0).
  assert (Bpos : 0 < B) by lia.
  assert (E : (Binary64.pow2 (a - b) == inject_Z A / inject_Z B)%Q).
  { unfold Binary64.pow2 in *. rewrite Qpower_minus by discriminate.
    now rewrite PA, PB. }
  assert (QB : (0 < inject_Z B)%Q)
    by (change 0%Q with (inject_Z 0); now rewrite <- Zlt_Qlt).
  assert (L : (Binary64.pow2 (a - b - 1) <= n # d)%Q).
  { assert (E1 : (Binary64.pow2 (a - b - 1) == inject_Z A / inject_Z (2 * B))%Q).
    { unfold Z.sub at 1. rewrite pow2_plus, E.
      change (Binary64.pow2 (- (1))) with (1 # 2)%Q.
      rewrite inject_Z_mult. field. lra. }
    rewrite E1, (Qmake_Qdiv n d). apply Zfrac_le; lia || nia. }
  assert (U : (n # d < Binary64.pow2 (a - b + 1))%Q).
  { assert (E1 : (Binary64.pow2 (a - b + 1) == inject_Z (2 * A) / inject_Z B)%Q).
    { rewrite pow2_succ, E, inject_Z_mult. field. lra. }
    rewrite E1, (Qmake_Qdiv n d). apply Zfrac_lt; lia || nia. }
  destruct (Qle_bool (Binary64.pow2 (a - b)) (n # d)) eqn:T.
  - apply Qle_bool_iff in T. split; assumption.
  - split; [exact L|].
    replace (a - b - 1 + 1) with (a - b) by lia.
    apply Qnot_le_lt. intro C. apply Qle_bool_iff in C. congruence.
Qed.

Lemma rne_cases (x : Q) :
  let f := Qfloor x in
  ((x - inject_Z f < 1 # 2)%Q -> Binary64.rne x = f) /\
  ((1 # 2 < x - inject_Z f)%Q -> Binary64.rne x = f + 1) /\
  ((x - inject_Z f == 1 # 2)%Q ->
   Binary64.rne x = if Z.even f then f else f + 1).
Proof.
  intro f. unfold Binary64.rne. fold f.
  destruct (Qcompare_spec (x - inject_Z f) (1 # 2)) as [E|L|G];
    repeat split; intro H; try reflexivity; lra.
Qed.

Lemma rne_floor (x : Q) : Qfloor x <= Binary64.rne x <= Qfloor x + 1.
Proof.
  unfold Binary64.rne.
  destruct (Qcompare (x - inject_Z (Qfloor x)) (1 # 2)); try lia.
  destruct (Z.even (Qfloor x)); lia.
Qed.

Lemma rne_Z (z : Z) : Binary64.rne (inject_Z z) = z.
Proof.
  destruct (rne_cases (inject_Z z)) as (H & _). rewrite Qfloor_Z in H.
  apply H. lra.
Qed.

Lemma rne_mono (x y : Q) : (x <= y)%Q -> Binary64.rne x <= Binary64.rne y.
Proof.
  intro H. pose proof (Qfloor_resp_le _ _ H) as F.
  pose proof (rne_floor x) as Bx. pose proof (rne_floor y) as By.
  destruct (Z.eq_dec (Qfloor x) (Qfloor y)) as [E|N]; [|lia].
  destruct (rne_cases x) as (X1 & X2 & X3).
  destruct (rne_cases y) as (Y1 & Y2 & Y3).
  rewrite <- E in Y1, Y2, Y3.
  destruct (Qcompare_spec (x - inject_Z (Qfloor x)) (1 # 2)) as [Ex|Lx|Gx].
  - destruct (Qcompare_spec (y - inject_Z (Qfloor x)) (1 # 2)) as [Ey|Ly|Gy].
    + rewrite (X3 Ex), (Y3 Ey). lia.
    + lra.
    + rewrite (Y2 Gy). lia.
  - rewrite (X1 Lx). lia.
  - assert (Gy : (1 # 2 < y - inject_Z (Qfloor x))%Q) by lra.
    rewrite (X2 Gx), (Y2 Gy). lia.
Qed.

Lemma rne_comp (x y : Q) : (x == y)%Q -> Binary64.rne x = Binary64.rne y.
Proof.
  intro E. apply Z.le_antisymm; apply rne_mono; lra.
Qed.

(** *** The exponent of the last place *)

Lemma ilog2_mono (x y : Q) :
  (0 < x)%Q -> (x <= y)%Q -> Binary64.ilog2 x <= Binary64.ilog2 y.
Proof.
  intros Hx H.
  destruct (ilog2_spec x Hx) as [L _].
  destruct (ilog2_spec y) as [_ U]; [lra|].
  assert (P : (Binary64.pow2 (Binary64.ilog2 x)
               < Binary64.pow2 (Binary64.ilog2 y + 1))%Q) by lra.
  apply pow2_lt_inv in P. lia.
Qed.

Lemma ulp_exp_mono (x y : Q) :
  (0 < x)%Q -> (x <= y)%Q -> Binary64.ulp_exp x <= Binary64.ulp_exp y.
Proof.
  intros Hx H. unfold Binary64.ulp_exp.
  pose proof (ilog2_mono x y Hx H). lia.
Qed.

Lemma ulp_exp_upper (x : Q) :
  (0 < x)%Q -> (x < Binary64.pow2 (Binary64.ulp_exp x + 53))%Q.
Proof.
  intro Hx. destruct (ilog2_spec x Hx) as [_ U].
  apply Qlt_le_trans with (1 := U). apply pow2_le.
  unfold Binary64.ulp_exp. lia.
Qed.

Lemma ulp_exp_lower (x : Q) :
  (0 < x)%Q -> - 1074 < Binary64.ulp_exp x ->
  (Binary64.pow2 (Binary64.ulp_exp x + 52) <= x)%Q.
Proof.
  intros Hx H. destruct (ilog2_spec x Hx) as [L _].
  apply Qle_trans with (2 := L). apply pow2_le.
  unfold Binary64.ulp_exp in *. lia.
Qed.

(** The significand: the number of units in the last place. *)
Lemma significand_bounds (x : Q) :
  (0 < x)%Q ->
  let m := Binary64.rne (x / Binary64.pow2 (Binary64.ulp_exp x)) in
  0 <= m <= 2 ^ 53 /\ (- 1074 < Binary64.ulp_exp x -> 2 ^ 52 <= m).
Proof.
  intros Hx m. set (e := Binary64.ulp_exp x) in *.
  pose proof (pow2_pos e) as Pe.
  assert (U : (x / Binary64.pow2 e <= inject_Z (2 ^ 53))%Q).
  { apply Qle_shift_div_r; [exact Pe|].
    rewrite <- (pow2_Z 53) by lia. rewrite <- pow2_plus.
    pose proof (ulp_exp_upper x Hx) as H. fold e in H.
    rewrite Z.add_comm. lra. }
  assert (L0 : (inject_Z 0 <= x / Binary64.pow2 e)%Q).
  { apply Qle_shift_div_l; [exact Pe|]. change (inject_Z 0) with 0%Q. lra. }
  split.
  - split.
    + rewrite <- (rne_Z 0). apply rne_mono. exact L0.
    + rewrite <- (rne_Z (2 ^ 53)). apply rne_mono. exact U.
  - intro He. rewrite <- (rne_Z (2 ^ 52)). apply rne_mono.
    apply Qle_shift_div_l; [exact Pe|].
    rewrite <- (pow2_Z 52) by lia. rewrite <- pow2_plus.
    pose proof (ulp_exp_lower x Hx He) as H. fold e in H.
    rewrite Z.add_comm. exact H.
Qed.

Lemma round_pos_nonneg (x : Q) : (0 < x)%Q -> (0 <= Binary64.round_pos x)%Q.
Proof.
  intro Hx. unfold Binary64.round_pos.
  destruct (significand_bounds x Hx) as [[L _] _].
  pose proof (pow2_pos (Binary64.ulp_exp x)) as P.
  apply Qmult_le_0_compat; [|lra].
  change 0%Q with (inject_Z 0). rewrite <- Zle_Qle. exact L.
Qed.

Lemma round_pos_mono (x y : Q) :
  (0 < x)%Q -> (x <= y)%Q -> (Binary64.round_pos x <= Binary64.round_pos y)%Q.
Proof.
  intros Hx H. assert (Hy : (0 < y)%Q) by lra.
  pose proof (ulp_exp_mono x y Hx H) as He.
  destruct (significand_bounds x Hx) as [[Lx Ux] _].
  destruct (significand_bounds y Hy) as [_ Ly].
  unfold Binary64.round_pos.
  destruct (Z.eq_dec (Binary64.ulp_exp x) (Binary64.ulp_exp y)) as [E|N].
  - rewrite <- E. pose proof (pow2_pos (Binary64.ulp_exp x)) as Px.
    apply Qmult_le_compat_r; [|lra].
    rewrite <- Zle_Qle. apply rne_mono.
    apply Qmult_le_compat_r; [exact H|].
    apply Qlt_le_weak, Qinv_lt_0_compat. exact Px.
  - set (ex := Binary64.ulp_exp x) in *. set (ey := Binary64.ulp_exp y) in *.
    pose proof (pow2_pos ex) as Px. pose proof (pow2_pos ey) as Py.
    assert (Hlt : ex < ey) by lia.
    assert (Hmin : - 1074 <= ex) by (subst ex; unfold Binary64.ulp_exp; lia).
    specialize (Ly ltac:(lia)).
    apply Qle_trans with (inject_Z (2 ^ 53) * Binary64.pow2 ex)%Q.
    + apply Qmult_le_compat_r; [|lra]. rewrite <- Zle_Qle. exact Ux.
    + apply Qle_trans with (inject_Z (2 ^ 52) * Binary64.pow2 ey)%Q.
      * rewrite <- (pow2_Z 53), <- (pow2_Z 52), <- !pow2_plus by lia.
        apply pow2_le. lia.
      * apply Qmult_le_compat_r; [|lra]. rewrite <- Zle_Qle. exact Ly.
Qed.

Lemma round_nonneg (x : Q) : (0 <= x)%Q -> (0 <= Binary64.round x)%Q.
Proof.
  intro H. unfold Binary64.round.
  destruct (Qcompare_spec x 0) as [E|L|G]; [lra|lra|].
  now apply round_pos_nonneg.
Qed.

Lemma round_nonpos (x : Q) : (x <= 0)%Q -> (Binary64.round x <= 0)%Q.
Proof.
  intro H. unfold Binary64.round.
  destruct (Qcompare_spec x 0) as [E|L|G]; [lra| |lra].
  assert (P : (0 <= Binary64.round_pos (- x))%Q) by (apply round_pos_nonneg; lra).
  lra.
Qed.

(** Rounding keeps the order. *)
Lemma round_mono (x y : Q) :
  (x <= y)%Q -> (Binary64.round x <= Binary64.round y)%Q.
Proof.
  intro H.
  destruct (Qlt_le_dec 0 x) as [Px|Nx].
  - unfold Binary64.round.
    destruct (Qcompare_spec x 0) as [E|L|G]; [lra|lra|].
    destruct (Qcompare_spec y 0) as [E'|L'|G']; [lra|lra|].
    now apply round_pos_mono.
  - destruct (Qlt_le_dec y 0) as [Ny|Py].
    + unfold Binary64.round.
      destruct (Qcompare_spec x 0) as [E|L|G]; [lra| |lra].
      destruct (Qcompare_spec y 0) as [E'|L'|G']; [lra| |lra].
      apply Qopp_le_compat. apply round_pos_mono; lra.
    + apply Qle_trans with 0%Q; [now apply round_nonpos|now apply round_nonneg].
Qed.

Lemma round_comp (x y : Q) : (x == y)%Q -> (Binary64.round x == Binary64.round y)%Q.
Proof. intro E. apply Qle_antisym; apply round_mono; lra. Qed.

(** *** The numbers that rounding keeps *)

Lemma round_pos_repr (z k : Z) :
  0 < z < 2 ^ 53 -> - 1074 <= k ->
  (Binary64.round_pos (inject_Z z * Binary64.pow2 k)
   == inject_Z z * Binary64.pow2 k)%Q.
Proof.
  intros Hz Hk. set (x := (inject_Z z * Binary64.pow2 k)%Q).
  pose proof (pow2_pos k) as Pk.
  assert (Qz : (0 < inject_Z z)%Q)
    by (change 0%Q with (inject_Z 0); rewrite <- Zlt_Qlt; lia).
  assert (Hx : (0 < x)%Q) by (subst x; apply Qmult_lt_0_compat; assumption).
  assert (He : Binary64.ulp_exp x <= k).
  { destruct (ilog2_spec x Hx) as [L _].
    assert (U : (x < Binary64.pow2 (53 + k))%Q).
    { subst x. rewrite pow2_plus, (pow2_Z 53) by lia.
      apply Qmult_lt_compat_r; [exact Pk|]. rewrite <- Zlt_Qlt. lia. }
    assert (P : (Binary64.pow2 (Binary64.ilog2 x) < Binary64.pow2 (53 + k))%Q) by lra.
    apply pow2_lt_inv in P. unfold Binary64.ulp_exp. lia. }
  unfold Binary64.round_pos. set (e := Binary64.ulp_exp x) in *.
  pose proof (pow2_pos e) as Pe.
  assert (Ek : (Binary64.pow2 k == inject_Z (2 ^ (k - e)) * Binary64.pow2 e)%Q).
  { rewrite <- (pow2_Z (k - e)) by lia. rewrite <- pow2_plus.
    replace (k - e + e) with k by lia. reflexivity. }
  assert (Em : (x / Binary64.pow2 e == inject_Z (z * 2 ^ (k - e)))%Q).
  { subst x. rewrite Ek, inject_Z_mult. field. lra. }
  rewrite (rne_comp _ _ Em), rne_Z, inject_Z_mult.
  subst x. rewrite Ek. ring.
Qed.

(** A number of at most 53 significant bits, above the underflow
    threshold, is a float. *)
Lemma round_repr (z k : Z) :
  - 2 ^ 53 < z < 2 ^ 53 -> - 1074 <= k ->
  (Binary64.round (inject_Z z * Binary64.pow2 k)
   == inject_Z z * Binary64.pow2 k)%Q.
Proof.
  intros Hz Hk. pose proof (pow2_pos k) as Pk.
  unfold Binary64.round.
  destruct (Qcompare_spec (inject_Z z * Binary64.pow2 k) 0) as [E|L|G].
  - lra.
  - assert (Nz : z < 0).
    { destruct (Z_lt_le_dec z 0) as [N|P]; [exact N|].
      assert (Qz : (0 <= inject_Z z)%Q)
        by (change 0%Q with (inject_Z 0); rewrite <- Zle_Qle; lia).
      pose proof (Qmult_le_0_compat _ _ Qz (Qlt_le_weak _ _ Pk)). lra. }
    assert (E : (- (inject_Z z * Binary64.pow2 k)
                 == inject_Z (- z) * Binary64.pow2 k)%Q)
      by (rewrite inject_Z_opp; ring).
    assert (R := round_pos_repr (- z) k ltac:(lia) Hk).
    assert (C : (Binary64.round_pos (- (inject_Z z * Binary64.pow2 k))
                 == Binary64.round_pos (inject_Z (- z) * Binary64.pow2 k))%Q).
    { apply Qle_antisym; apply round_pos_mono; lra. }
    rewrite C, R. rewrite inject_Z_opp. ring.
  - assert (Pz : 0 < z).
    { destruct (Z_lt_le_dec 0 z) as [P|N]; [exact P|].
      assert (Qz : (inject_Z z <= 0)%Q)
        by (change 0%Q with (inject_Z 0); rewrite <- Zle_Qle; lia).
      assert (M : (inject_Z z * Binary64.pow2 k <= 0 * Binary64.pow2 k)%Q)
        by (apply Qmult_le_compat_r; lra).
      lra. }
    apply round_pos_repr; [lia|exact Hk].
Qed.

Lemma round_Z (z : Z) :
  - 2 ^ 53 < z < 2 ^ 53 -> (Binary64.round (inject_Z z) == inject_Z z)%Q.
Proof.
  intro Hz. pose proof (round_repr z 0 Hz ltac:(lia)) as R.
  assert (E : (inject_Z z == inject_Z z * Binary64.pow2 0)%Q)
    by (change (Binary64.pow2 0) with 1%Q; ring).
  rewrite (round_comp _ _ E), R. symmetry. exact E.
Qed.

Lemma round_half (z : Z) :
  - 2 ^ 53 < z < 2 ^ 53 ->
  (Binary64.round (inject_Z z / 2) == inject_Z z / 2)%Q.
Proof.
  intro Hz. pose proof (round_repr z (- (1)) Hz ltac:(lia)) as R.
  assert (E : (inject_Z z / 2 == inject_Z z * Binary64.pow2 (- (1)))%Q)
    by (change (Binary64.pow2 (- (1))) with (1 # 2)%Q; field).
  rewrite (round_comp _ _ E), R. symmetry. exact E.
Qed.

(** A result between two floats of moderate size is finite. *)
Lemma of_Q_bounded (x : Q) (lo hi : Z) :
  - 2 ^ 53 < lo -> hi < 2 ^ 53 ->
  (inject_Z lo <= x)%Q -> (x <= inject_Z hi)%Q ->
  Binary64.of_Q x = Binary64.Fin (Binary64.round x) /\
  (inject_Z lo <= Binary64.round x)%Q /\ (Binary64.round x <= inject_Z hi)%Q.
Proof.
  intros Hlo Hhi L U.
  assert (Hle : lo <= hi) by (rewrite Zle_Qle; lra).
  assert (RL : (inject_Z lo <= Binary64.round x)%Q).
  { rewrite <- (round_Z lo) by lia. now apply round_mono. }
  assert (RU : (Binary64.round x <= inject_Z hi)%Q).
  { rewrite <- (round_Z hi) by lia. now apply round_mono. }
  split; [|split; assumption].
  assert (B : (inject_Z (2 ^ 53) < Binary64.pow2 1024)%Q).
  { rewrite <- (pow2_Z 53) by lia. apply pow2_lt. lia. }
  assert (QU : (inject_Z hi < inject_Z (2 ^ 53))%Q) by (rewrite <- Zlt_Qlt; lia).
  assert (QL : (inject_Z (- 2 ^ 53) < inject_Z lo)%Q) by (rewrite <- Zlt_Qlt; lia).
  rewrite inject_Z_opp in QL.
  unfold Binary64.of_Q.
  destruct (Qle_bool (Binary64.pow2 1024) (Binary64.round x)) eqn:T1.
  { apply Qle_bool_iff in T1. lra. }
  destruct (Qle_bool (Binary64.round x) (- Binary64.pow2 1024)) eqn:T2.
  { apply Qle_bool_iff in T2. lra. }
  reflexivity.
Qed.

(** The order of results: an infinity lies beyond every finite float. *)
Lemma of_Q_ltb_mono (x y t t' : Q) :
  (x <= y)%Q -> (t' <= t)%Q ->
  Binary64.ltb (Binary64.of_Q y) t' = true ->
  Binary64.ltb (Binary64.of_Q x) t = true.
Proof.
  intros H Ht. pose proof (round_mono x y H) as R.
  pose proof (pow2_pos 1024) as P.
  unfold Binary64.of_Q, Binary64.ltb.
  destruct (Qle_bool (Binary64.pow2 1024) (Binary64.round y)) eqn:Y1;
    [discriminate|].
  destruct (Qle_bool (Binary64.pow2 1024) (Binary64.round x)) eqn:X1.
  { apply Qle_bool_iff in X1.
    assert (C : (Binary64.pow2 1024 <= Binary64.round y)%Q) by lra.
    apply Qle_bool_iff in C. congruence. }
  destruct (Qle_bool (Binary64.round x) (- Binary64.pow2 1024)) eqn:X2;
    [reflexivity|].
  destruct (Qle_bool (Binary64.round y) (- Binary64.pow2 1024)) eqn:Y2.
  { apply Qle_bool_iff in Y2.
    assert (C : (Binary64.round x <= - Binary64.pow2 1024)%Q) by lra.
    apply Qle_bool_iff in C. congruence. }
  intro L. apply Qlt_bool_iff in L. apply Qlt_bool_iff. lra.
Qed.

(** The rounding above gives, at the inputs of the examples, what the
    Standard Library's specification of IEEE 754 gives: the product and
    the quotient of [time2samples] at 1.024e-06 and 1 GS/s, the quotient
    and the sum of the period at the frequency near the tie, a quotient
    that is not a float, and a product that overflows. *)
Lemma round_agrees_with_SpecFloat :
  Binary64.agrees (Binary64.mul t_1024ns 1000000000)
    (SFmul Binary64.prec Binary64.emax
       (Binary64.sf 4835703278458517 (- 72)) (Binary64.sf 1000000000 0)) = true /\
  Binary64.agrees (Binary64.div 1024 1000000000)
    (SFdiv Binary64.prec Binary64.emax
       (Binary64.sf 1024 0) (Binary64.sf 1000000000 0)) = true /\
  Binary64.agrees (Binary64.div 1000000000 df_near_tie)
    (SFdiv Binary64.prec Binary64.emax
       (Binary64.sf 1000000000 0) (Binary64.sf 2396745142857143 (- 23))) = true /\
  Binary64.agrees (Binary64.add (7 # 2) (1 # 2))
    (SFadd Binary64.prec Binary64.emax
       (Binary64.sf 7 (- 1)) (Binary64.sf 1 (- 1))) = true /\
  Binary64.agrees (Binary64.div 1 3)
    (SFdiv Binary64.prec Binary64.emax
       (Binary64.sf 1 0) (Binary64.sf 3 0)) = true /\
  Binary64.agrees (Binary64.mul (Binary64.pow2 1000) (Binary64.pow2 100))
    (SFmul Binary64.prec Binary64.emax
       (Binary64.sf 1 1000) (Binary64.sf 1 100)) = true.
Proof. vm_compute. repeat split. Qed.

(* ================================================================== *)
(** * [time2samples] in binary64 *)

Lemma is_float_spec (x : Q) :
  is_float x = true ->
  (Binary64.round x == x)%Q /\
  (- Binary64.pow2 1024 < x)%Q /\ (x < Binary64.pow2 1024)%Q.
Proof.
  unfold is_float, Binary64.of_Q.
  destruct (Qle_bool (Binary64.pow2 1024) (Binary64.round x)) eqn:T1;
    [discriminate|].
  destruct (Qle_bool (Binary64.round x) (- Binary64.pow2 1024)) eqn:T2;
    [discriminate|].
  intro E. apply Qeq_bool_iff in E.
  split; [exact E|]. split; apply Qnot_le_lt; intro C.
  - rewrite <- E in C. apply Qle_bool_iff in C. congruence.
  - rewrite <- E in C. apply Qle_bool_iff in C. congruence.
Qed.

(** What [time2samples] computes when the product is finite. *)
Lemma time2samples_binary64_unfold (c : ctl) (t x : Q) :
  (0 < sample_rate c)%Q ->
  Binary64.mul t (sample_rate c) = Binary64.Fin x ->
  let n0 := Qfloor (x / 128) * 128 in
  time2samples_binary64 c t
  = Ok (Z.max 384
          (if Binary64.ltb (Binary64.div (inject_Z n0) (sample_rate c)) t
           then n0 + 128 else n0)).
Proof.
  intros Hsr Hx n0. unfold time2samples_binary64. rewrite Hx.
  rewrite (Qeq_bool_pos _ Hsr). reflexivity.
Qed.

Lemma time2samples_binary64_inv (c : ctl) (t : Q) (r : Z) :
  time2samples_binary64 c t = Ok r ->
  Binary64.mul t (sample_rate c)
  = Binary64.Fin (Binary64.round (t * sample_rate c)).
Proof.
  unfold time2samples_binary64, Binary64.mul, Binary64.of_Q. intro H.
  destruct (Qle_bool (Binary64.pow2 1024) (Binary64.round (t * sample_rate c)));
    [discriminate H|].
  destruct (Qle_bool (Binary64.round (t * sample_rate c)) (- Binary64.pow2 1024));
    [discriminate H|].
  reflexivity.
Qed.

Lemma quotient_short_mono (sr : Q) (a b : Z) (t t' : Q) :
  (0 < sr)%Q -> a <= b -> (t' <= t)%Q ->
  Binary64.ltb (Binary64.div (inject_Z b) sr) t' = true ->
  Binary64.ltb (Binary64.div (inject_Z a) sr) t = true.
Proof.
  intros Hsr Hab Ht. unfold Binary64.div. apply of_Q_ltb_mono; [|exact Ht].
  apply Qmult_le_compat_r.
  - rewrite <- Zle_Qle. exact Hab.
  - apply Qlt_le_weak, Qinv_lt_0_compat. exact Hsr.
Qed.

(** A count above the rounded product, when it is a float, covers the
    duration: its quotient by the sample rate, as a float, is not below
    [t]. *)
Lemma quotient_covers (sr t : Q) (n : Z) :
  (0 < sr)%Q -> is_float t = true -> - 2 ^ 53 < n < 2 ^ 53 ->
  (Binary64.round (t * sr) < inject_Z n)%Q ->
  Binary64.ltb (Binary64.div (inject_Z n) sr) t = false.
Proof.
  intros Hsr Ht Hn Hx. apply is_float_spec in Ht. destruct Ht as (Rt & Lt & Ut).
  assert (Hlt : (t * sr < inject_Z n)%Q).
  { apply Qnot_le_lt. intro C. apply round_mono in C.
    rewrite (round_Z n Hn) in C. lra. }
  assert (Hq : (t <= inject_Z n / sr)%Q).
  { apply Qle_shift_div_l; [exact Hsr|lra]. }
  apply round_mono in Hq.
  assert (Hq' : (t <= Binary64.round (inject_Z n / sr))%Q) by lra.
  unfold Binary64.div, Binary64.of_Q, Binary64.ltb.
  destruct (Qle_bool (Binary64.pow2 1024) (Binary64.round (inject_Z n / sr)));
    [reflexivity|].
  destruct (Qle_bool (Binary64.round (inject_Z n / sr)) (- Binary64.pow2 1024)) eqn:T.
  { apply Qle_bool_iff in T. lra. }
  destruct (Qlt_bool (Binary64.round (inject_Z n / sr)) t) eqn:B; [|reflexivity].
  apply Qlt_bool_iff in B. lra.
Qed.

Lemma floor128_mono (x y : Q) :
  (x <= y)%Q -> Qfloor (x / 128) * 128 <= Qfloor (y / 128) * 128.
Proof.
  intro H. apply Z.mul_le_mono_nonneg_r; [lia|].
  apply Qfloor_resp_le. apply Qmult_le_compat_r; [exact H|]. discriminate.
Qed.

(** C4, amended.  For a float [t] and a positive sample rate whose
    product is at most [2 ^ 52] in size, [time2samples] returns
    [max 384 n], where [n] is the float product [t * sample_rate] rounded
    down to a multiple of 128 and incremented by 128 when the float
    quotient [n / sample_rate] is below [t].  The value is a multiple of
    128 and at least 384; its float quotient by the sample rate is not
    below [t]; and it does not decrease when [t] grows. *)
Theorem time2samples_binary64_spec (c : ctl) (t : Q) :
  (0 < sample_rate c)%Q -> is_float t = true ->
  (- inject_Z (2 ^ 52) <= t * sample_rate c)%Q ->
  (t * sample_rate c <= inject_Z (2 ^ 52))%Q ->
  exists n0 r : Z,
    let x := Binary64.round (t * sample_rate c) in
    let short := fun n : Z =>
      Binary64.ltb (Binary64.div (inject_Z n) (sample_rate c)) t in
    (128 | n0) /\ (inject_Z n0 <= x)%Q /\ (x < inject_Z n0 + 128)%Q /\
    time2samples_binary64 c t = Ok r /\
    (short n0 = true -> r = Z.max 384 (n0 + 128)) /\
    (short n0 = false -> r = Z.max 384 n0) /\
    (128 | r) /\ 384 <= r /\
    short r = false /\
    (forall (t' : Q) (r' : Z),
        (t <= t')%Q -> time2samples_binary64 c t' = Ok r' -> r <= r').
Proof.
  intros Hsr Ht Hlo Hhi.
  assert (Hlo' : (inject_Z (- 2 ^ 52) <= t * sample_rate c)%Q)
    by (rewrite inject_Z_opp; exact Hlo).
  destruct (of_Q_bounded (t * sample_rate c) (- 2 ^ 52) (2 ^ 52)
              ltac:(lia) ltac:(lia) Hlo' Hhi) as (Hx & Lx & Ux).
  set (x := Binary64.round (t * sample_rate c)) in *.
  set (n0 := Qfloor (x / 128) * 128).
  destruct (floor128_bounds x) as [L U]. fold n0 in L, U.
  pose proof (time2samples_binary64_unfold c t x Hsr Hx) as E. cbv zeta in E.
  fold n0 in E.
  set (short := fun n : Z =>
         Binary64.ltb (Binary64.div (inject_Z n) (sample_rate c)) t) in *.
  fold (short n0) in E.
  assert (D0 : (128 | n0)) by (exists (Qfloor (x / 128)); reflexivity).
  assert (B0 : - 2 ^ 52 - 128 < n0 <= 2 ^ 52).
  { split.
    - apply inject_Z_lt. unfold Z.sub. rewrite inject_Z_plus, !inject_Z_opp.
      rewrite inject_Z_opp in Lx. change (inject_Z 128) with 128%Q. lra.
    - rewrite Zle_Qle. lra. }
  exists n0, (Z.max 384 (if short n0 then n0 + 128 else n0)).
  cbv zeta. fold x. fold (short n0).
  split; [exact D0|]. split; [exact L|]. split; [exact U|]. split; [exact E|].
  split; [intros ->; reflexivity|]. split; [intros ->; reflexivity|].
  assert (Dr : (128 | Z.max 384 (if short n0 then n0 + 128 else n0))).
  { destruct D0 as [k Hk].
    destruct (Z.max_spec 384 (if short n0 then n0 + 128 else n0)) as [[_ ->]|[_ ->]].
    - destruct (short n0); [exists (k + 1)|exists k]; lia.
    - exists 3. reflexivity. }
  split; [exact Dr|]. split; [lia|]. split.
  - destruct (short n0) eqn:S0.
    + assert (C : short (n0 + 128) = false).
      { apply quotient_covers; try assumption; [lia|].
        rewrite inject_Z_plus. exact U. }
      destruct (short (Z.max 384 (n0 + 128))) eqn:S1; [|reflexivity].
      rewrite <- C. symmetry.
      apply (quotient_short_mono _ (n0 + 128) (Z.max 384 (n0 + 128)) t t);
        [exact Hsr|lia|lra|exact S1].
    + destruct (short (Z.max 384 n0)) eqn:S1; [|reflexivity].
      rewrite <- S0. symmetry.
      apply (quotient_short_mono _ n0 (Z.max 384 n0) t t);
        [exact Hsr|lia|lra|exact S1].
  - intros t' r' Htt E'.
    pose proof (time2samples_binary64_inv c t' r' E') as Hx'.
    pose proof (time2samples_binary64_unfold c t' _ Hsr Hx') as E2. cbv zeta in E2.
    set (x' := Binary64.round (t' * sample_rate c)) in *.
    set (n0' := Qfloor (x' / 128) * 128) in *.
    assert (Er : r' = Z.max 384
                   (if Binary64.ltb (Binary64.div (inject_Z n0') (sample_rate c)) t'
                    then n0' + 128 else n0')) by congruence.
    rewrite Er. clear Er E2.
    assert (Hxx : (x <= x')%Q).
    { apply round_mono. apply Qmult_le_compat_r; [exact Htt|lra]. }
    pose proof (floor128_mono x x' Hxx) as Hn. fold n0 n0' in Hn.
    assert (D0' : (128 | n0')) by (exists (Qfloor (x' / 128)); reflexivity).
    destruct (Z.eq_dec n0 n0') as [Eq|Ne].
    + rewrite <- Eq.
      destruct (short n0) eqn:S0.
      * assert (S1 : Binary64.ltb (Binary64.div (inject_Z n0) (sample_rate c)) t'
                     = true).
        { apply (quotient_short_mono _ n0 n0 t' t); [exact Hsr|lia|exact Htt|exact S0]. }
        rewrite S1. lia.
      * destruct (Binary64.ltb (Binary64.div (inject_Z n0) (sample_rate c)) t'); lia.
    + assert (Hstep : n0 + 128 <= n0').
      { destruct D0 as [k Hk], D0' as [k' Hk']. lia. }
      destruct (short n0);
        destruct (Binary64.ltb (Binary64.div (inject_Z n0') (sample_rate c)) t'); lia.
Qed.

Lemma time2samples_binary64_spec_witness :
  exists c : ctl,
    raw_1GHz = Ok c /\
    time2samples_binary64 c t_1024ns = Ok 1024 /\
    Binary64.ltb (Binary64.div 1024 (sample_rate c)) t_1024ns = false /\
    forall (t' : Q) (r' : Z),
      (t_1024ns <= t')%Q -> time2samples_binary64 c t' = Ok r' -> 1024 <= r'.
Proof.
  destruct raw_1GHz as [c|e] eqn:Ec; [|vm_compute in Ec; discriminate Ec].
  assert (F : sample_rate c = 1000000000%Q)
    by (vm_compute in Ec; injection Ec as <-; reflexivity).
  assert (Hsr : (0 < sample_rate c)%Q) by (rewrite F; reflexivity).
  assert (Ht : is_float t_1024ns = true) by (vm_compute; reflexivity).
  assert (Hlo : (- inject_Z (2 ^ 52) <= t_1024ns * sample_rate c)%Q)
    by (rewrite F; vm_compute; discriminate).
  assert (Hhi : (t_1024ns * sample_rate c <= inject_Z (2 ^ 52))%Q)
    by (rewrite F; vm_compute; discriminate).
  destruct (time2samples_binary64_spec c t_1024ns Hsr Ht Hlo Hhi)
    as (n0 & r & _ & _ & _ & E & _ & _ & _ & _ & Hc & Hm).
  assert (E1024 : time2samples_binary64 c t_1024ns = Ok 1024).
  { unfold time2samples_binary64. rewrite F. vm_compute. reflexivity. }
  rewrite E1024 in E. injection E as <-.
  exists c. split; [reflexivity|]. split; [exact E1024|].
  split; [exact Hc|exact Hm].
Defined.

(** C4, as stated, fails: for the float nearest to 1.024e-06 at 1 GS/s
    the product rounds to 1024 and the float quotient [1024 / 1e9] is the
    float [t] itself, so no block is added and 1024 is returned, although
    1024 samples last less than [t]. *)
Lemma time2samples_quotient_below_t :
  exists c : ctl,
    raw_1GHz = Ok c /\ is_float t_1024ns = true /\
    time2samples_binary64 c t_1024ns = Ok 1024 /\
    (inject_Z 1024 / sample_rate c < t_1024ns)%Q /\
    ~ (t_1024ns <= inject_Z 1024 / sample_rate c)%Q.
Proof.
  destruct raw_1GHz as [c|e] eqn:Ec; [|vm_compute in Ec; discriminate Ec].
  assert (F : sample_rate c = 1000000000%Q)
    by (vm_compute in Ec; injection Ec as <-; reflexivity).
  assert (L : (inject_Z 1024 / sample_rate c < t_1024ns)%Q)
    by (rewrite F; vm_compute; reflexivity).
  exists c. split; [reflexivity|]. split; [vm_compute; reflexivity|]. split.
  - unfold time2samples_binary64. rewrite F. vm_compute. reflexivity.
  - split; [exact L|]. apply Qlt_not_le. exact L.
Qed.

(* ================================================================== *)
(** * The period in binary64 *)

Lemma Qfloor_unique (x : Q) (k : Z) :
  (inject_Z k <= x)%Q -> (x < inject_Z (k + 1))%Q -> Qfloor x = k.
Proof.
  intros L U. pose proof (Qfloor_resp_le _ _ L) as A. rewrite Qfloor_Z in A.
  pose proof (Qfloor_le x) as B.
  assert (C : (inject_Z (Qfloor x) < inject_Z (k + 1))%Q) by lra.
  rewrite <- Zlt_Qlt in C. lia.
Qed.

(** C6, amended.  For a positive sample rate and demodulation frequency
    whose ratio is at most [2 ^ 51], the period
    [int(sample_rate / demod_frq + 0.5)], computed in floats, is the
    integer nearest to the ratio, a tie going up, or that integer plus
    one; it is the ratio itself when that is an integer, and it is not
    zero when the ratio is at least one half.  With a period of zero the
    floor division for [demod_samples] raises [ZeroDivisionError];
    otherwise [demod_samples] is the floor of
    [samples_per_record / period]. *)
Theorem period_binary64_spec (sr df : Q) (spr : Z) :
  (0 < sr)%Q -> (0 < df)%Q -> (sr / df <= inject_Z (2 ^ 51))%Q ->
  let nearest := py_int (sr / df + (1 # 2)) in
  exists p : Z,
    period_binary64 sr df = Ok p /\
    nearest <= p <= nearest + 1 /\
    (forall k : Z, (sr / df == inject_Z k)%Q -> p = k) /\
    ((1 # 2 <= sr / df)%Q -> 0 < p) /\
    (p = 0 -> period_and_demod_samples sr df spr = Raise ZeroDivisionError) /\
    (p <> 0 ->
     exists ds : Z,
       period_and_demod_samples sr df spr = Ok (p, ds) /\
       ds * p <= spr < (ds + 1) * p /\
       spr - ds * p = spr mod p).
Proof.
  intros Hsr Hdf Hr nearest.
  pose proof (Qdiv_pos _ _ Hsr Hdf) as Hq.
  set (r := (sr / df)%Q) in *.
  destruct (of_Q_bounded r 0 (2 ^ 51) ltac:(lia) ltac:(lia)) as (Eq & Lq & Uq);
    [change (inject_Z 0) with 0%Q; lra|exact Hr|].
  set (q := Binary64.round r) in *. change (inject_Z 0) with 0%Q in Lq.
  destruct (of_Q_bounded (q + (1 # 2)) 0 (2 ^ 51 + 1) ltac:(lia) ltac:(lia))
    as (Es & Ls & Us).
  { change (inject_Z 0) with 0%Q. lra. }
  { rewrite inject_Z_plus. change (inject_Z 1) with 1%Q. lra. }
  set (s := Binary64.round (q + (1 # 2))) in *. change (inject_Z 0) with 0%Q in Ls.
  assert (Ep : period_binary64 sr df = Ok (Qfloor s)).
  { unfold period_binary64. rewrite (Qeq_bool_pos _ Hdf).
    unfold Binary64.div. fold r. rewrite Eq. unfold Binary64.add. fold q.
    rewrite Es. fold s. now rewrite py_int_nonneg. }
  assert (En : nearest = Qfloor (r + (1 # 2))).
  { subst nearest. apply py_int_nonneg. lra. }
  pose proof (Qfloor_le (r + (1 # 2))) as NL.
  pose proof (Qlt_floor (r + (1 # 2))) as NU.
  rewrite <- En in NL, NU. rewrite inject_Z_plus in NU.
  change (inject_Z 1) with 1%Q in NU.
  assert (N0 : 0 <= nearest).
  { rewrite En. rewrite <- (Qfloor_Z 0). apply Qfloor_resp_le.
    change (inject_Z 0) with 0%Q. lra. }
  assert (N1 : nearest <= 2 ^ 51).
  { assert (C : (inject_Z nearest < inject_Z (2 ^ 51 + 1))%Q).
    { rewrite inject_Z_plus. change (inject_Z 1) with 1%Q. lra. }
    rewrite <- Zlt_Qlt in C. lia. }
  (* the half-integers around the nearest integer are floats *)
  assert (HL : (inject_Z (2 * nearest - 1) / 2 <= q)%Q).
  { rewrite <- (round_half (2 * nearest - 1)) by lia. apply round_mono.
    unfold Z.sub. rewrite inject_Z_plus, inject_Z_mult.
    change (inject_Z (- (1))) with (- (1))%Q. change (inject_Z 2) with 2%Q.
    apply Qle_shift_div_r; [reflexivity|]. lra. }
  assert (HU : (q <= inject_Z (2 * nearest + 1) / 2)%Q).
  { rewrite <- (round_half (2 * nearest + 1)) by lia. apply round_mono.
    rewrite inject_Z_plus, inject_Z_mult.
    change (inject_Z 1) with 1%Q. change (inject_Z 2) with 2%Q.
    apply Qle_shift_div_l; [reflexivity|]. lra. }
  assert (HL' : (inject_Z nearest <= q + (1 # 2))%Q).
  { assert (E : (inject_Z (2 * nearest - 1) / 2 == inject_Z nearest - (1 # 2))%Q).
    { unfold Z.sub. rewrite inject_Z_plus, inject_Z_mult.
      change (inject_Z (- (1))) with (- (1))%Q. change (inject_Z 2) with 2%Q.
      field. }
    lra. }
  assert (HU' : (q + (1 # 2) <= inject_Z (nearest + 1))%Q).
  { assert (E : (inject_Z (2 * nearest + 1) / 2 == inject_Z nearest + (1 # 2))%Q).
    { rewrite inject_Z_plus, inject_Z_mult.
      change (inject_Z 1) with 1%Q. change (inject_Z 2) with 2%Q. field. }
    rewrite inject_Z_plus. change (inject_Z 1) with 1%Q. lra. }
  assert (SL : (inject_Z nearest <= s)%Q).
  { rewrite <- (round_Z nearest) by lia. apply round_mono. exact HL'. }
  assert (SU : (s <= inject_Z (nearest + 1))%Q).
  { rewrite <- (round_Z (nearest + 1)) by lia. apply round_mono. exact HU'. }
  assert (PL : nearest <= Qfloor s).
  { rewrite <- (Qfloor_Z nearest). now apply Qfloor_resp_le. }
  assert (PU : Qfloor s <= nearest + 1).
  { rewrite <- (Qfloor_Z (nearest + 1)). now apply Qfloor_resp_le. }
  exists (Qfloor s). split; [exact Ep|]. split; [lia|]. split; [|split; [|split]].
  - intros k Hk. change (r == inject_Z k)%Q in Hk.
    assert (K0 : 0 < k) by (apply inject_Z_lt; change (inject_Z 0) with 0%Q; lra).
    assert (K1 : k <= 2 ^ 51) by (rewrite Zle_Qle; lra).
    assert (Eqk : (q == inject_Z k)%Q).
    { subst q. rewrite (round_comp _ _ Hk). apply round_Z. lia. }
    assert (Esk : (s == inject_Z (2 * k + 1) / 2)%Q).
    { subst s. rewrite <- (round_half (2 * k + 1)) by lia. apply round_comp.
      rewrite Eqk, inject_Z_plus, inject_Z_mult.
      change (inject_Z 1) with 1%Q. change (inject_Z 2) with 2%Q. field. }
    assert (Esk' : (s == inject_Z k + (1 # 2))%Q).
    { rewrite Esk, inject_Z_plus, inject_Z_mult.
      change (inject_Z 1) with 1%Q. change (inject_Z 2) with 2%Q. field. }
    apply Qfloor_unique; [lra|].
    rewrite inject_Z_plus. change (inject_Z 1) with 1%Q. lra.
  - intro Hhalf. change (1 # 2 <= r)%Q in Hhalf.
    assert (A : (inject_Z 1 <= r + (1 # 2))%Q)
      by (change (inject_Z 1) with 1%Q; lra).
    apply Qfloor_resp_le in A. rewrite Qfloor_Z in A. lia.
  - intro H0. unfold period_and_demod_samples. rewrite Ep. cbn [bind].
    unfold py_floordiv. rewrite H0. reflexivity.
  - intro Hne. assert (Hpos : 0 < Qfloor s) by lia.
    exists (spr / Qfloor s).
    split.
    + unfold period_and_demod_samples. rewrite Ep. cbn [bind].
      unfold py_floordiv. destruct (Z.eqb_spec (Qfloor s) 0); [lia|reflexivity].
    + pose proof (Z.mul_div_le spr (Qfloor s) Hpos).
      pose proof (Z.mul_succ_div_gt spr (Qfloor s) Hpos).
      split; [lia|]. rewrite Z.mod_eq by lia. lia.
Qed.

Lemma period_binary64_spec_witness :
  period_and_demod_samples 1000000000 50000000 2000 = Ok (20, 100) /\
  2000 - 100 * 20 = 0.
Proof.
  destruct (period_binary64_spec 1000000000 50000000 2000)
    as (p & Ep & _ & Hk & _ & _ & Hds); try reflexivity.
  { vm_compute. discriminate. }
  assert (E20 : p = 20) by (apply Hk; reflexivity).
  subst p. destruct (Hds ltac:(lia)) as (ds & E & B & _).
  assert (ds = 100) by nia. subst ds.
  split; [exact E|reflexivity].
Defined.

(** C6, as stated, fails.  At a demodulation frequency of four times the
    sample rate the period is zero and the floor division raises
    [ZeroDivisionError]: there is no [demod_samples].  And at the float
    nearest to [1e9 / 3.5] the quotient rounds to 3.5, so that the period
    is 4 where the integer nearest to the ratio is 3. *)
Lemma period_zero_or_off_by_one :
  period_binary64 1000000000 4000000000 = Ok 0 /\
  period_and_demod_samples 1000000000 4000000000 2000 = Raise ZeroDivisionError /\
  is_float df_near_tie = true /\
  period_binary64 1000000000 df_near_tie = Ok 4 /\
  py_int (1000000000 / df_near_tie + (1 # 2)) = 3.
Proof. vm_compute. repeat split. Qed.

(* ================================================================== *)
(** * What a buffer callback leaves in the accumulator *)

(** The mean over the records, as the accumulator's unsigned type keeps
    it: the sum over the records divided by their number, rounded
    down. *)
Lemma store_as_record_mean (t : dtype) (v : ndarray Z) (R S C : nat) :
  (0 < R)%nat ->
  Forall (fun s => 0 <= s < 2 ^ width t) (elems v) ->
  store_as t
    (PFloat (NdArray [S; C]
       (map (fun idx =>
               (Qsum (map (fun r => inject_Z (nth (r * (S * C) + idx) (elems v) 0%Z))
                        (seq 0 R))
                / inject_Z (Z.of_nat R))%Q)
          (seq 0 (S * C)))))
  = NdArray [S; C]
      (map (fun j => record_sum R (S * C) (elems v) j / Z.of_nat R)
         (seq 0 (S * C))).
Proof.
  intros HR Hrange. unfold store_as, nd_map. cbn [shape elems]. f_equal.
  rewrite map_map. apply map_ext. intros idx.
  pose proof (pow_width_pos t) as Pw.
  pose proof (record_sum_bound R (S * C) (elems v) idx _ Pw Hrange) as B.
  set (s := record_sum R (S * C) (elems v) idx) in *.
  assert (Eq : (Qsum (map (fun r => inject_Z (nth (r * (S * C) + idx) (elems v) 0%Z))
                        (seq 0 R)) / inject_Z (Z.of_nat R)
                == inject_Z s / inject_Z (Z.of_nat R))%Q).
  { rewrite (Qsum_inject_Z (fun r => nth (r * (S * C) + idx) (elems v) 0%Z)).
    reflexivity. }
  rewrite (py_int_comp _ _ Eq).
  assert (Hq : 0 <= s / Z.of_nat R < 2 ^ width t).
  { split; [apply Z.div_pos; lia|].
    apply Z.div_lt_upper_bound; [lia|]. nia. }
  rewrite py_int_nonneg.
  - rewrite <- Zdiv_Qdiv. unfold wrap. now apply Z.mod_small.
  - apply Qle_shift_div_l.
    + change 0%Q with (inject_Z 0). rewrite <- Zlt_Qlt. lia.
    + rewrite Qmult_0_l. change 0%Q with (inject_Z 0). rewrite <- Zle_Qle. lia.
Qed.

Lemma nd_map_wrap_in_range (t : dtype) (v : ndarray Z) :
  Forall (fun s => 0 <= s < 2 ^ width t) (elems v) -> nd_map (wrap t) v = v.
Proof.
  intro H. destruct v as [shp xs]. unfold nd_map. cbn [shape elems] in *.
  f_equal. rewrite <- (map_id xs) at 2. apply map_ext_in. intros a Ha.
  rewrite Forall_forall in H. unfold wrap. apply Z.mod_small. now apply H.
Qed.

(** C7, amended.  With buffer averaging in effect [handle_buffer] adds
    the buffer, element by element and modulo two to the width of the
    accumulator's type, to the accumulator, which has the buffer's shape.
    Without it, and with a buffer number [k], it writes into slot [k] of
    the accumulator the processed buffer converted to the accumulator's
    unsigned type: for a class that does not average over records the
    buffer itself, element by element modulo two to the width of the
    type, so unchanged when its samples fit the type; for a class that
    averages over records the sum over the records divided by their
    number and rounded down, the fraction of the mean being lost.  Every
    other slot is left as it was. *)
Theorem handle_buffer_sum_or_store (c : ctl) (raw : list Z) (v acc : ndarray Z)
  (m : nat) :
  buffer_view c raw = Ok v -> wf v ->
  data c = Some acc -> wf acc ->
  handling_times c = Some m ->
  let inside := fun s : Z => 0 <= s < 2 ^ width (_datadtype c) in
  (forall bn : option Z,
      _average_buffers c = true -> averages_records (cls c) = false ->
      (0 < m)%nat -> shape v = shape acc ->
      exists (c' : ctl) (acc' : ndarray Z),
        handle_buffer c raw bn = Ok c' /\ data c' = Some acc' /\
        shape acc' = shape acc /\
        length (elems acc') = length (elems acc) /\
        forall i : nat, (i < length (elems acc))%nat ->
          let sum := nth i (elems acc) 0 + nth i (elems v) 0 in
          nth i (elems acc') 0 = sum mod 2 ^ width (_datadtype c) /\
          (inside sum -> nth i (elems acc') 0 = sum)) /\
  (forall (k : Z) (n : nat) (rest : list nat),
      _average_buffers c = false -> averages_records (cls c) = false ->
      shape acc = n :: rest -> 0 <= k < Z.of_nat n -> k < Z.of_nat m ->
      shape v = rest ->
      exists (c' : ctl) (acc' : ndarray Z),
        handle_buffer c raw (Some k) = Ok c' /\ data c' = Some acc' /\
        shape acc' = shape acc /\
        slot acc' (Z.to_nat k) = nd_map (wrap (_datadtype c)) v /\
        (Forall inside (elems v) -> slot acc' (Z.to_nat k) = v) /\
        forall j : nat, j <> Z.to_nat k -> slot acc' j = slot acc j) /\
  (forall (k : Z) (n R S C : nat),
      _average_buffers c = false -> averages_records (cls c) = true ->
      shape acc = [n; S; C] -> 0 <= k < Z.of_nat n -> k < Z.of_nat m ->
      shape v = [R; S; C] -> (0 < R)%nat -> Forall inside (elems v) ->
      exists (c' : ctl) (acc' : ndarray Z),
        handle_buffer c raw (Some k) = Ok c' /\ data c' = Some acc' /\
        shape acc' = shape acc /\
        slot acc' (Z.to_nat k)
        = NdArray [S; C]
            (map (fun j => record_sum R (S * C) (elems v) j / Z.of_nat R)
               (seq 0 (S * C))) /\
        forall j : nat, j <> Z.to_nat k -> slot acc' j = slot acc j).
Proof.
  intros Hv Hwv Hd Hwf Hm inside. split; [|split].
  - intros bn Havg Hrec Hm0 Hs.
    assert (Hp : process_buffer c v = Ok (PInt v))
      by (unfold process_buffer; now rewrite Hrec).
    pose proof (handle_buffer_add_eq c raw bn v v acc m Hv Hp Hd Hs Hm Hm0
                  (or_introl Havg)) as E.
    assert (L : length (elems acc) = length (elems v)).
    { unfold wf in Hwf, Hwv. rewrite Hwf, Hwv, Hs. reflexivity. }
    do 2 eexists. split; [exact E|]. split; [reflexivity|].
    split; [reflexivity|]. cbn [elems]. split; [now apply zip_with_length|].
    intros i Hi. cbv zeta.
    set (sum := nth i (elems acc) 0 + nth i (elems v) 0).
    assert (N : nth i (zip_with (fun u w => wrap (_datadtype c) (u + w))
                         (elems acc) (elems v)) 0 = wrap (_datadtype c) sum).
    { subst sum.
      apply (zip_with_nth (fun u w => wrap (_datadtype c) (u + w)) 0 0 0); lia. }
    split; [exact N|]. intro Hr. rewrite N. unfold wrap. now apply Z.mod_small.
  - intros k n rest Havg Hrec Hs Hk Hkm Hsv.
    assert (Hp : process_buffer c v = Ok (PInt v))
      by (unfold process_buffer; now rewrite Hrec).
    assert (Hst : store_as (_datadtype c) (PInt v) = nd_map (wrap (_datadtype c)) v)
      by reflexivity.
    assert (Lx : length (elems (nd_map (wrap (_datadtype c)) v)) = size_of rest).
    { cbn [nd_map elems]. rewrite length_map. unfold wf in Hwv.
      now rewrite Hwv, Hsv. }
    destruct (overwritten_slots acc n (Z.to_nat k) rest
                (elems (nd_map (wrap (_datadtype c)) v))
                Hwf Hs ltac:(lia) Lx) as (_ & S1 & O1).
    do 2 eexists. split.
    { apply (handle_buffer_store_eq c raw k v (PInt v) acc n m rest);
        assumption. }
    split; [reflexivity|]. split; [reflexivity|].
    assert (Sk : slot
                   (NdArray (shape acc)
                      (firstn (Z.to_nat k * size_of rest) (elems acc)
                       ++ elems (store_as (_datadtype c) (PInt v))
                       ++ skipn ((Z.to_nat k + 1) * size_of rest) (elems acc)))
                   (Z.to_nat k)
                 = nd_map (wrap (_datadtype c)) v).
    { rewrite Hst, S1. unfold nd_map. cbn [shape elems]. now rewrite Hsv. }
    split; [exact Sk|]. split.
    + intro Hin. rewrite Sk. now apply nd_map_wrap_in_range.
    + rewrite Hst. exact O1.
  - intros k n R S C Havg Hrec Hs Hk Hkm Hsv HR Hin.
    pose proof (process_buffer_record_mean c v R S C Hrec Hsv HR) as Hp.
    pose proof (store_as_record_mean (_datadtype c) v R S C HR Hin) as Ex.
    set (mean := NdArray [S; C]
                   (map (fun idx =>
                      (Qsum (map (fun r => inject_Z (nth (r * (S * C) + idx) (elems v) 0%Z))
                               (seq 0 R))
                       / inject_Z (Z.of_nat R))%Q)
                      (seq 0 (S * C)))) in *.
    assert (Lx : length (elems (store_as (_datadtype c) (PFloat mean)))
                 = size_of [S; C]).
    { rewrite Ex. cbn [elems size_of fold_right].
      rewrite length_map, length_seq. lia. }
    destruct (overwritten_slots acc n (Z.to_nat k) [S; C]
                (elems (store_as (_datadtype c) (PFloat mean)))
                Hwf Hs ltac:(lia) Lx) as (_ & S1 & O1).
    do 2 eexists. split.
    { apply (handle_buffer_store_eq c raw k v (PFloat mean) acc n m [S; C]);
        try assumption. rewrite Ex. reflexivity. }
    split; [reflexivity|]. split; [reflexivity|]. split.
    + rewrite S1, Ex. reflexivity.
    + exact O1.
Qed.

Lemma handle_buffer_sum_or_store_witness :
  exists (c1 c' : ctl) (acc' : ndarray Z),
    avg_rec_started = Ok c1 /\
    handle_buffer c1 two_records (Some 1) = Ok c' /\
    data c' = Some acc' /\
    slot acc' 1 = NdArray [2; 2]%nat [1; 15; 150; 1500] /\
    slot acc' 0 = NdArray [2; 2]%nat [0; 0; 0; 0].
Proof.
  destruct avg_rec_started as [c1|e] eqn:E1; [|vm_compute in E1; discriminate E1].
  set (v := NdArray [2; 2; 2]%nat two_records).
  set (zeros := NdArray [2; 2; 2]%nat (repeat 0 8)).
  assert (F : buffer_view c1 two_records = Ok v /\ data c1 = Some zeros /\
              handling_times c1 = Some 2%nat /\
              _average_buffers c1 = false /\ averages_records (cls c1) = true /\
              _datadtype c1 = uint32).
  { vm_compute in E1. injection E1 as <-. repeat split. }
  destruct F as (F1 & F2 & F3 & F4 & F5 & F6).
  destruct (handle_buffer_sum_or_store c1 two_records v zeros 2
              F1 eq_refl F2 eq_refl F3) as (_ & _ & HR).
  destruct (HR 1 2%nat 2%nat 2%nat 2%nat F4 F5 eq_refl ltac:(lia) ltac:(lia)
              eq_refl ltac:(lia))
    as (c' & acc' & E & Ed & _ & Hs & Hf).
  { rewrite F6. unfold v, two_records. cbn [elems width].
    repeat constructor; lia. }
  exists c1, c', acc'. split; [reflexivity|]. split; [exact E|].
  split; [exact Ed|]. split; [exact Hs|].
  rewrite (Hf 0%nat) by discriminate. reflexivity.
Defined.

(** C7, as stated, fails for the classes that average over records: the
    processed buffer holds the means 3/2 and 3001/2, and the slot written
    holds 1 and 1500. *)
Lemma record_mean_is_not_stored_as_processed :
  exists (c1 c' : ctl) (v : ndarray Z) (mean : ndarray Q) (acc' : ndarray Z),
    avg_rec_started = Ok c1 /\ _average_buffers c1 = false /\
    buffer_view c1 two_records = Ok v /\
    process_buffer c1 v = Ok (PFloat mean) /\
    Forall2 Qeq (elems mean) [3 # 2; 15; 150; 3001 # 2]%Q /\
    handle_buffer c1 two_records (Some 1) = Ok c' /\
    data c' = Some acc' /\
    elems (slot acc' 1) = [1; 15; 150; 1500] /\
    ~ Forall2 Qeq (map inject_Z (elems (slot acc' 1))) (elems mean).
Proof.
  destruct avg_rec_started as [c1|e] eqn:E1; [|vm_compute in E1; discriminate E1].
  vm_compute in E1. injection E1 as <-.
  do 5 eexists.
  split; [reflexivity|]. split; [reflexivity|].
  split; [vm_compute; reflexivity|].
  split; [vm_compute; reflexivity|].
  split; [repeat constructor|].
  split; [vm_compute; reflexivity|].
  split; [reflexivity|].
  split; [reflexivity|].
  intro H. inversion H as [|? ? ? ? H0 _]. vm_compute in H0. discriminate H0.
Qed.
